(** * ProtoML: the scoring and consensus engine

    A shallow embedding of [helper/paper_scorer.py], [helper/agent_debate.py]
    and the scoring weights of [config.py], with the properties of the
    scoring rounds, the unanimous shortcut, the three-round debate and the
    adjudication fallback.

    Conventions of the embedding:
    - a Python [str] is a [string]; a character is an 8-bit code point;
    - a Python [int] is a [Z]; a Python [float], so every total score, is a
      binary64 number ([float], the primitive floats), with its rounding, its
      infinities and its NaN;
    - a value produced by [json.loads] is a [json] tree; a Python [dict] with
      string keys is an association list in insertion order;
    - code that can raise returns a [result]; code that calls a language-model
      backend runs in the monad [M], which threads the log of the calls made
      and the conversation context of the [AgentDebate] object;
    - [print] writes nothing the program reads back, so only the evaluation of
      its arguments (which can raise) is kept. *)

From Stdlib Require Import String Ascii List Bool Arith Lia ZArith.
From Stdlib Require Import Permutation Sorted.
From Stdlib Require Import DecimalString.
From Stdlib Require Import Floats.
Import ListNotations.

Local Close Scope Z_scope.
Local Open Scope nat_scope.
Local Open Scope string_scope.
Local Open Scope list_scope.

(** ** Python strings *)

Module PyStr.

(** [str.isspace] on the code points below 256. *)
Definition is_space (c : ascii) : bool :=
  let n := nat_of_ascii c in
  ((9 <=? n)%nat && (n <=? 13)%nat) || ((28 <=? n)%nat && (n <=? 32)%nat)
  || (n =? 133)%nat || (n =? 160)%nat.

Fixpoint lstrip (s : string) : string :=
  match s with
  | EmptyString => EmptyString
  | String c s' => if is_space c then lstrip s' else s
  end.

Fixpoint rstrip (s : string) : string :=
  match s with
  | EmptyString => EmptyString
  | String c s' =>
      match rstrip s' with
      | EmptyString => if is_space c then EmptyString else String c EmptyString
      | r => String c r
      end
  end.

(** [s.strip()] *)
Definition strip (s : string) : string := rstrip (lstrip s).

(** [sub in s] *)
Fixpoint contains (sub s : string) : bool :=
  if prefix sub s then true
  else match s with
       | EmptyString => false
       | String _ s' => contains sub s'
       end.

(** [s.split(sep)] for a non-empty [sep]: the pieces between the
    occurrences of [sep], found from left to right without overlap.
    [skip] counts the characters of a matched separator still to drop and
    [cur] is the current piece, reversed. *)
Fixpoint split_go (sep : string) (skip : nat) (cur : list ascii) (s : string)
  : list string :=
  match s with
  | EmptyString => [string_of_list_ascii (rev cur)]
  | String c s' =>
      match skip with
      | S k => split_go sep k cur s'
      | O =>
          if prefix sep s
          then string_of_list_ascii (rev cur)
                 :: split_go sep (String.length sep - 1) [] s'
          else split_go sep 0 (c :: cur) s'
      end
  end.

Definition split (sep s : string) : list string := split_go sep 0 [] s.

(** [s[:n]] *)
Definition take (n : nat) (s : string) : string := substring 0 n s.

End PyStr.

(** ** JSON values and Python exceptions *)

Local Unset Elimination Schemes.

(** What [json.loads] returns: [None], a [bool], an [int], a [float], a
    [str], a [list] or a [dict]. *)
Inductive json : Type :=
| JNull
| JBool (b : bool)
| JInt (z : Z)
| JFloat (f : float)
| JStr (s : string)
| JArr (items : list json)
| JObj (fields : list (string * json)).

Local Set Elimination Schemes.

(** The exceptions the modelled code can meet.  [BackendError] stands for
    whatever a client library raises (transport error, timeout, quota). *)
Inductive exn : Type :=
| KeyError (key : string)
| TypeError (msg : string)
| IndexError (msg : string)
| AttributeError (msg : string)
| JSONDecodeError (msg : string)
| OverflowError (msg : string)
| BackendError (msg : string).

(** [str(e)] *)
Definition exn_str (e : exn) : string :=
  match e with
  | KeyError k => "'" ++ k ++ "'"
  | TypeError m | IndexError m | AttributeError m
  | JSONDecodeError m | OverflowError m | BackendError m => m
  end.

Inductive result (A : Type) : Type :=
| Ok (a : A)
| Raise (e : exn).
Arguments Ok {A} a.
Arguments Raise {A} e.

Definition rbind {A B} (r : result A) (k : A -> result B) : result B :=
  match r with
  | Ok a => k a
  | Raise e => Raise e
  end.

(** [d.get]-like lookup in a dict; the first binding of a key is the one a
    dict holds (the parser keeps one binding per key). *)
Fixpoint dict_get (k : string) (m : list (string * json)) : option json :=
  match m with
  | [] => None
  | (k', v) :: m' => if String.eqb k k' then Some v else dict_get k m'
  end.

(** The name Python gives to the type of a value, as error messages spell it. *)
Definition type_name (v : json) : string :=
  match v with
  | JNull => "NoneType"
  | JBool _ => "bool"
  | JInt _ => "int"
  | JFloat _ => "float"
  | JStr _ => "str"
  | JArr _ => "list"
  | JObj _ => "dict"
  end.

(** [v[key]] for a string [key]. *)
Definition subscript (v : json) (key : string) : result json :=
  match v with
  | JObj m =>
      match dict_get key m with
      | Some x => Ok x
      | None => Raise (KeyError key)
      end
  | JArr _ => Raise (TypeError "list indices must be integers or slices, not str")
  | JStr _ => Raise (TypeError "string indices must be integers, not 'str'")
  | _ => Raise (TypeError ("'" ++ type_name v ++ "' object is not subscriptable"))
  end.

(** [v[:n]]: strings and lists can be sliced, nothing else that JSON yields. *)
Definition slice_to (n : nat) (v : json) : result json :=
  match v with
  | JStr s => Ok (JStr (PyStr.take n s))
  | JArr l => Ok (JArr (firstn n l))
  | JObj _ => Raise (TypeError "unhashable type: 'slice'")
  | _ => Raise (TypeError ("'" ++ type_name v ++ "' object is not subscriptable"))
  end.

(** [v == s] for a string literal [s]. *)
Definition eq_str (v : json) (s : string) : bool :=
  match v with
  | JStr t => String.eqb t s
  | _ => false
  end.

(** [o[i]] on a list. *)
Definition item {A} (l : list A) (i : nat) : result A :=
  match nth_error l i with
  | Some x => Ok x
  | None => Raise (IndexError "list index out of range")
  end.

(** ** The data model *)

(** A paper as [ArxivFetcher.fetch_papers] builds it. *)
Record Paper : Type := {
  title : string;
  abstract : string;
  authors : list string;
  pdf_url : string;
  arxiv_id : string;
  published : string;
  category : string;
  primary_category : string
}.

(** A paper after a scoring round: the paper's own entries plus
    ['groq_scores'] and ['groq_total_score'] (or the two ['gemini_...']
    entries); which of the two prefixes it carries is fixed by the scorer
    that produced the list, so one record serves both. *)
Record ScoredPaper : Type := {
  paper : Paper;
  scores : json;
  total_score : float
}.

(** One entry of [debate_history]. *)
Inductive turn_body : Type :=
| argument (text : string)
| decision (d : json).

Record DebateTurn : Type := {
  agent : string;
  round : nat;
  body : turn_body
}.

(** What [select_final_paper] returns: a copy of the chosen scored paper with
    ['selection_method'], ['debate_history'] and, after a debate,
    ['final_decision'] added. *)
Record Selection : Type := {
  selected_paper : ScoredPaper;
  selection_method : string;
  debate_history : list DebateTurn;
  final_decision : option json
}.

(** ** The language-model backends *)

(** A request is the list of values the code interpolates into its prompt
    template; the constant text of the templates is not reproduced. *)
Inductive request : Type :=
| ScoreRequest (groq : bool) (agent_name ptitle pcategory pabstract : string)
| GroqCaseRequest (own_title : string) (own_score : float) (own_analysis : json)
                  (competing_title : string) (competing_score : float)
| GeminiCaseRequest (opponent_argument opponent_title own_title : string)
                    (own_score : float) (own_analysis : json)
| DecisionRequest (title_a : string) (score_a : float)
                  (argument_a abstract_a : string)
                  (title_b : string) (score_b : float)
                  (argument_b abstract_b : string).

(** What comes back: the text of the response ([response.text], or
    [response.choices[0].message.content]), a response without text (the
    attribute is [None]), or an exception raised by the client. *)
Inductive reply : Type :=
| Text (s : string)
| NoText
| Fails (e : exn).

(** An entry of [AgentDebate.conversation_context]. *)
Record context_entry : Type := {
  ctx_role : string;
  ctx_content : string;
  ctx_round : nat
}.

(** The state the code threads: the requests sent so far, oldest first, and
    the conversation context of the debate object. *)
Record world : Type := {
  calls : list request;
  conversation_context : list context_entry
}.

Definition M (A : Type) : Type := world -> result A * world.

Definition ret {A} (a : A) : M A := fun w => (Ok a, w).

Definition raise {A} (e : exn) : M A := fun w => (Raise e, w).

Definition bind {A B} (m : M A) (k : A -> M B) : M B :=
  fun w =>
    match m w with
    | (Ok a, w') => k a w'
    | (Raise e, w') => (Raise e, w')
    end.

Definition lift {A} (r : result A) : M A := fun w => (r, w).

(** [try: body except Exception as e: handler] *)
Definition try_except {A} (body : M A) (handler : exn -> M A) : M A :=
  fun w =>
    match body w with
    | (Ok a, w') => (Ok a, w')
    | (Raise e, w') => handler e w'
    end.

Declare Scope py_scope.
Delimit Scope py_scope with py.
Notation "x <- m ;; k" := (bind m (fun x => k))
  (at level 61, m at next level, right associativity) : py_scope.
Notation "m ;;; k" := (bind m (fun _ => k))
  (at level 61, right associativity) : py_scope.
Local Open Scope py_scope.

(** [self.conversation_context = []] *)
Definition clear_context : M unit :=
  fun w => (Ok tt, {| calls := calls w; conversation_context := [] |}).

(** [AgentDebate._add_to_context] *)
Definition _add_to_context (role content : string) (round_num : nat) : M unit :=
  fun w =>
    (Ok tt,
     {| calls := calls w;
        conversation_context :=
          conversation_context w
            ++ [{| ctx_role := role; ctx_content := content;
                   ctx_round := round_num |}] |}).

(** The first fenced block of a response, or the response itself:
    the [if "```json" in content: ... elif "```" in content: ...] lines. *)
Definition extract_json (content : string) : result string :=
  if PyStr.contains "```json" content then
    rbind (item (PyStr.split "```json" content) 1) (fun after =>
    rbind (item (PyStr.split "```" after) 0) (fun inner =>
    Ok (PyStr.strip inner)))
  else if PyStr.contains "```" content then
    rbind (item (PyStr.split "```" content) 1) (fun after =>
    rbind (item (PyStr.split "```" after) 0) (fun inner =>
    Ok (PyStr.strip inner)))
  else Ok content.

(** ["```json" in content], where [content] may be [None]. *)
Definition fenced_body (content : option string) : result string :=
  match content with
  | Some s => extract_json s
  | None => Raise (TypeError "argument of type 'NoneType' is not iterable")
  end.

(** [content.strip()], where [content] may be [None]. *)
Definition stripped (content : option string) : result string :=
  match content with
  | Some s => Ok (PyStr.strip s)
  | None => Raise (AttributeError "'NoneType' object has no attribute 'strip'")
  end.

(** ** [config.py] *)

(** [SCORING_WEIGHTS]; the dict is iterated in this order. *)
Definition SCORING_WEIGHTS : list (string * float) :=
  [ ("problem_relevance", 0.25%float);
    ("dataset_quality", 0.25%float);
    ("model_novelty", 0.25%float);
    ("real_world_impact", 0.25%float) ].

(** ** Python numbers *)

(** [float(z)] for an [int]: the nearest binary64 number, ties to even;
    an [int] that rounds beyond the largest one does not convert. *)
Definition float_of_int (z : Z) : result float :=
  match binary_normalize prec emax z 0 false with
  | S754_infinity _ => Raise (OverflowError "int too large to convert to float")
  | f => Ok (SF2Prim f)
  end.

(** ** [helper/paper_scorer.py] *)

(** [x * weight] for a value [x] out of the parsed scores and a [float]
    weight: an [int] (a [bool] is one) is converted first. *)
Definition times (x : json) (weight : float) : result float :=
  match x with
  | JInt z => rbind (float_of_int z) (fun f => Ok (f * weight)%float)
  | JFloat f => Ok (f * weight)%float
  | JBool b => Ok ((if b then 1 else 0) * weight)%float
  | JStr _ | JArr _ =>
      Raise (TypeError "can't multiply sequence by non-int of type 'float'")
  | JNull | JObj _ =>
      Raise (TypeError ("unsupported operand type(s) for *: '"
                          ++ type_name x ++ "' and 'float'"))
  end.

(** [sum(scores[criterion] * weight for criterion, weight in weights.items())],
    with [acc] the running sum: the generator is consumed from left to right
    and the first failing term raises.  [sum] starts from the [int] 0 and
    adds the terms one after the other (as CPython does up to version 3.11;
    later versions also carry a correction for the rounding errors of the
    additions, which is zero whenever the additions are exact). *)
Fixpoint weighted_sum (acc : float) (weights : list (string * float))
         (scores : json) : result float :=
  match weights with
  | [] => Ok acc
  | (criterion, weight) :: rest =>
      rbind (subscript scores criterion) (fun x =>
      rbind (times x weight) (fun term =>
      weighted_sum (acc + term)%float rest scores))
  end.

Definition weighted_score (weights : list (string * float)) (scores : json)
  : result float :=
  weighted_sum 0%float weights scores.

(** The entry appended by the [except] branch of both scoring loops. *)
Definition default_scored (p : Paper) (e : exn) : ScoredPaper :=
  {| paper := p;
     scores :=
       JObj [ ("problem_relevance", JInt 5);
              ("dataset_quality", JInt 5);
              ("model_novelty", JInt 5);
              ("real_world_impact", JInt 5);
              ("reasoning", JStr ("Error during scoring: " ++ exn_str e));
              ("overall_impression", JStr "Unable to score") ];
     total_score := 5%float |}.

(** ** [list.sort]

    [list.sort(key=..., reverse=True)] as CPython 3.11 runs it on a list of
    fewer than 64 items: the list is turned round, sorted upwards and turned
    round again.  Sorting upwards finds the run at the head of the list
    ([count_run]), turns it round when it descends, and inserts the other
    items one by one at the place a binary search gives ([binarysort]).
    Only [<] on the keys is used.  (A longer list is cut into several runs
    that are merged; the outcome is the same list whenever [<] orders the
    keys, that is when no key is NaN.  The batches of this program hold at
    most ten papers.) *)

Section ListSort.

Context {A : Type}.

(** [key(x) < key(y)] *)
Variable lt : A -> A -> bool.

Fixpoint run_ascending (prev : A) (l : list A) : nat :=
  match l with
  | [] => 0
  | x :: l' => if lt x prev then 0 else S (run_ascending x l')
  end.

Fixpoint run_descending (prev : A) (l : list A) : nat :=
  match l with
  | [] => 0
  | x :: l' => if lt x prev then S (run_descending x l') else 0
  end.

(** [count_run]: the length of the run at the head of the list, and whether
    it is a descending one.  A run ascends as long as no item is below the
    one before it, and descends as long as every item is. *)
Definition count_run (l : list A) : nat * bool :=
  match l with
  | [] => (0, false)
  | [_] => (1, false)
  | x :: y :: l' =>
      if lt y x then (2 + run_descending y l', true)
      else (2 + run_ascending y l', false)
  end.

(** The binary search of [binarysort]: the place of [pivot] among the
    sorted items, between [l] and [r]; [fuel] bounds the number of steps. *)
Fixpoint bisect (fuel l r : nat) (pivot : A) (sorted : list A) : nat :=
  match fuel with
  | O => l
  | S fuel' =>
      if (l <? r)%nat then
        let p := l + (r - l) / 2 in
        match nth_error sorted p with
        | Some x =>
            if lt pivot x then bisect fuel' l p pivot sorted
            else bisect fuel' (S p) r pivot sorted
        | None => l
        end
      else l
  end.

Definition insert_at (pos : nat) (pivot : A) (sorted : list A) : list A :=
  firstn pos sorted ++ pivot :: skipn pos sorted.

(** [binarysort]: the items of [rest] are inserted one by one into the
    sorted items before them. *)
Fixpoint binarysort (sorted rest : list A) : list A :=
  match rest with
  | [] => sorted
  | pivot :: rest' =>
      let pos := bisect (length sorted) 0 (length sorted) pivot sorted in
      binarysort (insert_at pos pivot sorted) rest'
  end.

Definition sort_ascending (l : list A) : list A :=
  let '(n, descending) := count_run l in
  let run := firstn n l in
  binarysort (if descending then rev run else run) (skipn n l).

Definition list_sort_reverse (l : list A) : list A :=
  rev (sort_ascending (rev l)).

(** The orders the properties of a sorted list are stated with: no item is
    below an earlier one, no item is below a later one, every item is below
    the earlier ones. *)
Definition asc (a b : A) : Prop := lt b a = false.
Definition desc (a b : A) : Prop := lt a b = false.
Definition below (a b : A) : Prop := lt b a = true.

End ListSort.

(** [scored_papers.sort(key=lambda x: x['..._total_score'], reverse=True)] *)
Definition sort_desc (l : list ScoredPaper) : list ScoredPaper :=
  list_sort_reverse
    (fun x y => (total_score x <? total_score y)%float) l.

(** The world after one more request has been sent. *)
Definition sent (req : request) (w : world) : world :=
  {| calls := calls w ++ [req];
     conversation_context := conversation_context w |}.

Section Engine.

(** [json.loads]: the parsed value, or the exception it raises. *)
Variable json_loads : string -> result json.

(** [str(v)] for a value that is not a string (Python's [repr]). *)
Variable py_repr : json -> string.

(** The backends: the reply to a request, given how many requests were
    sent before it. *)
Variable backend : nat -> request -> reply.

(** [f"{v}"] *)
Definition py_str (v : json) : string :=
  match v with
  | JStr s => s
  | _ => py_repr v
  end.

(** One round-trip to a backend. *)
Definition call (req : request) : M (option string) :=
  fun w =>
    match backend (length (calls w)) req with
    | Text s => (Ok (Some s), sent req w)
    | NoText => (Ok None, sent req w)
    | Fails e => (Raise e, sent req w)
    end.

Definition scoring_request (groq : bool) (agent_name : string) (p : Paper)
  : request :=
  ScoreRequest groq agent_name (title p) (primary_category p) (abstract p).

(** The body of the [for] loop of [score_with_groq]. *)
Definition score_one_groq (p : Paper) : M ScoredPaper :=
  try_except
    (content <- call (scoring_request true "Agent A" p) ;;
     text <- lift (fenced_body content) ;;
     parsed <- lift (json_loads text) ;;
     weighted <- lift (weighted_score SCORING_WEIGHTS parsed) ;;
     ret {| paper := p; scores := parsed; total_score := weighted |})
    (fun e => ret (default_scored p e)).

Fixpoint score_loop_groq (papers : list Paper) (scored_papers : list ScoredPaper)
  : M (list ScoredPaper) :=
  match papers with
  | [] => ret scored_papers
  | p :: rest =>
      paper_with_score <- score_one_groq p ;;
      score_loop_groq rest (scored_papers ++ [paper_with_score])
  end.

Definition score_with_groq (papers : list Paper) : M (list ScoredPaper) :=
  scored_papers <- score_loop_groq papers [] ;;
  ret (sort_desc scored_papers).

(** The body of the [for] loop of [score_with_gemini]: no fence is
    stripped here, the text is only trimmed. *)
Definition score_one_gemini (p : Paper) : M ScoredPaper :=
  try_except
    (content <- call (scoring_request false "Agent B" p) ;;
     text <- lift (stripped content) ;;
     parsed <- lift (json_loads text) ;;
     weighted <- lift (weighted_score SCORING_WEIGHTS parsed) ;;
     ret {| paper := p; scores := parsed; total_score := weighted |})
    (fun e => ret (default_scored p e)).

Fixpoint score_loop_gemini (papers : list Paper) (scored_papers : list ScoredPaper)
  : M (list ScoredPaper) :=
  match papers with
  | [] => ret scored_papers
  | p :: rest =>
      paper_with_score <- score_one_gemini p ;;
      score_loop_gemini rest (scored_papers ++ [paper_with_score])
  end.

Definition score_with_gemini (papers : list Paper) : M (list ScoredPaper) :=
  scored_papers <- score_loop_gemini papers [] ;;
  ret (sort_desc scored_papers).

(** ** [helper/agent_debate.py] *)

(** [choice['..._scores']['reasoning']] *)
Definition reasoning_of (choice : ScoredPaper) : result json :=
  subscript (scores choice) "reasoning".

(** The [prompt] of [_groq_present_case]: the agent's own title, score and
    analysis, and the title and score of the competing choice. *)
Definition groq_case_prompt (groq_choice gemini_choice : ScoredPaper)
  : result request :=
  rbind (reasoning_of groq_choice) (fun analysis =>
  Ok (GroqCaseRequest
        (title (paper groq_choice)) (total_score groq_choice) analysis
        (title (paper gemini_choice)) (total_score gemini_choice))).

Definition _groq_present_case (groq_choice gemini_choice : ScoredPaper)
  : M string :=
  prompt <- lift (groq_case_prompt groq_choice gemini_choice) ;;
  try_except
    (content <- call prompt ;;
     lift (stripped content))
    (fun _ =>
       r <- lift (reasoning_of groq_choice) ;;
       ret ("I believe my paper is superior due to " ++ py_str r)%string).

(** The [prompt] of [_gemini_present_case]: the opponent's argument and
    title, and the agent's own title, score and analysis. *)
Definition gemini_case_prompt (gemini_choice groq_choice : ScoredPaper)
           (groq_argument : string) : result request :=
  rbind (reasoning_of gemini_choice) (fun analysis =>
  Ok (GeminiCaseRequest
        groq_argument (title (paper groq_choice))
        (title (paper gemini_choice)) (total_score gemini_choice) analysis)).

Definition _gemini_present_case (gemini_choice groq_choice : ScoredPaper)
           (groq_argument : string) : M string :=
  prompt <- lift (gemini_case_prompt gemini_choice groq_choice groq_argument) ;;
  try_except
    (content <- call prompt ;;
     lift (stripped content))
    (fun _ =>
       r <- lift (reasoning_of gemini_choice) ;;
       ret ("My paper is superior because " ++ py_str r)%string).

(** The dict returned by the [except] branch of [_make_final_decision]. *)
Definition fallback_decision (selected : string) : json :=
  JObj [ ("selected", JStr selected);
         ("reasoning", JStr "Selected based on higher score after debate error.");
         ("confidence", JStr "medium") ].

(** The [prompt] of [_make_final_decision]: both titles, scores and
    arguments, and the first 300 characters of both abstracts. *)
Definition decision_prompt (groq_choice gemini_choice : ScoredPaper)
           (groq_argument gemini_argument : string) : request :=
  DecisionRequest
    (title (paper groq_choice)) (total_score groq_choice) groq_argument
    (PyStr.take 300 (abstract (paper groq_choice)))
    (title (paper gemini_choice)) (total_score gemini_choice) gemini_argument
    (PyStr.take 300 (abstract (paper gemini_choice))).

Definition _make_final_decision (groq_choice gemini_choice : ScoredPaper)
           (groq_argument gemini_argument : string) : M json :=
  let prompt := decision_prompt groq_choice gemini_choice
                                groq_argument gemini_argument in
  try_except
    (content <- call prompt ;;
     text <- lift (fenced_body content) ;;
     lift (json_loads text))
    (fun _ =>
       if (total_score gemini_choice <=? total_score groq_choice)%float
       then ret (fallback_decision "groq")
       else ret (fallback_decision "gemini")).

(** The arguments of the [print] calls that show an agent's top choice:
    [top['..._scores']['reasoning'][:100]] is the one that can raise. *)
Definition print_top (top : ScoredPaper) : M unit :=
  r <- lift (reasoning_of top) ;;
  lift (slice_to 100 r) ;;;
  ret tt.

Definition select_final_paper (groq_papers gemini_papers : list ScoredPaper)
  : M Selection :=
  groq_top <- lift (item groq_papers 0) ;;
  gemini_top <- lift (item gemini_papers 0) ;;
  print_top groq_top ;;;
  print_top gemini_top ;;;
  if String.eqb (arxiv_id (paper groq_top)) (arxiv_id (paper gemini_top))
  then
    ret {| selected_paper := groq_top;
           selection_method := "unanimous";
           debate_history := [];
           final_decision := None |}
  else
    clear_context ;;;
    groq_argument <- _groq_present_case groq_top gemini_top ;;
    _add_to_context "Agent A (Groq)" groq_argument 1 ;;;
    gemini_argument <- _gemini_present_case gemini_top groq_top groq_argument ;;
    _add_to_context "Agent B (Gemini)" gemini_argument 2 ;;;
    decided <- _make_final_decision groq_top gemini_top
                                    groq_argument gemini_argument ;;
    chosen <- lift (subscript decided "selected") ;;
    reason <- lift (subscript decided "reasoning") ;;
    lift (slice_to 200 reason) ;;;
    ret {| selected_paper :=
             if eq_str chosen "groq" then groq_top else gemini_top;
           selection_method := "debate";
           debate_history :=
             [ {| agent := "Groq"; round := 1; body := argument groq_argument |};
               {| agent := "Gemini"; round := 2;
                  body := argument gemini_argument |};
               {| agent := "Consensus"; round := 3; body := decision decided |} ];
           final_decision := Some decided |}.

End Engine.

(** ** A reference [json.loads] for the examples

    The properties below hold for every [json_loads]; the concrete runs need
    one.  [Json.loads] reads the fragment of JSON made of [null], [true],
    [false], integers, the constants [NaN], [Infinity] and [-Infinity] that
    [json.loads] accepts, strings without escape sequences, arrays and
    objects, with the usual white space; a text outside the fragment is
    rejected.  The messages of the decode errors carry no position. *)

Module Json.

Definition is_ws (c : ascii) : bool :=
  let n := nat_of_ascii c in
  (n =? 32)%nat || (n =? 9)%nat || (n =? 10)%nat || (n =? 13)%nat.

Fixpoint skip_ws (s : string) : string :=
  match s with
  | String c s' => if is_ws c then skip_ws s' else s
  | EmptyString => EmptyString
  end.

Definition digit (c : ascii) : option Z :=
  let n := nat_of_ascii c in
  if ((48 <=? n)%nat && (n <=? 57)%nat)%bool
  then Some (Z.of_nat (n - 48)) else None.

(** The digits at the head of [s], folded into [acc]. *)
Fixpoint digits (acc : Z) (s : string) : Z * string :=
  match s with
  | String c s' =>
      match digit c with
      | Some d => digits (10 * acc + d)%Z s'
      | None => (acc, s)
      end
  | EmptyString => (acc, s)
  end.

(** An integer may not go on as a fraction or an exponent here. *)
Definition ends_number (s : string) : bool :=
  match s with
  | String c _ =>
      negb (Ascii.eqb c "." || Ascii.eqb c "e" || Ascii.eqb c "E")
  | EmptyString => true
  end.

Definition natural (s : string) : option (Z * string) :=
  match s with
  | String c s' =>
      match digit c with
      | Some 0%Z => if ends_number s' then
                      match s' with
                      | String c' _ =>
                          match digit c' with
                          | Some _ => None
                          | None => Some (0%Z, s')
                          end
                      | EmptyString => Some (0%Z, s')
                      end
                    else None
      | Some d => let '(n, rest) := digits d s' in
                  if ends_number rest then Some (n, rest) else None
      | None => None
      end
  | EmptyString => None
  end.

Definition quote : ascii := ascii_of_nat 34.
Definition backslash : ascii := ascii_of_nat 92.

(** A text with every apostrophe turned into a double quote, to write
    JSON texts as literals. *)
Fixpoint quoted (s : string) : string :=
  match s with
  | String c s' => String (if Ascii.eqb c "'" then quote else c) (quoted s')
  | EmptyString => EmptyString
  end.

(** The characters up to the closing quote; [acc] is reversed. *)
Fixpoint chars (acc : list ascii) (s : string) : option (string * string) :=
  match s with
  | String c s' =>
      if Ascii.eqb c quote then Some (string_of_list_ascii (rev acc), s')
      else if Ascii.eqb c backslash then None
      else if (nat_of_ascii c <? 32)%nat then None
      else chars (c :: acc) s'
  | EmptyString => None
  end.

(** [d[k] = v] on a dict: a new key goes last, a known key keeps its place. *)
Fixpoint dict_set (k : string) (v : json) (m : list (string * json))
  : list (string * json) :=
  match m with
  | [] => [(k, v)]
  | (k', v') :: m' =>
      if String.eqb k k' then (k, v) :: m' else (k', v') :: dict_set k v m'
  end.

Fixpoint value (fuel : nat) (s : string) : option (json * string) :=
  match fuel with
  | O => None
  | S fuel' =>
      match skip_ws s with
      | String c s' =>
          if Ascii.eqb c "n" then
            if prefix "ull" s' then Some (JNull, substring 3 (String.length s' - 3) s')
            else None
          else if Ascii.eqb c "t" then
            if prefix "rue" s' then Some (JBool true, substring 3 (String.length s' - 3) s')
            else None
          else if Ascii.eqb c "f" then
            if prefix "alse" s' then Some (JBool false, substring 4 (String.length s' - 4) s')
            else None
          else if Ascii.eqb c quote then
            match chars [] s' with
            | Some (str, rest) => Some (JStr str, rest)
            | None => None
            end
          else if Ascii.eqb c "N" then
            if prefix "aN" s'
            then Some (JFloat nan, substring 2 (String.length s' - 2) s')
            else None
          else if Ascii.eqb c "I" then
            if prefix "nfinity" s'
            then Some (JFloat infinity, substring 7 (String.length s' - 7) s')
            else None
          else if Ascii.eqb c "-" then
            if prefix "Infinity" s'
            then Some (JFloat neg_infinity,
                       substring 8 (String.length s' - 8) s')
            else
              match natural s' with
              | Some (n, rest) => Some (JInt (- n), rest)
              | None => None
              end
          else if Ascii.eqb c "[" then
            match skip_ws s' with
            | String c' rest =>
                if Ascii.eqb c' "]" then Some (JArr [], rest)
                else elements fuel' [] s'
            | EmptyString => None
            end
          else if Ascii.eqb c "{" then
            match skip_ws s' with
            | String c' rest =>
                if Ascii.eqb c' "}" then Some (JObj [], rest)
                else members fuel' [] s'
            | EmptyString => None
            end
          else
            match natural (String c s') with
            | Some (n, rest) => Some (JInt n, rest)
            | None => None
            end
      | EmptyString => None
      end
  end

with elements (fuel : nat) (acc : list json) (s : string)
  : option (json * string) :=
  match fuel with
  | O => None
  | S fuel' =>
      match value fuel' s with
      | Some (v, rest) =>
          match skip_ws rest with
          | String c rest' =>
              if Ascii.eqb c "," then elements fuel' (acc ++ [v]) rest'
              else if Ascii.eqb c "]" then Some (JArr (acc ++ [v]), rest')
              else None
          | EmptyString => None
          end
      | None => None
      end
  end

with members (fuel : nat) (acc : list (string * json)) (s : string)
  : option (json * string) :=
  match fuel with
  | O => None
  | S fuel' =>
      match skip_ws s with
      | String q s1 =>
          if Ascii.eqb q quote then
            match chars [] s1 with
            | Some (key, s2) =>
                match skip_ws s2 with
                | String colon s3 =>
                    if Ascii.eqb colon ":" then
                      match value fuel' s3 with
                      | Some (v, rest) =>
                          match skip_ws rest with
                          | String c rest' =>
                              if Ascii.eqb c "," then
                                members fuel' (dict_set key v acc) rest'
                              else if Ascii.eqb c "}" then
                                Some (JObj (dict_set key v acc), rest')
                              else None
                          | EmptyString => None
                          end
                      | None => None
                      end
                    else None
                | EmptyString => None
                end
            | None => None
            end
          else None
      | EmptyString => None
      end
  end.

Definition loads (s : string) : result json :=
  match value (S (String.length s)) s with
  | Some (v, rest) =>
      match skip_ws rest with
      | EmptyString => Ok v
      | String _ _ => Raise (JSONDecodeError "Extra data")
      end
  | None => Raise (JSONDecodeError "Expecting value")
  end.

End Json.

(** ** What a reply leads to

    Pure readings of the [try] blocks, used to state the properties; each is
    proved below to be what the monadic code computes. *)

(** A debate round whose call yields no usable text: the client raised, or
    the response has no text and [.strip()] raises. *)
Inductive call_fails : reply -> Prop :=
| call_raised (e : exn) : call_fails (Fails e)
| call_without_text : call_fails NoText.

(** The argument a debate round ends with. *)
Definition round_argument (r : reply) (fallback : string) : string :=
  match r with
  | Text s => PyStr.strip s
  | NoText | Fails _ => fallback
  end.

(** The world after a whole debate: three requests sent, and the context
    holding the two arguments. *)
Definition debated (p1 p2 p3 : request) (a1 a2 : string) (w : world) : world :=
  {| calls := calls w ++ [p1; p2; p3];
     conversation_context :=
       [ {| ctx_role := "Agent A (Groq)"; ctx_content := a1; ctx_round := 1 |};
         {| ctx_role := "Agent B (Gemini)"; ctx_content := a2; ctx_round := 2 |} ] |}.

(** The three-field shape a Decision has: a dict with exactly the keys
    ['selected'], ['reasoning'] and ['confidence'], the first one holding
    ['groq'] or ['gemini'] and the other two holding text. *)
Definition is_text (v : json) : bool :=
  match v with
  | JStr _ => true
  | _ => false
  end.

Definition is_Decision (d : json) : bool :=
  match d with
  | JObj fields =>
      (length fields =? 3)%nat
      && match dict_get "selected" fields with
         | Some v => eq_str v "groq" || eq_str v "gemini"
         | None => false
         end
      && match dict_get "reasoning" fields with
         | Some v => is_text v
         | None => false
         end
      && match dict_get "confidence" fields with
         | Some v => is_text v
         | None => false
         end
  | _ => false
  end.

(** The four criteria of [SCORING_WEIGHTS]. *)
Definition criteria : list string := map fst SCORING_WEIGHTS.

(** A criterion score as the number Python multiplies by a weight: an
    [int] that converts to a [float], a [float], or a [bool], which Python
    counts as the [int] 1 or 0.  Text, [null], a list and a dict are no
    numbers, and neither is an [int] beyond the range of the floats. *)
Definition criterion_number (x : json) : option float :=
  match x with
  | JInt z =>
      match float_of_int z with
      | Ok f => Some f
      | Raise _ => None
      end
  | JFloat f => Some f
  | JBool b => Some (if b then 1 else 0)%float
  | _ => None
  end.

(** A payload that cannot be turned into scores: it is not a dict, or a
    criterion is missing from it, or a criterion holds no number. *)
Definition unusable (parsed : json) : Prop :=
  match parsed with
  | JObj fields =>
      exists c, In c criteria
                /\ match dict_get c fields with
                   | Some x => criterion_number x = None
                   | None => True
                   end
  | _ => True
  end.

(** A payload that holds the numbers [a], [b], [c] and [d] for the four
    criteria. *)
Definition holds_scores (parsed : json) (a b c d : float) : Prop :=
  exists fields xa xb xc xd,
    parsed = JObj fields
    /\ dict_get "problem_relevance" fields = Some xa
    /\ dict_get "dataset_quality" fields = Some xb
    /\ dict_get "model_novelty" fields = Some xc
    /\ dict_get "real_world_impact" fields = Some xd
    /\ criterion_number xa = Some a
    /\ criterion_number xb = Some b
    /\ criterion_number xc = Some c
    /\ criterion_number xd = Some d.

(** The weighted total of four scores under the configured weights: each
    score times 0.25, added from left to right. *)
Definition weighted_total (a b c d : float) : float :=
  (0 + a * 0.25 + b * 0.25 + c * 0.25 + d * 0.25)%float.

(** The exceptions an unusable payload makes the scoring raise. *)
Definition raised_by_payload (e : exn) : Prop :=
  match e with
  | KeyError c => In c criteria
  | TypeError _ | OverflowError _ => True
  | _ => False
  end.

(** A float that is not NaN: it equals itself. *)
Definition not_nan (x : float) : Prop := (x =? x)%float = true.

Section Outcomes.

Variable json_loads : string -> result json.

(** The adjudication call fails: the client raises, the response has no
    text, or the (unfenced) text is not JSON. *)
Inductive adjudication_fails : reply -> Prop :=
| adjudication_raised (e : exn) : adjudication_fails (Fails e)
| adjudication_without_text : adjudication_fails NoText
| adjudication_unparseable (s text : string) (e : exn) :
    extract_json s = Ok text ->
    json_loads text = Raise e ->
    adjudication_fails (Text s).

(** The content of a response, as [call] hands it over. *)
Definition reply_content (r : reply) : result (option string) :=
  match r with
  | Text s => Ok (Some s)
  | NoText => Ok None
  | Fails e => Raise e
  end.

(** The [try] block of a scoring loop, after the call: [body_of] is what
    the loop does to the content before [json.loads] ([fenced_body] for
    Groq, [stripped] for Gemini). *)
Definition evaluation (body_of : option string -> result string) (r : reply)
  : result (json * float) :=
  rbind (reply_content r) (fun content =>
  rbind (body_of content) (fun text =>
  rbind (json_loads text) (fun parsed =>
  rbind (weighted_score SCORING_WEIGHTS parsed) (fun weighted =>
  Ok (parsed, weighted))))).

(** The scored paper a reply leads to. *)
Definition entry (body_of : option string -> result string) (p : Paper)
           (r : reply) : ScoredPaper :=
  match evaluation body_of r with
  | Ok (parsed, weighted) =>
      {| paper := p; scores := parsed; total_score := weighted |}
  | Raise e => default_scored p e
  end.

(** The evaluator call fails for a paper, or its payload cannot be parsed:
    the client raises, the response has no usable body, or the body is not
    JSON.  [e] is the exception met. *)
Inductive scoring_fails (body_of : option string -> result string)
  : reply -> exn -> Prop :=
| scoring_raised (e : exn) : scoring_fails body_of (Fails e) e
| scoring_without_body (r : reply) (content : option string) (e : exn) :
    reply_content r = Ok content ->
    body_of content = Raise e ->
    scoring_fails body_of r e
| scoring_unparseable (r : reply) (content : option string) (text : string)
                      (e : exn) :
    reply_content r = Ok content ->
    body_of content = Ok text ->
    json_loads text = Raise e ->
    scoring_fails body_of r e.

(** The payload of a reply: the value [json.loads] makes of its body. *)
Definition payload (body_of : option string -> result string) (r : reply)
           (parsed : json) : Prop :=
  exists content text,
    reply_content r = Ok content
    /\ body_of content = Ok text
    /\ json_loads text = Ok parsed.

Variable backend : nat -> request -> reply.

(** The per-paper results of a scoring loop that starts when [k] requests
    have been sent: paper number [i] gets the reply to request [k + i]. *)
Fixpoint entries (body_of : option string -> result string)
         (groq : bool) (agent_name : string) (k : nat) (papers : list Paper)
  : list ScoredPaper :=
  match papers with
  | [] => []
  | p :: rest =>
      entry body_of p (backend k (scoring_request groq agent_name p))
        :: entries body_of groq agent_name (S k) rest
  end.

End Outcomes.

(** A paper's scores carry reasoning text, as a ScoreSet does. *)
Definition reasoning_text (sp : ScoredPaper) (r : string) : Prop :=
  reasoning_of sp = Ok (JStr r).

(** Descending order of the total scores: [a] comes before [b] when
    [a]'s total [>=] [b]'s. *)
Definition score_ge (a b : ScoredPaper) : Prop :=
  (total_score b <=? total_score a)%float = true.

(** The papers of a list whose total score [==] [k], in the order of the
    list. *)
Definition with_score (k : float) (l : list ScoredPaper) : list ScoredPaper :=
  filter (fun sp => (total_score sp =? k)%float) l.

(** The decision the [except] branch of [_make_final_decision] returns. *)
Definition score_fallback (groq_choice gemini_choice : ScoredPaper) : json :=
  if (total_score gemini_choice <=? total_score groq_choice)%float
  then fallback_decision "groq"
  else fallback_decision "gemini".

(** What [_make_final_decision] returns on a reply. *)
Definition verdict (json_loads : string -> result json) (r : reply)
           (groq_choice gemini_choice : ScoredPaper) : json :=
  match rbind (reply_content r) (fun content =>
        rbind (fenced_body content) json_loads) with
  | Ok d => d
  | Raise _ => score_fallback groq_choice gemini_choice
  end.

(** The three turns of a debate. *)
Definition transcript (groq_argument gemini_argument : string) (decided : json)
  : list DebateTurn :=
  [ {| agent := "Groq"; round := 1; body := argument groq_argument |};
    {| agent := "Gemini"; round := 2; body := argument gemini_argument |};
    {| agent := "Consensus"; round := 3; body := decision decided |} ].

(** The end of [select_final_paper], from the decision on. *)
Definition conclude (groq_top gemini_top : ScoredPaper)
           (groq_argument gemini_argument : string) (decided : json)
  : result Selection :=
  rbind (subscript decided "selected") (fun chosen =>
  rbind (subscript decided "reasoning") (fun reason =>
  rbind (slice_to 200 reason) (fun _ =>
  Ok {| selected_paper := if eq_str chosen "groq" then groq_top else gemini_top;
        selection_method := "debate";
        debate_history := transcript groq_argument gemini_argument decided;
        final_decision := Some decided |}))).

(** The requests and arguments of a debate between [g] (Groq's top paper,
    with reasoning [rg]) and [m] (Gemini's, with reasoning [rm]) that starts
    when [n] requests have been sent. *)
Section Debate.

Variable backend : nat -> request -> reply.
Variables (g m : ScoredPaper) (rg rm : string) (n : nat).

Definition groq_fallback_argument : string :=
  "I believe my paper is superior due to " ++ rg.

Definition gemini_fallback_argument : string :=
  "My paper is superior because " ++ rm.

Definition first_request : request :=
  GroqCaseRequest (title (paper g)) (total_score g) (JStr rg)
                  (title (paper m)) (total_score m).

Definition first_argument : string :=
  round_argument (backend n first_request) groq_fallback_argument.

Definition second_request : request :=
  GeminiCaseRequest first_argument (title (paper g)) (title (paper m))
                    (total_score m) (JStr rm).

Definition second_argument : string :=
  round_argument (backend (S n) second_request) gemini_fallback_argument.

Definition third_request : request :=
  decision_prompt g m first_argument second_argument.

Definition third_reply : reply := backend (S (S n)) third_request.

End Debate.

(** The world after a list of requests has been sent, one after the other. *)
Definition sent_all (reqs : list request) (w : world) : world :=
  {| calls := calls w ++ reqs;
     conversation_context := conversation_context w |}.

(** The float that is nearest to the mean of four [int] scores; for scores
    between 1 and 10 it is the mean itself. *)
Definition mean_of (a b c d : Z) : float :=
  SF2Prim (binary_normalize prec emax (a + b + c + d) (-2) false).

(** The keys the comparison of two floats that are not NaN goes by: the
    class of the number, then its exponent and its mantissa. *)
Definition float_key (x : spec_float) : Z * Z * Z :=
  match x with
  | S754_zero _ | S754_nan => (0, 0, 0)%Z
  | S754_infinity s => ((if s then -2 else 2), 0, 0)%Z
  | S754_finite s m e => if s then (-1, - e, Zneg m)%Z else (1, e, Zpos m)%Z
  end.

Definition lex (a b : Z * Z * Z) : comparison :=
  let '(a1, a2, a3) := a in
  let '(b1, b2, b3) := b in
  match Z.compare a1 b1 with
  | Eq => match Z.compare a2 b2 with
          | Eq => Z.compare a3 b3
          | c => c
          end
  | c => c
  end.

(** ** Sample data for the concrete runs *)

Definition scripted (replies : list reply) : nat -> request -> reply :=
  fun k _ => nth k replies (Fails (BackendError "connection reset")).

Definition no_repr : json -> string := fun _ => "".

Definition paper_x : Paper :=
  {| title := "X"; abstract := "We study X."; authors := ["A. Author"];
     pdf_url := "https://arxiv.org/pdf/2501.00001v1";
     arxiv_id := "2501.00001v1"; published := "2025-01-02";
     category := "cs.LG"; primary_category := "cs.LG" |}.

Definition paper_y : Paper :=
  {| title := "Y"; abstract := "We study Y."; authors := ["B. Author"];
     pdf_url := "https://arxiv.org/pdf/2501.00002v1";
     arxiv_id := "2501.00002v1"; published := "2025-01-03";
     category := "cs.CV"; primary_category := "cs.CV" |}.

Definition score_set (a b c d : Z) (why : string) : json :=
  JObj [ ("problem_relevance", JInt a); ("dataset_quality", JInt b);
         ("model_novelty", JInt c); ("real_world_impact", JInt d);
         ("reasoning", JStr why); ("overall_impression", JStr "Promising.") ].

(** Candidate A, Groq's top paper: title X, total 8.5. *)
Definition scored_x : ScoredPaper :=
  {| paper := paper_x; scores := score_set 9 8 8 9 "strong data";
     total_score := 8.5%float |}.

(** Candidate B, Gemini's top paper: title Y, total 7.25. *)
Definition scored_y : ScoredPaper :=
  {| paper := paper_y; scores := score_set 7 7 7 8 "novel model";
     total_score := 7.25%float |}.

(** The same paper as candidate A, as the other scorer rated it. *)
Definition scored_x_again : ScoredPaper :=
  {| paper := paper_x; scores := score_set 8 8 8 8 "clear gain";
     total_score := 8%float |}.

(** A candidate with the total of candidate B. *)
Definition scored_x_tied : ScoredPaper :=
  {| paper := paper_x; scores := score_set 7 7 7 8 "strong data";
     total_score := 7.25%float |}.

Definition argument_x : string := "X has the stronger data.".
Definition argument_y : string := "Y has the newer model.".

(** Both agents argue, then the arbiter's client raises. *)
Definition arbiter_down : nat -> request -> reply :=
  scripted [ Text argument_x; Text argument_y;
             Fails (BackendError "503 Service Unavailable") ].

(** Every call raises. *)
Definition all_down : nat -> request -> reply := scripted [].

(** Both debate rounds fail, then the arbiter answers in the asked format. *)
Definition agents_down : nat -> request -> reply :=
  scripted [ Fails (BackendError "429 Too Many Requests"); NoText;
             Text (Json.quoted
                     "{'selected': 'gemini', 'reasoning': 'Y is newer.', 'confidence': 'low'}") ].

(** The arbiter answers with a label that is neither agent's. *)
Definition arbiter_misspells : nat -> request -> reply :=
  scripted [ Text argument_x; Text argument_y;
             Text (Json.quoted
                     "{'selected': 'grok', 'reasoning': 'X is easier to build.', 'confidence': 'high'}") ].

(** The arbiter answers with valid JSON that names no ['selected'] entry. *)
Definition wrong_shape_text : string := Json.quoted "{'winner': 'groq'}".

Definition arbiter_wrong_shape : nat -> request -> reply :=
  scripted [ Text wrong_shape_text ].

(** The arbiter answers in the asked format but for the name of one key,
    inside a fenced block. *)
Definition renamed_key_text : string :=
  Json.quoted
    "```json {'choice': 'groq', 'reasoning': 'X is easier to build.', 'confidence': 'high'} ```".

Definition arbiter_renames_key : nat -> request -> reply :=
  scripted [ Text argument_x; Text argument_y; Text renamed_key_text ].

Definition fresh : world := {| calls := []; conversation_context := [] |}.

(** ** The conversation context of [AgentDebate] *)

(** [str(n)] for a natural number. *)
Definition str_of_nat (n : nat) : string :=
  NilZero.string_of_uint (Nat.to_uint n).

(** The loop of [_get_context_summary]: one block per entry.  The source
    spells its line breaks as a backslash followed by [n]. *)
Fixpoint context_blocks (summary : string) (context : list context_entry)
  : string :=
  match context with
  | [] => summary
  | msg :: rest =>
      context_blocks
        (summary ++ "Round " ++ str_of_nat (ctx_round msg) ++ " - "
           ++ ctx_role msg ++ ":\n" ++ ctx_content msg ++ "\n\n")
        rest
  end.

(** [AgentDebate._get_context_summary] *)
Definition _get_context_summary : M string :=
  fun w =>
    match conversation_context w with
    | [] => (Ok EmptyString, w)
    | _ :: _ =>
        (Ok (context_blocks "\n\n<conversation_history>\n"
               (conversation_context w)
               ++ "</conversation_history>")%string,
         w)
    end.

(** ** The callers: [helper/arxiv_fetcher.py] and [main.py] *)

(** [ArxivFetcher.split_papers]: [papers[:mid]] for Groq and [papers[mid:]]
    for Gemini, with [mid = len(papers) // 2]. *)
Definition split_papers (papers : list Paper) : list Paper * list Paper :=
  let mid := length papers / 2 in
  (firstn mid papers, skipn mid papers).

(** [ProtoML.run] from the fetched papers to the selected paper (its steps 2
    to 4): no paper ends the run at once; otherwise the batch is split, each
    half is scored, the two top entries are shown ([groq_scored[0]] and
    [gemini_scored[0]] are read by the [print] calls) and the debate picks
    the paper.  An exception raised here is the one the handler of [run]
    reports before it exits. *)
Definition run_to_selection (json_loads : string -> result json)
           (py_repr : json -> string) (backend : nat -> request -> reply)
           (papers : list Paper) : M (option Selection) :=
  match papers with
  | [] => ret None
  | _ :: _ =>
      let '(groq_papers, gemini_papers) := split_papers papers in
      groq_scored <- score_with_groq json_loads backend groq_papers ;;
      gemini_scored <- score_with_gemini json_loads backend gemini_papers ;;
      lift (item groq_scored 0) ;;;
      lift (item gemini_scored 0) ;;;
      selected <- select_final_paper json_loads py_repr backend
                                     groq_scored gemini_scored ;;
      ret (Some selected)
  end.

(** [ArxivFetcher]: what the arXiv client hands over for one result. *)
Record SearchResult : Type := {
  r_title : string;
  r_summary : string;
  r_authors : list string;
  r_pdf_url : string;
  r_entry_id : string;
  r_published : Z;
  r_primary_category : string
}.

(** [search.results()] is a generator: it yields results one by one and may
    raise on the way (the client fetches pages lazily). *)
Inductive results : Type :=
| no_more
| yield (r : SearchResult) (rest : results)
| broken (e : exn).

(** [config.py]: the categories, and the limits of the fetch. *)
Definition ARXIV_CATEGORIES : list string := ["cs.CV"; "cs.CL"; "cs.LG"; "q-bio.QM"].
Definition MAX_PAPERS_PER_CATEGORY : nat := 3.
Definition TOTAL_PAPERS_TO_FETCH : nat := 10.

(** [ArxivFetcher.days_limit], and a day; instants are counted in seconds. *)
Definition days_limit : Z := 7.
Definition day : Z := 86400.

(** [s.replace(old, new)] for a one-character [old] and [new]. *)
Fixpoint replace_char (old new : ascii) (s : string) : string :=
  match s with
  | EmptyString => EmptyString
  | String c s' =>
      String (if Ascii.eqb c old then new else c) (replace_char old new s')
  end.

Definition newline : ascii := ascii_of_nat 10.

Section Fetcher.

(** [arxiv.Search(query="cat:" + category, max_results=..., sort_by=
    SubmittedDate, sort_order=Descending).results()], by category and
    [max_results]. *)
Variable search : string -> nat -> results.

(** [published.strftime("%Y-%m-%d")] *)
Variable strftime_ymd : Z -> string.

(** The [paper] dict of [fetch_papers]. *)
Definition to_paper (category : string) (r : SearchResult) : Paper :=
  {| title := r_title r;
     abstract := replace_char newline " " (r_summary r);
     authors := r_authors r;
     pdf_url := r_pdf_url r;
     arxiv_id := last (PyStr.split "/" (r_entry_id r)) EmptyString;
     published := strftime_ymd (r_published r);
     category := category;
     primary_category := r_primary_category r |}.

(** The inner loop of [fetch_papers], over the results of one category: it
    stops at the first result older than [cutoff_date] and when
    [total_papers] papers are there. *)
Fixpoint fetch_category (cutoff_date : Z) (total_papers : nat)
         (category : string) (rs : results) (all_papers : list Paper)
  : result (list Paper) :=
  match rs with
  | no_more => Ok all_papers
  | broken e => Raise e
  | yield r rest =>
      if (r_published r <? cutoff_date)%Z then Ok all_papers
      else
        let all_papers' := all_papers ++ [to_paper category r] in
        if (total_papers <=? length all_papers')%nat then Ok all_papers'
        else fetch_category cutoff_date total_papers category rest all_papers'
  end.

(** The outer loop of [fetch_papers], over the categories. *)
Fixpoint fetch_categories (cutoff_date : Z) (max_per_category total_papers : nat)
         (categories : list string) (all_papers : list Paper)
  : result (list Paper) :=
  match categories with
  | [] => Ok all_papers
  | category :: others =>
      rbind (fetch_category cutoff_date total_papers category
               (search category max_per_category) all_papers)
        (fun all_papers' =>
           if (total_papers <=? length all_papers')%nat then Ok all_papers'
           else fetch_categories cutoff_date max_per_category total_papers
                  others all_papers')
  end.

(** [ArxivFetcher.fetch_papers], at the instant [now]. *)
Definition fetch_papers (now : Z) : result (list Paper) :=
  let cutoff_date := (now - days_limit * day)%Z in
  rbind (fetch_categories cutoff_date MAX_PAPERS_PER_CATEGORY
           TOTAL_PAPERS_TO_FETCH ARXIV_CATEGORIES [])
    (fun all_papers => Ok (firstn TOTAL_PAPERS_TO_FETCH all_papers)).

End Fetcher.

(** A generator that yields the results of a list and ends. *)
Fixpoint yield_all (l : list SearchResult) : results :=
  match l with
  | [] => no_more
  | r :: rest => yield r (yield_all rest)
  end.

(** The results at the head of a list that are not older than the cutoff. *)
Fixpoint recent_head (cutoff_date : Z) (l : list SearchResult)
  : list SearchResult :=
  match l with
  | [] => []
  | r :: rest =>
      if (r_published r <? cutoff_date)%Z then []
      else r :: recent_head cutoff_date rest
  end.

(** ** [helper/report_generator.py] and [helper/discord_notifier.py] *)

(** A chunk of the text of a paper, as [PDFProcessor] builds it. *)
Record Chunk : Type := {
  chunk_text : string;
  chunk_page : nat;
  chunk_id : nat
}.

(** [sep.join(items)] *)
Fixpoint join (sep : string) (items : list string) : string :=
  match items with
  | [] => EmptyString
  | [x] => x
  | x :: rest => x ++ sep ++ join sep rest
  end.

(** [range(start, stop, step)] for a positive [step]; [fuel] bounds the
    number of values. *)
Fixpoint range_from (fuel start stop step : nat) : list nat :=
  match fuel with
  | O => []
  | S fuel' =>
      if (start <? stop)%nat
      then start :: range_from fuel' (start + step) stop step
      else []
  end.

Definition range (start stop step : nat) : list nat :=
  range_from (stop - start) start stop step.

(** [[chunks[i]['text'] for i in indices]], raising as [chunks[i]] does. *)
Fixpoint texts_at (chunks : list Chunk) (indices : list nat)
  : result (list string) :=
  match indices with
  | [] => Ok []
  | i :: rest =>
      rbind (item chunks i) (fun c =>
      rbind (texts_at chunks rest) (fun more =>
      Ok (chunk_text c :: more)))
  end.

(** The sections [generate_key_findings] samples: every [step]-th chunk,
    with [step = max(1, len(chunks) // 10)]. *)
Definition important_sections (chunks : list Chunk) : result (list string) :=
  if (0 <? length chunks)%nat then
    let step := Nat.max 1 (length chunks / 10) in
    texts_at chunks (range 0 (length chunks) step)
  else Ok [].

(** The values interpolated into the prompts of the report generator. *)
Inductive report_request : Type :=
| KeyFindingsRequest (ptitle pauthors pabstract sections : string)
| ReportRequest (ptitle pauthors ppublished pcategory parxiv_id pabstract
                 key_findings : string).

Definition double_newline : string :=
  String newline (String newline EmptyString).

(** [ReportGenerator.generate_key_findings]; [ask] is Groq's client. *)
Definition generate_key_findings (ask : report_request -> reply)
           (p : Paper) (chunks : list Chunk) : result string :=
  rbind (important_sections chunks) (fun sections =>
  let combined_text := join double_newline (firstn 10 sections) in
  let prompt := KeyFindingsRequest (title p) (join ", " (firstn 5 (authors p)))
                                   (abstract p) (PyStr.take 8000 combined_text) in
  match rbind (reply_content (ask prompt)) stripped with
  | Ok key_findings => Ok key_findings
  | Raise _ => Ok ("Based on abstract: " ++ abstract p)%string
  end).

(** [report[key] = value] on what [json.loads] returned. *)
Definition set_item (report : json) (key : string) (value : json) : result json :=
  match report with
  | JObj fields => Ok (JObj (Json.dict_set key value fields))
  | JArr _ => Raise (TypeError "list indices must be integers or slices, not str")
  | _ => Raise (TypeError ("'" ++ type_name report
                             ++ "' object does not support item assignment"))
  end.

(** The dict returned by the [except] branch of
    [generate_structured_report]. *)
Definition fallback_report (p : Paper) (e : exn) : json :=
  JObj [ ("Problem", JStr "Error generating detailed report");
         ("Dataset", JStr (PyStr.take 200 (abstract p)));
         ("Model", JStr "See paper for details");
         ("WhyItMatters", JStr "Requires manual review");
         ("MiniImplementationIdea",
          JStr "Review paper and determine suitable implementation");
         ("KeyTechniques", JArr [JStr "See paper"]);
         ("Results", JStr "See paper");
         ("Limitations", JStr "Report generation error");
         ("AdditionalNotes", JStr ("Error: " ++ exn_str e));
         ("paper_title", JStr (title p));
         ("paper_authors", JArr (map JStr (authors p)));
         ("arxiv_id", JStr (arxiv_id p));
         ("pdf_url", JStr (pdf_url p));
         ("published", JStr (published p));
         ("category", JStr (primary_category p)) ].

(** [ReportGenerator.generate_structured_report] on the selected paper;
    [ask] is Gemini's client.  The selection always has the key
    ['selection_method'], and the key ['final_decision'] after a debate. *)
Definition generate_structured_report (json_loads : string -> result json)
           (ask : report_request -> reply) (sel : Selection)
           (key_findings : string) : json :=
  let p := paper (selected_paper sel) in
  let prompt := ReportRequest (title p) (join ", " (authors p)) (published p)
                              (primary_category p) (arxiv_id p) (abstract p)
                              key_findings in
  match
    rbind (reply_content (ask prompt)) (fun content =>
    rbind (fenced_body content) (fun text =>
    rbind (json_loads text) (fun report =>
    rbind (set_item report "paper_title" (JStr (title p))) (fun report =>
    rbind (set_item report "paper_authors" (JArr (map JStr (authors p))))
      (fun report =>
    rbind (set_item report "arxiv_id" (JStr (arxiv_id p))) (fun report =>
    rbind (set_item report "pdf_url" (JStr (pdf_url p))) (fun report =>
    rbind (set_item report "published" (JStr (published p))) (fun report =>
    rbind (set_item report "category" (JStr (primary_category p))) (fun report =>
    rbind (set_item report "selection_method" (JStr (selection_method sel)))
      (fun report =>
    match final_decision sel with
    | Some d =>
        rbind (subscript d "reasoning") (fun why =>
        set_item report "final_decision_reasoning" why)
    | None => Ok report
    end))))))))))
  with
  | Ok report => report
  | Raise e => fallback_report p e
  end.

(** [len(text)], as an integer. *)
Definition len (text : string) : Z := Z.of_nat (String.length text).

(** [text[:stop]] for any integer [stop]: a negative [stop] counts from the
    end. *)
Definition slice_until (stop : Z) (text : string) : string :=
  if (stop <? 0)%Z then PyStr.take (Z.to_nat (len text + stop)) text
  else PyStr.take (Z.to_nat stop) text.

(** The helper [truncate] of [DiscordNotifier._create_embed]; every call of
    the source passes 1024, which is also the default. *)
Definition truncate (text : string) (max_length : Z) : string :=
  if (len text <=? max_length)%Z then text
  else (slice_until (max_length - 3) text ++ "...")%string.

(** A text in which the character [c] does not occur. *)
Fixpoint free_of (c : ascii) (s : string) : bool :=
  match s with
  | EmptyString => true
  | String a s' => negb (Ascii.eqb a c) && free_of c s'
  end.

(** A scored paper as a payload with the four criteria and nothing else
    leaves it. *)
Definition scored_bare : ScoredPaper :=
  {| paper := paper_x;
     scores := JObj [ ("problem_relevance", JInt 8); ("dataset_quality", JInt 8);
                      ("model_novelty", JInt 8); ("real_world_impact", JInt 8) ];
     total_score := 8%float |}.

(** An answer in a fenced block, with a sentence before and after. *)
Definition fenced_answer : string :=
  ("Here is my decision: " ++ "```json"
     ++ Json.quoted " {'selected': 'gemini'} " ++ "```" ++ " Thanks.")%string.

(** What holds of every paper [to_paper] builds for a category of the
    configuration. *)
Definition well_fetched (p : Paper) : Prop :=
  free_of newline (abstract p) = true
  /\ free_of "/" (arxiv_id p) = true
  /\ In (category p) ARXIV_CATEGORIES.

(** Two debates in a row on the same [AgentDebate]: in each, both agents
    argue and the arbiter's client raises. *)
Definition two_debates : nat -> request -> reply :=
  scripted [ Text argument_x; Text argument_y;
             Fails (BackendError "503 Service Unavailable");
             Text argument_y; Text argument_x;
             Fails (BackendError "503 Service Unavailable") ].

(** The world the first of them leaves. *)
Definition after_first_debate : world :=
  snd (select_final_paper Json.loads no_repr two_debates
         [scored_x] [scored_y] fresh).

(** A recent result, with its summary on two lines, and an old one. *)
Definition result_recent : SearchResult :=
  {| r_title := "X";
     r_summary := "We study" ++ String newline "X.";
     r_authors := ["A. Author"];
     r_pdf_url := "https://arxiv.org/pdf/2501.00001v1";
     r_entry_id := "http://arxiv.org/abs/2501.00001v1";
     r_published := 1000000%Z;
     r_primary_category := "cs.CV" |}.

Definition result_old : SearchResult :=
  {| r_title := "Z";
     r_summary := "We studied Z.";
     r_authors := ["C. Author"];
     r_pdf_url := "https://arxiv.org/pdf/2401.00003v2";
     r_entry_id := "http://arxiv.org/abs/2401.00003v2";
     r_published := 0%Z;
     r_primary_category := "cs.LG" |}.

(** A client that yields, for every category, the recent result, the old
    one and the recent one again. *)
Definition sample_search : string -> nat -> results :=
  fun _ _ => yield result_recent (yield result_old (yield result_recent no_more)).

Definition sample_date : Z -> string := fun _ => "2025-01-02".

(** ** [helper/pdf_processor.py] *)

(** [text.split()]: the words between the runs of whitespace; [cur] is the
    current word, reversed. *)
Fixpoint split_words (cur : list ascii) (s : string) : list string :=
  match s with
  | EmptyString =>
      match cur with
      | [] => []
      | _ :: _ => [string_of_list_ascii (rev cur)]
      end
  | String c s' =>
      if PyStr.is_space c then
        match cur with
        | [] => split_words [] s'
        | _ :: _ => string_of_list_ascii (rev cur) :: split_words [] s'
        end
      else split_words (c :: cur) s'
  end.

Definition split_whitespace (s : string) : list string := split_words [] s.

(** [chunks.append({'text': ' '.join(current_chunk), 'page': page_num + 1,
    'chunk_id': len(chunks)})] *)
Definition append_chunk (chunks : list Chunk) (current_chunk : list string)
           (page_num : nat) : list Chunk :=
  chunks ++ [ {| chunk_text := join " " current_chunk;
                 chunk_page := page_num + 1;
                 chunk_id := length chunks |} ].

(** The loop of [extract_text_from_pdf] over the words of one page; it
    returns the chunks and the words left in [current_chunk]. *)
Fixpoint chunk_words (chunk_size page_num : nat) (words : list string)
         (current_chunk : list string) (current_length : nat)
         (chunks : list Chunk) : list Chunk * list string :=
  match words with
  | [] => (chunks, current_chunk)
  | word :: rest =>
      let current_chunk := current_chunk ++ [word] in
      let current_length := current_length + (String.length word + 1) in
      if (chunk_size <=? current_length)%nat
      then chunk_words chunk_size page_num rest [] 0
             (append_chunk chunks current_chunk page_num)
      else chunk_words chunk_size page_num rest current_chunk current_length
             chunks
  end.

(** The body of the loop over the pages, for the text of one page. *)
Definition chunk_page_text (chunk_size page_num : nat) (text : string)
           (chunks : list Chunk) : list Chunk :=
  let '(chunks, current_chunk) :=
    chunk_words chunk_size page_num (split_whitespace text) [] 0 chunks in
  match current_chunk with
  | [] => chunks
  | _ :: _ => append_chunk chunks current_chunk page_num
  end.

(** The loop over the pages, from page [page_num] on; a page is the text
    [doc[page_num].get_text()] returns, or what reading it raises. *)
Fixpoint extract_pages (chunk_size page_num : nat) (pages : list (result string))
         (chunks : list Chunk) : result (list Chunk) :=
  match pages with
  | [] => Ok chunks
  | page :: rest =>
      rbind page (fun text =>
      extract_pages chunk_size (S page_num) rest
        (chunk_page_text chunk_size page_num text chunks))
  end.

(** [PDFProcessor.extract_text_from_pdf]; [doc] is what [fitz.open] returns
    or raises, and [chunk_size] is [self.chunk_size], which [__init__] sets
    to [config.CHUNK_SIZE]. *)
Definition extract_text_from_pdf (chunk_size : nat)
           (doc : result (list (result string))) : list Chunk :=
  match rbind doc (fun pages => extract_pages chunk_size 0 pages []) with
  | Ok chunks => chunks
  | Raise _ => []
  end.

(** A word: not empty, and without whitespace. *)
Fixpoint no_space (s : string) : bool :=
  match s with
  | EmptyString => true
  | String c s' => negb (PyStr.is_space c) && no_space s'
  end.

Definition is_word (w : string) : Prop :=
  w <> EmptyString /\ no_space w = true.

(** What [current_length] counts: every word and a space after it. *)
Definition weight (ws : list string) : nat :=
  list_sum (map (fun w => String.length w + 1) ws).

(** A group of words that made [current_length] reach the chunk size, and a
    group that stayed below it until its last word came. *)
Definition full (chunk_size : nat) (g : list string) : Prop :=
  chunk_size <= weight g.

Definition fits (chunk_size : nat) (g : list string) : Prop :=
  g <> []
  /\ forall g' w, g = g' ++ [w] -> g' = [] \/ weight g' < chunk_size.

(** The chunks of the groups of one page, numbered from [start]. *)
Fixpoint numbered (page_num start : nat) (groups : list (list string))
  : list Chunk :=
  match groups with
  | [] => []
  | g :: rest =>
      {| chunk_text := join " " g; chunk_page := page_num + 1;
         chunk_id := start |} :: numbered page_num (S start) rest
  end.

(** The words of the chunks of page number [k], counted from 0, as
    [split] gives them back. *)
Definition page_words (k : nat) (chunks : list Chunk) : list string :=
  concat (map (fun c => split_whitespace (chunk_text c))
              (filter (fun c => (chunk_page c =? k + 1)%nat) chunks)).

(** The chunks [PDFProcessor.process_paper] returns; [pdf] is the document
    behind the path [download_pdf] returned, or [None] when the download
    failed.  The embeddings returned beside them are left out:
    [generate_key_findings] does not read them. *)
Definition process_paper_chunks (chunk_size : nat)
           (pdf : option (result (list (result string)))) : list Chunk :=
  match pdf with
  | None => []
  | Some doc => extract_text_from_pdf chunk_size doc
  end.

(** [ProtoML.run], steps 5 and 6: with no chunk, the abstract is the only
    chunk the key findings are drawn from. *)
Definition key_findings_of_run (ask : report_request -> reply)
           (chunk_size : nat) (pdf : option (result (list (result string))))
           (selected_paper : Paper) : result string :=
  let chunks := process_paper_chunks chunk_size pdf in
  let chunks :=
    if (length chunks =? 0)%nat
    then [ {| chunk_text := abstract selected_paper; chunk_page := 1;
              chunk_id := 0 |} ]
    else chunks in
  generate_key_findings ask selected_paper chunks.

(** [DiscordNotifier._format_techniques]; [bullet] stands for the bullet
    sign, one character of the source that lies beyond the 8-bit range. *)
Definition _format_techniques (py_repr : json -> string) (bullet : ascii)
           (techniques : json) : string :=
  match techniques with
  | JArr items =>
      let formatted :=
        join (String newline EmptyString)
             (map (fun t => String bullet (" " ++ py_str py_repr t)%string)
                  (firstn 5 items)) in
      if (1024 <? String.length formatted)%nat
      then (PyStr.take 1020 formatted ++ "...")%string
      else formatted
  | _ => PyStr.take 1024 (py_str py_repr techniques)
  end.

(** A document of two pages, and one whose second page cannot be read. *)
Definition two_pages : list (result string) :=
  [ Ok ("alpha beta" ++ String newline "gamma")%string; Ok "  delta " ].

Definition damaged : list (result string) :=
  [ Ok "alpha beta gamma"; Raise (BackendError "cannot open broken document") ].

(** ** Sample data for the rankings and the weighted totals *)

Definition paper_named (name id : string) : Paper :=
  {| title := name; abstract := "We study " ++ name ++ ".";
     authors := ["C. Author"];
     pdf_url := "https://arxiv.org/pdf/" ++ id;
     arxiv_id := id; published := "2025-01-04";
     category := "cs.LG"; primary_category := "cs.LG" |}.

Definition batch_of_four : list Paper :=
  [ paper_named "A" "2501.00011v1"; paper_named "B" "2501.00012v1";
    paper_named "C" "2501.00013v1"; paper_named "D" "2501.00014v1" ].

(** A payload in the asked format but for one score, which is [NaN]:
    [json.loads] reads it as the float nan. *)
Definition nan_payload : string :=
  Json.quoted
    "{'problem_relevance': NaN, 'dataset_quality': 8, 'model_novelty': 8, 'real_world_impact': 8, 'reasoning': 'Hard to place.', 'overall_impression': 'Unclear.'}".

Definition nines_payload : string :=
  Json.quoted
    "{'problem_relevance': 9, 'dataset_quality': 9, 'model_novelty': 9, 'real_world_impact': 9, 'reasoning': 'Strong throughout.', 'overall_impression': 'Excellent.'}".

Definition sevens_payload : string :=
  Json.quoted
    "{'problem_relevance': 7, 'dataset_quality': 7, 'model_novelty': 7, 'real_world_impact': 7, 'reasoning': 'Solid work.', 'overall_impression': 'Good.'}".

(** A payload with the four criteria and nothing else. *)
Definition eights_payload : string :=
  Json.quoted
    "{'problem_relevance': 8, 'dataset_quality': 8, 'model_novelty': 8, 'real_world_impact': 8}".

(** The client raises for the first paper; the second payload holds a
    [NaN]; the third and the fourth are rated 9 and 7 throughout. *)
Definition one_total_is_nan : nat -> request -> reply :=
  scripted [ Fails (BackendError "429 Too Many Requests"); Text nan_payload;
             Text nines_payload; Text sevens_payload ].

(** The first paper is rated 7 throughout, the second 9, the third 7. *)
Definition seven_nine_seven : nat -> request -> reply :=
  scripted [ Text sevens_payload; Text nines_payload; Text sevens_payload ].

(** The value of a finite float, in units of 2^-1074 (the smallest positive
    float), so that sums of floats can be stated without rounding. *)
Definition units (x : float) : Z :=
  match Prim2SF x with
  | S754_finite s m e =>
      (if s then Z.neg m else Z.pos m) * 2 ^ (e + 1074)
  | _ => 0
  end.

(** Two weight maps that are not the configured one.  The weights of the
    first are the floats nearest to 0.03, 0.06, 0.88 and 0.03; those of the
    second the floats nearest to 0.1, 0.14, 0.23 and 0.53. *)
Definition uneven_weights : list (string * float) :=
  [ ("problem_relevance", 0x1.eb851eb851eb8p-6%float);
    ("dataset_quality", 0x1.eb851eb851eb8p-5%float);
    ("model_novelty", 0x1.c28f5c28f5c29p-1%float);
    ("real_world_impact", 0x1.eb851eb851eb8p-6%float) ].

Definition decimal_weights : list (string * float) :=
  [ ("problem_relevance", 0x1.999999999999ap-4%float);
    ("dataset_quality", 0x1.1eb851eb851ecp-3%float);
    ("model_novelty", 0x1.d70a3d70a3d71p-3%float);
    ("real_world_impact", 0x1.0f5c28f5c28f6p-1%float) ].

(** [sum(weights.values())] *)
Definition sum_of_weights (weights : list (string * float)) : float :=
  fold_left (fun acc cw => (acc + snd cw)%float) weights 0%float.

(** The integer scores a ScoreSet may hold. *)
Definition one_to_ten : list Z := [1; 2; 3; 4; 5; 6; 7; 8; 9; 10]%Z.

(** * Properties *)

(** ** Comparing floats *)

Lemma SFcompare_key (x y : spec_float) :
  x <> S754_nan -> y <> S754_nan ->
  SFcompare x y = Some (lex (float_key x) (float_key y)).
Proof.
  intros Hx Hy.
  destruct x as [sx | sx | | sx mx ex], y as [sy | sy | | sy my ey];
    try congruence; try destruct sx; try destruct sy; cbn; try reflexivity.
  - rewrite Z.compare_opp, (Z.compare_antisym ex ey).
    change (PosDef.Pos.compare_cont Eq mx my) with (Pos.compare mx my).
    destruct (ex ?= ey)%Z; reflexivity.
Qed.

Lemma lex_refl (a : Z * Z * Z) : lex a a = Eq.
Proof. destruct a as [[a1 a2] a3]. cbn. now rewrite !Z.compare_refl. Qed.

Lemma lex_antisym (a b : Z * Z * Z) : lex b a = CompOpp (lex a b).
Proof.
  destruct a as [[a1 a2] a3], b as [[b1 b2] b3]. cbn.
  rewrite (Z.compare_antisym a1 b1), (Z.compare_antisym a2 b2),
    (Z.compare_antisym a3 b3).
  destruct (a1 ?= b1)%Z, (a2 ?= b2)%Z, (a3 ?= b3)%Z; reflexivity.
Qed.

Lemma lex_not_gt (a1 a2 a3 b1 b2 b3 : Z) :
  lex (a1, a2, a3) (b1, b2, b3) <> Gt
  <-> (a1 < b1 \/ (a1 = b1 /\ (a2 < b2 \/ (a2 = b2 /\ a3 <= b3))))%Z.
Proof.
  cbn. destruct (Z.compare_spec a1 b1); [| split; [lia | congruence] |
                                         split; [congruence | lia]].
  destruct (Z.compare_spec a2 b2); [| split; [lia | congruence] |
                                     split; [congruence | lia]].
  destruct (Z.compare_spec a3 b3); split; (lia || congruence).
Qed.

Lemma lex_eq (a1 a2 a3 b1 b2 b3 : Z) :
  lex (a1, a2, a3) (b1, b2, b3) = Eq <-> (a1 = b1 /\ a2 = b2 /\ a3 = b3)%Z.
Proof.
  cbn. destruct (Z.compare_spec a1 b1); [| split; [congruence | lia] |
                                         split; [congruence | lia]].
  destruct (Z.compare_spec a2 b2); [| split; [congruence | lia] |
                                     split; [congruence | lia]].
  destruct (Z.compare_spec a3 b3); split; (lia || congruence).
Qed.

Lemma lex_trans (a b c : Z * Z * Z) :
  lex a b <> Gt -> lex b c <> Gt ->
  lex a c <> Gt /\ (lex a c = Eq -> lex a b = Eq /\ lex b c = Eq).
Proof.
  destruct a as [[a1 a2] a3], b as [[b1 b2] b3], c as [[c1 c2] c3].
  rewrite !lex_not_gt, !lex_eq. lia.
Qed.

Lemma not_nan_spec (x : float) : not_nan x <-> Prim2SF x <> S754_nan.
Proof.
  unfold not_nan. rewrite eqb_spec. unfold SFeqb. split.
  - intros H E. rewrite E in H. discriminate.
  - intros H. rewrite (SFcompare_key _ _ H H), lex_refl. reflexivity.
Qed.

Lemma compare_nan_l (x y : spec_float) : x = S754_nan -> SFcompare x y = None.
Proof. intros ->. reflexivity. Qed.

Lemma compare_nan_r (x y : spec_float) : y = S754_nan -> SFcompare x y = None.
Proof. intros ->. destruct x; reflexivity. Qed.

Lemma compare_cases (x y : float) :
  (not_nan x /\ not_nan y
   /\ SFcompare (Prim2SF x) (Prim2SF y)
      = Some (lex (float_key (Prim2SF x)) (float_key (Prim2SF y)))
   /\ SFcompare (Prim2SF y) (Prim2SF x)
      = Some (CompOpp (lex (float_key (Prim2SF x)) (float_key (Prim2SF y)))))
  \/ ((~ not_nan x \/ ~ not_nan y)
      /\ SFcompare (Prim2SF x) (Prim2SF y) = None
      /\ SFcompare (Prim2SF y) (Prim2SF x) = None).
Proof.
  rewrite !not_nan_spec.
  destruct (Prim2SF x) as [sx | sx | | sx mx ex] eqn:Ex;
    destruct (Prim2SF y) as [sy | sy | | sy my ey] eqn:Ey;
    try (right; split; [tauto | split; reflexivity]);
    left; (split; [discriminate |]); (split; [discriminate |]);
    (split; [apply SFcompare_key; discriminate |]);
    rewrite <- lex_antisym; apply SFcompare_key; discriminate.
Qed.

Lemma ltb_leb (x y : float) : (x <? y)%float = true -> (x <=? y)%float = true.
Proof.
  rewrite ltb_spec, leb_spec. unfold SFltb, SFleb.
  destruct (SFcompare (Prim2SF x) (Prim2SF y)) as [[]|]; congruence.
Qed.

Lemma eqb_leb (x y : float) : (x =? y)%float = true -> (x <=? y)%float = true.
Proof.
  rewrite eqb_spec, leb_spec. unfold SFeqb, SFleb.
  destruct (SFcompare (Prim2SF x) (Prim2SF y)) as [[]|]; congruence.
Qed.

Lemma leb_not_nan (x y : float) :
  (x <=? y)%float = true -> not_nan x /\ not_nan y.
Proof.
  intros H. destruct (compare_cases x y) as [(? & ? & _) | (_ & E & _)]; [tauto |].
  rewrite leb_spec in H. unfold SFleb in H. rewrite E in H. discriminate.
Qed.

Lemma leb_refl (x : float) : not_nan x -> (x <=? x)%float = true.
Proof. intros H. apply eqb_leb. exact H. Qed.

Lemma ltb_antisym (x y : float) :
  (x <? y)%float = true -> (y <=? x)%float = false.
Proof.
  rewrite ltb_spec, leb_spec. unfold SFltb, SFleb.
  destruct (compare_cases x y) as [(_ & _ & E & E') | (_ & E & E')];
    rewrite E, E'; [| discriminate].
  destruct (lex _ _); cbn; congruence.
Qed.

(** Among floats that are not NaN, [x < y] fails exactly when [y <= x]. *)
Lemma ltb_leb_total (x y : float) :
  not_nan x -> not_nan y -> (x <? y)%float = negb (y <=? x)%float.
Proof.
  intros Hx Hy. rewrite ltb_spec, leb_spec. unfold SFltb, SFleb.
  apply not_nan_spec in Hx, Hy.
  rewrite (SFcompare_key _ _ Hx Hy), (SFcompare_key _ _ Hy Hx).
  rewrite (lex_antisym (float_key (Prim2SF x))).
  destruct (lex _ _); reflexivity.
Qed.

Lemma leb_trans (x y z : float) :
  (x <=? y)%float = true -> (y <=? z)%float = true -> (x <=? z)%float = true.
Proof.
  intros Hxy Hyz.
  destruct (leb_not_nan _ _ Hxy) as [Hx Hy], (leb_not_nan _ _ Hyz) as [_ Hz].
  rewrite leb_spec in *. unfold SFleb in *.
  apply not_nan_spec in Hx, Hy, Hz.
  rewrite (SFcompare_key _ _ Hx Hy) in Hxy.
  rewrite (SFcompare_key _ _ Hy Hz) in Hyz.
  rewrite (SFcompare_key _ _ Hx Hz).
  destruct (lex_trans (float_key (Prim2SF x)) (float_key (Prim2SF y))
              (float_key (Prim2SF z))) as [H _].
  - intros E. rewrite E in Hxy. discriminate.
  - intros E. rewrite E in Hyz. discriminate.
  - destruct (lex (float_key (Prim2SF x)) (float_key (Prim2SF z)));
      [reflexivity | reflexivity | contradiction].
Qed.

Lemma leb_antisym_eqb (x y : float) :
  (x <=? y)%float = true -> (y <=? x)%float = true -> (x =? y)%float = true.
Proof.
  intros Hxy Hyx. destruct (leb_not_nan _ _ Hxy) as [Hx Hy].
  rewrite leb_spec in Hxy, Hyx. rewrite eqb_spec. unfold SFleb, SFeqb in *.
  apply not_nan_spec in Hx, Hy.
  rewrite (SFcompare_key _ _ Hx Hy) in Hxy |- *.
  rewrite (SFcompare_key _ _ Hy Hx) in Hyx.
  rewrite (lex_antisym (float_key (Prim2SF x))) in Hyx.
  destruct (lex (float_key (Prim2SF x)) (float_key (Prim2SF y)));
    cbn in *; congruence.
Qed.

Lemma eqb_sym (x y : float) : (x =? y)%float = (y =? x)%float.
Proof.
  rewrite !eqb_spec. unfold SFeqb.
  destruct (compare_cases x y) as [(_ & _ & E & E') | (_ & E & E')];
    rewrite E, E'; [| reflexivity].
  destruct (lex _ _); reflexivity.
Qed.

(** Two floats equal to a third one are equal. *)
Lemma eqb_trans (x y z : float) :
  (x =? y)%float = true -> (y =? z)%float = true -> (x =? z)%float = true.
Proof.
  intros Hxy Hyz. apply leb_antisym_eqb.
  - apply (leb_trans x y z); apply eqb_leb; assumption.
  - apply (leb_trans z y x); apply eqb_leb; rewrite eqb_sym; assumption.
Qed.

Lemma ltb_irrefl_eqb (x y : float) :
  (x =? y)%float = true -> (x <? y)%float = false.
Proof.
  rewrite eqb_spec, ltb_spec. unfold SFeqb, SFltb.
  destruct (SFcompare (Prim2SF x) (Prim2SF y)) as [[]|]; congruence.
Qed.

(** ** A sorted list

    What [list.sort] gives when [<] orders the keys. *)

Section ListSortProperties.

Context {A : Type}.
Variable lt : A -> A -> bool.


Lemma insert_at_perm (pos : nat) (x : A) (l : list A) :
  Permutation (x :: l) (insert_at pos x l).
Proof.
  unfold insert_at. rewrite <- (firstn_skipn pos l) at 1.
  apply Permutation_middle.
Qed.

Lemma binarysort_perm (rest : list A) :
  forall sorted, Permutation (sorted ++ rest) (binarysort lt sorted rest).
Proof.
  induction rest as [| x rest IH]; intros sorted; cbn [binarysort].
  - rewrite app_nil_r. apply Permutation_refl.
  - eapply perm_trans; [| apply IH].
    rewrite <- Permutation_middle.
    apply (Permutation_app_tail rest (insert_at_perm _ x sorted)).
Qed.

Lemma sort_ascending_perm (l : list A) : Permutation l (sort_ascending lt l).
Proof.
  unfold sort_ascending. destruct (count_run lt l) as [n descending].
  eapply perm_trans; [| apply binarysort_perm].
  rewrite <- (firstn_skipn n l) at 1. apply Permutation_app_tail.
  destruct descending; [apply Permutation_rev | apply Permutation_refl].
Qed.

Lemma list_sort_reverse_perm (l : list A) :
  Permutation l (list_sort_reverse lt l).
Proof.
  unfold list_sort_reverse.
  eapply perm_trans; [apply Permutation_rev |].
  eapply perm_trans; [apply sort_ascending_perm |]. apply Permutation_rev.
Qed.

(** The items on which [lt] is a strict weak order. *)
Variable ok : A -> Prop.

Hypothesis lt_asym :
  forall a b, ok a -> ok b -> lt a b = true -> lt b a = false.

Hypothesis le_trans :
  forall a b c, ok a -> ok b -> ok c ->
    lt b a = false -> lt c b = false -> lt c a = false.

Lemma lt_trans (a b c : A) :
  ok a -> ok b -> ok c -> lt c b = true -> lt b a = true -> lt c a = true.
Proof.
  intros Ha Hb Hc Hcb Hba. destruct (lt c a) eqn:E; [reflexivity |].
  pose proof (lt_asym b a Hb Ha Hba) as Hab.
  pose proof (le_trans b a c Hb Ha Hc Hab E). congruence.
Qed.

Lemma sorted_append (R : A -> A -> Prop) (l1 l2 : list A) :
  StronglySorted R l1 -> StronglySorted R l2 ->
  (forall a b, In a l1 -> In b l2 -> R a b) ->
  StronglySorted R (l1 ++ l2).
Proof.
  induction l1 as [| a l1 IH]; intros H1 H2 Hcross; [exact H2 |].
  apply StronglySorted_inv in H1 as [H1 Ha]. cbn [app]. constructor.
  - apply IH; [exact H1 | exact H2 |].
    intros x y Hx. apply Hcross. right. exact Hx.
  - apply Forall_app. split; [exact Ha |].
    apply Forall_forall. intros y Hy. apply Hcross; [left; reflexivity | exact Hy].
Qed.

Lemma sorted_app_inv (R : A -> A -> Prop) (l1 l2 : list A) :
  StronglySorted R (l1 ++ l2) ->
  StronglySorted R l1 /\ StronglySorted R l2
  /\ (forall a b, In a l1 -> In b l2 -> R a b).
Proof.
  induction l1 as [| a l1 IH]; cbn [app]; intros H.
  - split; [constructor |]. split; [exact H |]. intros a b [].
  - apply StronglySorted_inv in H as [H Ha].
    destruct (IH H) as (H1 & H2 & Hcross).
    apply Forall_app in Ha as [Ha1 Ha2].
    split; [constructor; assumption |]. split; [exact H2 |].
    intros x y [<- | Hx] Hy.
    + rewrite Forall_forall in Ha2. apply Ha2. exact Hy.
    + apply Hcross; assumption.
Qed.

Lemma sorted_rev (R R' : A -> A -> Prop) (l : list A) :
  Forall ok l ->
  (forall a b, ok a -> ok b -> R a b -> R' b a) ->
  StronglySorted R l -> StronglySorted R' (rev l).
Proof.
  intros Hok Hflip. induction 1 as [| a l Hs IH Ha]; [constructor |].
  apply Forall_cons_iff in Hok as [Hoka Hok].
  cbn [rev]. apply sorted_append; [apply IH; exact Hok | repeat constructor |].
  intros x y Hx [<- | []]. apply in_rev in Hx.
  rewrite Forall_forall in Ha, Hok. apply Hflip; auto.
Qed.

Lemma In_firstn_sub (n : nat) (l : list A) (x : A) :
  In x (firstn n l) -> In x l.
Proof.
  intros H. rewrite <- (firstn_skipn n l). apply in_or_app. left. exact H.
Qed.

Lemma In_skipn_sub (n : nat) (l : list A) (x : A) :
  In x (skipn n l) -> In x l.
Proof.
  intros H. rewrite <- (firstn_skipn n l). apply in_or_app. right. exact H.
Qed.

Lemma run_ascending_sorted (l : list A) :
  forall prev,
    Forall ok (prev :: l) ->
    StronglySorted (asc lt) (prev :: firstn (run_ascending lt prev l) l).
Proof.
  induction l as [| x l IH]; intros prev Hok; cbn [run_ascending].
  - repeat constructor.
  - apply Forall_cons_iff in Hok as [Hp Hok].
    destruct (lt x prev) eqn:E; cbn [firstn]; [repeat constructor |].
    pose proof (IH x Hok) as Hs. constructor; [exact Hs |].
    constructor; [exact E |].
    apply StronglySorted_inv in Hs as [_ Hx].
    apply Forall_forall. intros y Hy.
    rewrite Forall_forall in Hx. specialize (Hx y Hy).
    assert (Hoky : ok y).
    { apply Forall_cons_iff in Hok as [_ Hok]. rewrite Forall_forall in Hok.
      apply Hok. exact (In_firstn_sub _ _ _ Hy). }
    apply Forall_cons_iff in Hok as [Hokx _].
    exact (le_trans prev x y Hp Hokx Hoky E Hx).
Qed.

Lemma run_descending_sorted (l : list A) :
  forall prev,
    Forall ok (prev :: l) ->
    StronglySorted (below lt) (prev :: firstn (run_descending lt prev l) l).
Proof.
  induction l as [| x l IH]; intros prev Hok; cbn [run_descending].
  - repeat constructor.
  - apply Forall_cons_iff in Hok as [Hp Hok].
    destruct (lt x prev) eqn:E; cbn [firstn]; [| repeat constructor].
    pose proof (IH x Hok) as Hs. constructor; [exact Hs |].
    constructor; [exact E |].
    apply StronglySorted_inv in Hs as [_ Hx].
    apply Forall_forall. intros y Hy.
    rewrite Forall_forall in Hx. specialize (Hx y Hy).
    assert (Hoky : ok y).
    { apply Forall_cons_iff in Hok as [_ Hok]. rewrite Forall_forall in Hok.
      apply Hok. exact (In_firstn_sub _ _ _ Hy). }
    apply Forall_cons_iff in Hok as [Hokx _].
    exact (lt_trans prev x y Hp Hokx Hoky Hx E).
Qed.

(** The run [count_run] finds, turned round when it descends, is sorted. *)
Lemma count_run_sorted (l : list A) :
  Forall ok l ->
  let '(n, descending) := count_run lt l in
  StronglySorted (asc lt) (if descending then rev (firstn n l) else firstn n l)
  /\ (descending = true -> StronglySorted (below lt) (firstn n l)).
Proof.
  intros Hok. destruct l as [| x [| y l]]; cbn [count_run].
  - split; [constructor | discriminate].
  - split; [repeat constructor | discriminate].
  - apply Forall_cons_iff in Hok as [Hx Hok].
    destruct (lt y x) eqn:E; cbn [Nat.add firstn].
    + pose proof (run_descending_sorted l y Hok) as Hs.
      assert (Hrun : StronglySorted (below lt)
                       (x :: y :: firstn (run_descending lt y l) l)).
      { constructor; [exact Hs |]. constructor; [exact E |].
        apply StronglySorted_inv in Hs as [_ Hy].
        apply Forall_forall. intros z Hz.
        rewrite Forall_forall in Hy. specialize (Hy z Hz).
        assert (Hokz : ok z).
        { apply Forall_cons_iff in Hok as [_ Hok]. rewrite Forall_forall in Hok.
          apply Hok. exact (In_firstn_sub _ _ _ Hz). }
        apply Forall_cons_iff in Hok as [Hoky _].
        exact (lt_trans x y z Hx Hoky Hokz Hy E). }
      split; [| intros _; exact Hrun].
      apply (sorted_rev (below lt) (asc lt)); [| | exact Hrun].
      * constructor; [exact Hx |].
        apply Forall_cons_iff in Hok as [Hoky Hok]. constructor; [exact Hoky |].
        apply Forall_forall. intros z Hz. rewrite Forall_forall in Hok.
        apply Hok. exact (In_firstn_sub _ _ _ Hz).
      * intros a b Ha Hb Hab. unfold below in Hab. unfold asc.
        exact (lt_asym b a Hb Ha Hab).
    + split; [| discriminate].
      pose proof (run_ascending_sorted l y Hok) as Hs.
      constructor; [exact Hs |]. constructor; [exact E |].
      apply StronglySorted_inv in Hs as [_ Hy].
      apply Forall_forall. intros z Hz.
      rewrite Forall_forall in Hy. specialize (Hy z Hz).
      assert (Hokz : ok z).
      { apply Forall_cons_iff in Hok as [_ Hok]. rewrite Forall_forall in Hok.
        apply Hok. exact (In_firstn_sub _ _ _ Hz). }
      apply Forall_cons_iff in Hok as [Hoky _].
      exact (le_trans x y z Hx Hoky Hokz E Hy).
Qed.

(** The binary search ends where the items not above the pivot end. *)
Lemma bisect_spec (pivot : A) (sorted : list A) :
  ok pivot -> Forall ok sorted -> StronglySorted (asc lt) sorted ->
  forall fuel l r,
    l <= r <= length sorted ->
    r - l <= fuel ->
    Forall (fun x => lt pivot x = false) (firstn l sorted) ->
    Forall (fun x => lt pivot x = true) (skipn r sorted) ->
    let pos := bisect lt fuel l r pivot sorted in
    pos <= length sorted
    /\ Forall (fun x => lt pivot x = false) (firstn pos sorted)
    /\ Forall (fun x => lt pivot x = true) (skipn pos sorted).
Proof.
  intros Hp Hok Hs. induction fuel as [| fuel IH]; intros l r Hlr Hfuel Hl Hr;
    cbn [bisect].
  - replace r with l in Hr by lia. split; [lia | split; assumption].
  - destruct (Nat.ltb_spec l r) as [Hlt | Hge].
    2:{ replace r with l in Hr by lia. split; [lia | split; assumption]. }
    set (p := l + (r - l) / 2).
    assert (Hpl : l <= p) by (subst p; lia).
    assert (Hpr : p < r).
    { subst p. pose proof (Nat.div_lt (r - l) 2). lia. }
    destruct (nth_error sorted p) as [x |] eqn:Ex.
    2:{ apply nth_error_None in Ex. lia. }
    pose proof (nth_error_split sorted p Ex) as (l1 & l2 & Esplit & Hlen).
    assert (Hparts : StronglySorted (asc lt) l1 /\ StronglySorted (asc lt) (x :: l2)
                     /\ forall a b, In a l1 -> In b (x :: l2) -> (asc lt) a b).
    { apply sorted_app_inv. rewrite <- Esplit. exact Hs. }
    destruct Hparts as (_ & Hxl2 & Hcross).
    apply StronglySorted_inv in Hxl2 as [_ Hxl2].
    assert (Hokx : ok x).
    { rewrite Forall_forall in Hok. apply Hok. rewrite Esplit.
      apply in_or_app. right. left. reflexivity. }
    assert (Hf : firstn p sorted = l1).
    { rewrite Esplit, <- Hlen, firstn_app, Nat.sub_diag, firstn_all.
      cbn [firstn]. apply app_nil_r. }
    assert (Hsk : skipn p sorted = x :: l2).
    { rewrite Esplit, <- Hlen, skipn_app, Nat.sub_diag, skipn_all.
      reflexivity. }
    destruct (lt pivot x) eqn:E.
    + apply IH; [lia | | exact Hl |].
      { subst p. pose proof (Nat.div_lt (r - l) 2). lia. }
      rewrite Hsk. constructor; [exact E |].
      apply Forall_forall. intros y Hy.
      rewrite Forall_forall in Hxl2. specialize (Hxl2 y Hy). unfold asc in Hxl2.
      assert (Hoky : ok y).
      { rewrite Forall_forall in Hok. apply Hok. rewrite Esplit.
        apply in_or_app. right. right. exact Hy. }
      destruct (lt pivot y) eqn:Ey; [reflexivity |].
      pose proof (le_trans x y pivot Hokx Hoky Hp Hxl2 Ey). congruence.
    + apply IH; [lia | lia | | exact Hr].
      replace (S p) with (length (l1 ++ [x])) by (rewrite length_app; cbn; lia).
      rewrite Esplit.
      replace (l1 ++ x :: l2) with ((l1 ++ [x]) ++ l2)
        by (rewrite <- app_assoc; reflexivity).
      rewrite firstn_app, Nat.sub_diag, firstn_all. cbn [firstn].
      rewrite app_nil_r. apply Forall_app. split; [| repeat constructor; exact E].
      apply Forall_forall. intros y Hy.
      assert (Hyx : (asc lt) y x) by (apply Hcross; [exact Hy | left; reflexivity]).
      unfold asc in Hyx.
      assert (Hoky : ok y).
      { rewrite Forall_forall in Hok. apply Hok. rewrite Esplit.
        apply in_or_app. left. exact Hy. }
      exact (le_trans y x pivot Hoky Hokx Hp Hyx E).
Qed.

Lemma insert_at_sorted (pos : nat) (pivot : A) (sorted : list A) :
  ok pivot -> Forall ok sorted -> StronglySorted (asc lt) sorted ->
  Forall (fun x => lt pivot x = false) (firstn pos sorted) ->
  Forall (fun x => lt pivot x = true) (skipn pos sorted) ->
  StronglySorted (asc lt) (insert_at pos pivot sorted).
Proof.
  intros Hp Hok Hs Hl Hr. unfold insert_at.
  rewrite <- (firstn_skipn pos sorted) in Hs.
  apply sorted_app_inv in Hs as (H1 & H2 & Hcross).
  apply sorted_append; [exact H1 | |].
  - constructor; [exact H2 |].
    apply Forall_forall. intros y Hy.
    rewrite Forall_forall in Hr. unfold asc. apply lt_asym; [exact Hp | | auto].
    rewrite Forall_forall in Hok. apply Hok. exact (In_skipn_sub _ _ _ Hy).
  - intros a b Ha [<- | Hb].
    + rewrite Forall_forall in Hl. exact (Hl a Ha).
    + apply Hcross; assumption.
Qed.

Lemma insert_at_ok (pos : nat) (pivot : A) (sorted : list A) :
  ok pivot -> Forall ok sorted -> Forall ok (insert_at pos pivot sorted).
Proof.
  intros Hp Hok.
  apply (Permutation_Forall (insert_at_perm pos pivot sorted)).
  constructor; assumption.
Qed.

Lemma bisect_place (pivot : A) (sorted : list A) :
  ok pivot -> Forall ok sorted -> StronglySorted (asc lt) sorted ->
  let pos := bisect lt (length sorted) 0 (length sorted) pivot sorted in
  Forall (fun x => lt pivot x = false) (firstn pos sorted)
  /\ Forall (fun x => lt pivot x = true) (skipn pos sorted).
Proof.
  intros Hp Hok Hs.
  apply (bisect_spec pivot sorted Hp Hok Hs (length sorted) 0 (length sorted));
    [lia | lia | constructor |].
  rewrite skipn_all. constructor.
Qed.

Lemma binarysort_sorted (rest : list A) :
  forall sorted,
    Forall ok sorted -> Forall ok rest -> StronglySorted (asc lt) sorted ->
    StronglySorted (asc lt) (binarysort lt sorted rest).
Proof.
  induction rest as [| x rest IH]; intros sorted Hok Hrest Hs;
    cbn [binarysort]; [exact Hs |].
  apply Forall_cons_iff in Hrest as [Hx Hrest].
  destruct (bisect_place x sorted Hx Hok Hs) as [Hl Hr].
  apply IH; [apply insert_at_ok; assumption | exact Hrest |].
  apply insert_at_sorted; assumption.
Qed.

Lemma sort_ascending_sorted (l : list A) :
  Forall ok l -> StronglySorted (asc lt) (sort_ascending lt l).
Proof.
  intros Hok. unfold sort_ascending.
  pose proof (count_run_sorted l Hok) as Hrun.
  destruct (count_run lt l) as [n descending]. destruct Hrun as [Hrun _].
  assert (H1 : Forall ok (firstn n l)).
  { apply Forall_forall. intros x Hx. rewrite Forall_forall in Hok.
    apply Hok. exact (In_firstn_sub _ _ _ Hx). }
  assert (H2 : Forall ok (skipn n l)).
  { apply Forall_forall. intros x Hx. rewrite Forall_forall in Hok.
    apply Hok. exact (In_skipn_sub _ _ _ Hx). }
  apply binarysort_sorted; [| exact H2 | exact Hrun].
  destruct descending; [apply Forall_rev |]; exact H1.
Qed.

(** With [reverse=True] no item is (below lt) a later one. *)
Lemma list_sort_reverse_sorted (l : list A) :
  Forall ok l -> StronglySorted (desc lt) (list_sort_reverse lt l).
Proof.
  intros Hok. unfold list_sort_reverse.
  assert (Hrev : Forall ok (rev l)) by (apply Forall_rev; exact Hok).
  apply (sorted_rev (asc lt) (desc lt)).
  - apply (Permutation_Forall (sort_ascending_perm (rev l))). exact Hrev.
  - intros a b _ _ H. exact H.
  - apply sort_ascending_sorted. exact Hrev.
Qed.

(** *** Stability *)

Section Stable.

(** A test that items pass only when neither is (below lt) the other. *)
Variable same : A -> bool.

Hypothesis same_class :
  forall a b, ok a -> ok b -> same a = true -> same b = true -> lt a b = false.

Lemma filter_above (pivot : A) (l : list A) :
  ok pivot -> Forall ok l -> same pivot = true ->
  Forall (fun x => lt pivot x = true) l -> filter same l = [].
Proof.
  intros Hp Hok Hsame. induction 1 as [| x l Hx Hl IH]; [reflexivity |].
  apply Forall_cons_iff in Hok as [Hokx Hok]. cbn [filter].
  destruct (same x) eqn:E; [| apply IH; exact Hok].
  pose proof (same_class pivot x Hp Hokx Hsame E). congruence.
Qed.

Lemma insert_at_stable (pos : nat) (pivot : A) (sorted : list A) :
  ok pivot -> Forall ok sorted ->
  Forall (fun x => lt pivot x = true) (skipn pos sorted) ->
  filter same (insert_at pos pivot sorted) = filter same (sorted ++ [pivot]).
Proof.
  intros Hp Hok Hr. unfold insert_at.
  rewrite <- (firstn_skipn pos sorted) at 3.
  rewrite !filter_app. cbn [filter].
  destruct (same pivot) eqn:E; [| rewrite app_nil_r; reflexivity].
  rewrite (filter_above pivot (skipn pos sorted) Hp); [| | exact E | exact Hr].
  - rewrite app_nil_r. reflexivity.
  - apply Forall_forall. intros x Hx. rewrite Forall_forall in Hok.
    apply Hok. exact (In_skipn_sub _ _ _ Hx).
Qed.

Lemma binarysort_stable (rest : list A) :
  forall sorted,
    Forall ok sorted -> Forall ok rest -> StronglySorted (asc lt) sorted ->
    filter same (binarysort lt sorted rest) = filter same (sorted ++ rest).
Proof.
  induction rest as [| x rest IH]; intros sorted Hok Hrest Hs;
    cbn [binarysort]; [rewrite app_nil_r; reflexivity |].
  apply Forall_cons_iff in Hrest as [Hx Hrest].
  destruct (bisect_place x sorted Hx Hok Hs) as [Hl Hr].
  rewrite IH; [| apply insert_at_ok; assumption | exact Hrest
               | apply insert_at_sorted; assumption].
  rewrite filter_app, (insert_at_stable _ x sorted Hx Hok Hr), <- filter_app,
    <- app_assoc. reflexivity.
Qed.

(** A run that descends strictly holds at most one item of a class. *)
Lemma filter_descending (l : list A) :
  Forall ok l -> StronglySorted (below lt) l -> length (filter same l) <= 1.
Proof.
  intros Hok. induction 1 as [| x l Hs IH Hx]; [cbn; lia |].
  apply Forall_cons_iff in Hok as [Hokx Hok]. cbn [filter].
  destruct (same x) eqn:E; [| apply IH; exact Hok].
  assert (Hnone : filter same l = []).
  { clear IH Hs. induction l as [| y l IHl]; [reflexivity |].
    apply Forall_cons_iff in Hok as [Hoky Hok].
    apply Forall_cons_iff in Hx as [Hy Hx]. cbn [filter].
    destruct (same y) eqn:Ey; [| apply IHl; assumption].
    unfold below in Hy.
    pose proof (same_class y x Hoky Hokx Ey E). congruence. }
  rewrite Hnone. cbn. lia.
Qed.

Lemma rev_short (l : list A) : length l <= 1 -> rev l = l.
Proof. destruct l as [| x [| y l]]; cbn; (reflexivity || lia). Qed.

Lemma filter_rev_eq (l : list A) : filter same (rev l) = rev (filter same l).
Proof.
  induction l as [| x l IH]; [reflexivity |].
  cbn [rev filter]. rewrite filter_app, IH. cbn [filter].
  destruct (same x); [reflexivity | apply app_nil_r].
Qed.

Lemma sort_ascending_stable (l : list A) :
  Forall ok l -> filter same (sort_ascending lt l) = filter same l.
Proof.
  intros Hok. unfold sort_ascending.
  pose proof (count_run_sorted l Hok) as Hrun.
  destruct (count_run lt l) as [n descending]. destruct Hrun as [Hrun Hdesc].
  assert (H1 : Forall ok (firstn n l)).
  { apply Forall_forall. intros x Hx. rewrite Forall_forall in Hok.
    apply Hok. exact (In_firstn_sub _ _ _ Hx). }
  assert (H2 : Forall ok (skipn n l)).
  { apply Forall_forall. intros x Hx. rewrite Forall_forall in Hok.
    apply Hok. exact (In_skipn_sub _ _ _ Hx). }
  rewrite binarysort_stable; [| | exact H2 | exact Hrun].
  2:{ destruct descending; [apply Forall_rev |]; exact H1. }
  assert (E : filter same l
              = filter same (firstn n l) ++ filter same (skipn n l))
    by (rewrite <- filter_app, firstn_skipn; reflexivity).
  rewrite E, filter_app. f_equal.
  destruct descending; [| reflexivity].
  rewrite filter_rev_eq. apply rev_short.
  apply filter_descending; [exact H1 | apply Hdesc; reflexivity].
Qed.

(** [list.sort] is stable, also with [reverse=True]. *)
Lemma list_sort_reverse_stable (l : list A) :
  Forall ok l -> filter same (list_sort_reverse lt l) = filter same l.
Proof.
  intros Hok. unfold list_sort_reverse.
  rewrite filter_rev_eq, sort_ascending_stable, filter_rev_eq, rev_involutive;
    [reflexivity | apply Forall_rev; exact Hok].
Qed.

End Stable.

End ListSortProperties.


(** ** Strings: a fence that is present can be cut out *)

Lemma split_go_cons (sep : string) (s : string) :
  forall skip cur, exists piece rest, PyStr.split_go sep skip cur s = piece :: rest.
Proof.
  induction s as [| c s IH]; intros skip cur; cbn [PyStr.split_go].
  - eauto.
  - destruct skip as [| k].
    + destruct (prefix sep (String c s)); [eauto | apply IH].
    + apply IH.
Qed.

Lemma split_contains (sep : string) (s : string) :
  prefix sep EmptyString = false ->
  PyStr.contains sep s = true ->
  forall cur, exists a b rest, PyStr.split_go sep 0 cur s = a :: b :: rest.
Proof.
  intros Hsep. induction s as [| c s IH]; intros Hin cur.
  - cbn [PyStr.contains] in Hin. rewrite Hsep in Hin. discriminate.
  - cbn [PyStr.contains] in Hin. cbn [PyStr.split_go].
    destruct (prefix sep (String c s)) eqn:Hp.
    + destruct (split_go_cons sep s (String.length sep - 1) []) as (b & rest & ->).
      do 3 eexists. reflexivity.
    + apply IH. exact Hin.
Qed.

Lemma cut_fence (sep content : string) :
  prefix sep EmptyString = false ->
  PyStr.contains sep content = true ->
  exists text,
    rbind (item (PyStr.split sep content) 1) (fun after =>
    rbind (item (PyStr.split "```" after) 0) (fun inner =>
    Ok (PyStr.strip inner))) = Ok text.
Proof.
  intros Hsep Hin. unfold PyStr.split.
  destruct (split_contains sep content Hsep Hin []) as (a & b & rest & ->).
  cbn [item nth_error rbind].
  destruct (split_go_cons "```" b 0 []) as (piece & rest' & ->).
  cbn [item nth_error rbind]. eauto.
Qed.

(** Cutting the fenced block out of a response never raises. *)
Lemma extract_json_total (content : string) :
  exists text, extract_json content = Ok text.
Proof.
  unfold extract_json.
  destruct (PyStr.contains "```json" content) eqn:H1.
  - apply cut_fence; [reflexivity | exact H1].
  - destruct (PyStr.contains "```" content) eqn:H2.
    + apply cut_fence; [reflexivity | exact H2].
    + eauto.
Qed.

(** ** The monad *)

Lemma bind_ok {A B} (m : M A) (k : A -> M B) (w w' : world) (a : A) :
  m w = (Ok a, w') -> bind m k w = k a w'.
Proof. intros H. unfold bind. rewrite H. reflexivity. Qed.

Lemma bind_raise {A B} (m : M A) (k : A -> M B) (w w' : world) (e : exn) :
  m w = (Raise e, w') -> bind m k w = (Raise e, w').
Proof. intros H. unfold bind. rewrite H. reflexivity. Qed.

Lemma lift_bind {A B} (r : result A) (k : A -> M B) (w : world) (a : A) :
  r = Ok a -> bind (lift r) k w = k a w.
Proof. intros ->. reflexivity. Qed.

Lemma calls_sent (req : request) (w : world) :
  length (calls (sent req w)) = S (length (calls w)).
Proof. simpl. rewrite length_app. simpl. lia. Qed.

Section Properties.

Variable json_loads : string -> result json.
Variable py_repr : json -> string.
Variable backend : nat -> request -> reply.

Lemma call_run (req : request) (w : world) :
  call backend req w
  = (reply_content (backend (length (calls w)) req), sent req w).
Proof.
  unfold call. destruct (backend (length (calls w)) req); reflexivity.
Qed.

(** ** The debate rounds *)

Lemma groq_present_case_run (g m : ScoredPaper) (rg : json) (w : world) :
  reasoning_of g = Ok rg ->
  let p1 := GroqCaseRequest (title (paper g)) (total_score g) rg
                            (title (paper m)) (total_score m) in
  _groq_present_case py_repr backend g m w
  = (Ok (round_argument (backend (length (calls w)) p1)
           ("I believe my paper is superior due to " ++ py_str py_repr rg)),
     sent p1 w).
Proof.
  intros Hr p1.
  unfold _groq_present_case, groq_case_prompt, try_except.
  rewrite Hr. cbn [rbind]. rewrite (lift_bind _ _ _ p1 eq_refl).
  unfold bind at 1. rewrite call_run. fold p1.
  destruct (backend (length (calls w)) p1);
    cbn [reply_content round_argument]; unfold bind, lift, ret, stripped;
    rewrite ?Hr; reflexivity.
Qed.

Lemma gemini_present_case_run (m g : ScoredPaper) (a1 : string) (rm : json)
      (w : world) :
  reasoning_of m = Ok rm ->
  let p2 := GeminiCaseRequest a1 (title (paper g)) (title (paper m))
                              (total_score m) rm in
  _gemini_present_case py_repr backend m g a1 w
  = (Ok (round_argument (backend (length (calls w)) p2)
           ("My paper is superior because " ++ py_str py_repr rm)),
     sent p2 w).
Proof.
  intros Hr p2.
  unfold _gemini_present_case, gemini_case_prompt, try_except.
  rewrite Hr. cbn [rbind]. rewrite (lift_bind _ _ _ p2 eq_refl).
  unfold bind at 1. rewrite call_run. fold p2.
  destruct (backend (length (calls w)) p2);
    cbn [reply_content round_argument]; unfold bind, lift, ret, stripped;
    rewrite ?Hr; reflexivity.
Qed.

(** ** The adjudication *)

Lemma make_final_decision_run (g m : ScoredPaper) (a1 a2 : string) (w : world) :
  let p3 := decision_prompt g m a1 a2 in
  _make_final_decision json_loads backend g m a1 a2 w
  = (Ok (verdict json_loads (backend (length (calls w)) p3) g m), sent p3 w).
Proof.
  intros p3. unfold _make_final_decision, try_except, verdict, score_fallback.
  fold p3. unfold bind at 1. rewrite call_run.
  destruct (backend (length (calls w)) p3) as [s | | e]; cbn [reply_content rbind].
  - unfold bind, lift. cbn [fenced_body].
    destruct (extract_json s) as [text | e]; cbn [rbind].
    + destruct (json_loads text); [reflexivity |].
      destruct (total_score m <=? total_score g)%float; reflexivity.
    + destruct (total_score m <=? total_score g)%float; reflexivity.
  - unfold bind, lift. cbn [fenced_body rbind].
    destruct (total_score m <=? total_score g)%float; reflexivity.
  - destruct (total_score m <=? total_score g)%float; reflexivity.
Qed.

Lemma verdict_failed (r : reply) (g m : ScoredPaper) :
  adjudication_fails json_loads r ->
  verdict json_loads r g m = score_fallback g m.
Proof.
  intros H. unfold verdict.
  destruct H as [e | | s text e Ht He]; cbn [reply_content rbind fenced_body].
  - reflexivity.
  - reflexivity.
  - rewrite Ht. cbn [rbind]. rewrite He. reflexivity.
Qed.

Lemma verdict_parsed (s text : string) (d : json) (g m : ScoredPaper) :
  extract_json s = Ok text ->
  json_loads text = Ok d ->
  verdict json_loads (Text s) g m = d.
Proof.
  intros Ht Hd. unfold verdict. cbn [reply_content rbind fenced_body].
  rewrite Ht. cbn [rbind]. rewrite Hd. reflexivity.
Qed.

(** A reply either makes the adjudication fail or carries a JSON value. *)
Lemma adjudication_cases (r : reply) :
  adjudication_fails json_loads r
  \/ exists s text d,
       r = Text s /\ extract_json s = Ok text /\ json_loads text = Ok d.
Proof.
  destruct r as [s | | e].
  - destruct (extract_json_total s) as [text Ht].
    destruct (json_loads text) as [d | e] eqn:Hd.
    + right. exists s, text, d. auto.
    + left. econstructor; eassumption.
  - left. constructor.
  - left. constructor.
Qed.

(** [_make_final_decision] never raises: it returns the fallback decision
    when the adjudication fails, and otherwise the parsed JSON value,
    whatever its shape. *)
Lemma make_final_decision_returns (g m : ScoredPaper) (a1 a2 : string)
      (w : world) :
  let p3 := decision_prompt g m a1 a2 in
  let r := backend (length (calls w)) p3 in
  exists d,
    _make_final_decision json_loads backend g m a1 a2 w = (Ok d, sent p3 w)
    /\ (adjudication_fails json_loads r -> d = score_fallback g m)
    /\ (forall s text v,
          r = Text s -> extract_json s = Ok text -> json_loads text = Ok v ->
          d = v).
Proof.
  intros p3 r. eexists. split; [apply make_final_decision_run |]. split.
  - apply verdict_failed.
  - intros s text v Hr Ht Hv. fold p3 r. rewrite Hr.
    exact (verdict_parsed s text v g m Ht Hv).
Qed.

(** ** [select_final_paper] *)

Lemma print_top_run (top : ScoredPaper) (r : string) (w : world) :
  reasoning_text top r -> print_top top w = (Ok tt, w).
Proof.
  intros H. unfold print_top, bind, lift, ret. rewrite H. reflexivity.
Qed.

(** The run of a debate, step by step: three requests, one per round,
    each argument threaded into the next prompt. *)
Lemma debate_run (groq_papers gemini_papers : list ScoredPaper)
      (g m : ScoredPaper) (rg rm : string) (w : world) :
  item groq_papers 0 = Ok g ->
  item gemini_papers 0 = Ok m ->
  reasoning_text g rg ->
  reasoning_text m rm ->
  arxiv_id (paper g) <> arxiv_id (paper m) ->
  let n := length (calls w) in
  let p1 := first_request g m rg in
  let a1 := first_argument backend g m rg n in
  let p2 := second_request backend g m rg rm n in
  let a2 := second_argument backend g m rg rm n in
  let p3 := third_request backend g m rg rm n in
  let d := verdict json_loads (third_reply backend g m rg rm n) g m in
  select_final_paper json_loads py_repr backend groq_papers gemini_papers w
  = (conclude g m a1 a2 d, debated p1 p2 p3 a1 a2 w).
Proof.
  intros Hg Hm Hrg Hrm Hid. cbv zeta.
  unfold third_reply, third_request, second_argument, second_request,
    first_argument, first_request, groq_fallback_argument,
    gemini_fallback_argument.
  unfold select_final_paper.
  rewrite (lift_bind _ _ _ g Hg), (lift_bind _ _ _ m Hm).
  rewrite (bind_ok _ _ _ _ _ (print_top_run g rg w Hrg)).
  rewrite (bind_ok _ _ _ _ _ (print_top_run m rm w Hrm)).
  apply String.eqb_neq in Hid. rewrite Hid.
  unfold bind at 1. cbn [clear_context].
  set (w0 := {| calls := calls w; conversation_context := [] |}).
  rewrite (bind_ok _ _ _ _ _ (groq_present_case_run g m (JStr rg) w0 Hrg)).
  cbn [py_str]. change (length (calls w0)) with (length (calls w)).
  unfold bind at 1. cbn [_add_to_context].
  match goal with |- bind _ _ ?w1 = _ => set (w1' := w1) end.
  rewrite (bind_ok _ _ _ _ _ (gemini_present_case_run m g _ (JStr rm) w1' Hrm)).
  cbn [py_str].
  assert (Hn1 : length (calls w1') = S (length (calls w))).
  { subst w1'. cbn [calls sent w0]. rewrite length_app. simpl. lia. }
  rewrite Hn1.
  unfold bind at 1. cbn [_add_to_context].
  match goal with |- bind _ _ ?w2 = _ => set (w2' := w2) end.
  rewrite (bind_ok _ _ _ _ _ (make_final_decision_run g m _ _ w2')).
  assert (Hn2 : length (calls w2') = S (S (length (calls w)))).
  { subst w2' w1'. cbn [calls sent w0]. rewrite !length_app. simpl. lia. }
  rewrite Hn2.
  match goal with
  | |- context [sent ?q w2'] =>
      match goal with
      | |- _ = (_, ?W) => replace (sent q w2') with W
      end
  end.
  2:{ subst w2' w1' w0. unfold sent, debated. cbn [calls conversation_context].
      rewrite <- !app_assoc. reflexivity. }
  unfold conclude, transcript, bind, lift, ret.
  match goal with
  | |- context [subscript ?D "selected"] =>
      destruct (subscript D "selected") as [chosen | e]; cbn [rbind];
      [| reflexivity];
      destruct (subscript D "reasoning") as [reason | e]; cbn [rbind];
      [| reflexivity]
  end.
  destruct (slice_to 200 reason); reflexivity.
Qed.

Lemma eq_str_spec (v : json) (s : string) :
  eq_str v s = true <-> v = JStr s.
Proof.
  destruct v; cbn [eq_str]; split; intros H; try discriminate.
  - apply String.eqb_eq in H. now subst.
  - injection H as ->. apply String.eqb_refl.
Qed.

Lemma conclude_ok (g m : ScoredPaper) (a1 a2 : string)
      (d chosen reason shown : json) :
  subscript d "selected" = Ok chosen ->
  subscript d "reasoning" = Ok reason ->
  slice_to 200 reason = Ok shown ->
  conclude g m a1 a2 d
  = Ok {| selected_paper := if eq_str chosen "groq" then g else m;
          selection_method := "debate";
          debate_history := transcript a1 a2 d;
          final_decision := Some d |}.
Proof.
  intros H1 H2 H3. unfold conclude. rewrite H1, H2. cbn [rbind].
  rewrite H3. reflexivity.
Qed.

(** A value of the Decision shape lets [select_final_paper] conclude. *)
Lemma conclude_Decision (g m : ScoredPaper) (a1 a2 : string) (d : json) :
  is_Decision d = true ->
  exists chosen,
    subscript d "selected" = Ok chosen
    /\ conclude g m a1 a2 d
       = Ok {| selected_paper := if eq_str chosen "groq" then g else m;
               selection_method := "debate";
               debate_history := transcript a1 a2 d;
               final_decision := Some d |}.
Proof.
  destruct d as [| | | | | | fields]; cbn [is_Decision]; try discriminate.
  intros H. apply andb_prop in H as [H Hc]. apply andb_prop in H as [H Hr].
  apply andb_prop in H as [_ Hs].
  destruct (dict_get "selected" fields) as [chosen |] eqn:Es; [| discriminate].
  destruct (dict_get "reasoning" fields) as [reason |] eqn:Er; [| discriminate].
  destruct reason; try discriminate.
  exists chosen. split.
  - cbn [subscript]. rewrite Es. reflexivity.
  - eapply conclude_ok; cbn [subscript slice_to]; rewrite ?Es, ?Er; reflexivity.
Qed.

Lemma fallback_is_Decision (g m : ScoredPaper) :
  is_Decision (score_fallback g m) = true.
Proof.
  unfold score_fallback.
  destruct (total_score m <=? total_score g)%float; reflexivity.
Qed.

(** Whenever the adjudication fails, or yields a value of the Decision
    shape, a debate ends with its three turns and the decision attached. *)
Lemma debate_transcript (groq_papers gemini_papers : list ScoredPaper)
      (g m : ScoredPaper) (rg rm : string) (w : world) :
  item groq_papers 0 = Ok g ->
  item gemini_papers 0 = Ok m ->
  reasoning_text g rg ->
  reasoning_text m rm ->
  arxiv_id (paper g) <> arxiv_id (paper m) ->
  let n := length (calls w) in
  let a1 := first_argument backend g m rg n in
  let a2 := second_argument backend g m rg rm n in
  let r3 := third_reply backend g m rg rm n in
  let d := verdict json_loads r3 g m in
  adjudication_fails json_loads r3 \/ is_Decision d = true ->
  exists sel w',
    select_final_paper json_loads py_repr backend groq_papers gemini_papers w
    = (Ok sel, w')
    /\ selection_method sel = "debate"
    /\ debate_history sel = transcript a1 a2 d
    /\ final_decision sel = Some d.
Proof.
  intros Hg Hm Hrg Hrm Hid n a1 a2 r3 d Hd.
  assert (HD : is_Decision d = true).
  { destruct Hd as [Hf | HD]; [| exact HD].
    subst d. rewrite (verdict_failed _ _ _ Hf). apply fallback_is_Decision. }
  destruct (conclude_Decision g m a1 a2 d HD) as (chosen & _ & Hc).
  eexists. eexists. split.
  - rewrite (debate_run _ _ g m rg rm w Hg Hm Hrg Hrm Hid). cbv zeta.
    fold n. fold a1 a2 r3. fold d. rewrite Hc. reflexivity.
  - cbn. auto.
Qed.

(** C3: when the two top papers carry the same identifier and the scores
    of both hold a reasoning text, [select_final_paper] returns Groq's top
    paper with selection method "unanimous", an empty debate history and no
    decision, whatever the backends would answer, and the world is
    unchanged: no request is sent. *)
Theorem unanimous_shortcut (groq_papers gemini_papers : list ScoredPaper)
        (g m : ScoredPaper) (rg rm : string) (w : world) :
  item groq_papers 0 = Ok g ->
  item gemini_papers 0 = Ok m ->
  reasoning_text g rg ->
  reasoning_text m rm ->
  arxiv_id (paper g) = arxiv_id (paper m) ->
  select_final_paper json_loads py_repr backend groq_papers gemini_papers w
  = (Ok {| selected_paper := g;
           selection_method := "unanimous";
           debate_history := [];
           final_decision := None |},
     w).
Proof.
  intros Hg Hm Hrg Hrm Hid. unfold select_final_paper.
  rewrite (lift_bind _ _ _ g Hg), (lift_bind _ _ _ m Hm).
  rewrite (bind_ok _ _ _ _ _ (print_top_run g rg w Hrg)).
  rewrite (bind_ok _ _ _ _ _ (print_top_run m rm w Hrm)).
  apply String.eqb_eq in Hid. rewrite Hid. reflexivity.
Qed.

Lemma score_fallback_groq (g m : ScoredPaper) :
  (total_score m <=? total_score g)%float = true ->
  score_fallback g m = fallback_decision "groq".
Proof. intros H. unfold score_fallback. rewrite H. reflexivity. Qed.

Lemma score_fallback_gemini (g m : ScoredPaper) :
  (total_score g <? total_score m)%float = true ->
  score_fallback g m = fallback_decision "gemini".
Proof.
  intros H. unfold score_fallback. rewrite (ltb_antisym _ _ H). reflexivity.
Qed.

(** C2: in a debate between distinct candidates whose adjudication call
    fails (the client raises, or the payload is missing or is not JSON),
    the decision is the fallback one: it selects the candidate with the
    strictly higher total score, with confidence "medium" and the fixed
    reasoning "Selected based on higher score after debate error.", and
    the selection returned carries that candidate's paper. *)
Theorem failed_adjudication_selects_higher_score
        (groq_papers gemini_papers : list ScoredPaper)
        (g m : ScoredPaper) (rg rm : string) (w : world) :
  item groq_papers 0 = Ok g ->
  item gemini_papers 0 = Ok m ->
  reasoning_text g rg ->
  reasoning_text m rm ->
  arxiv_id (paper g) <> arxiv_id (paper m) ->
  adjudication_fails json_loads
    (third_reply backend g m rg rm (length (calls w))) ->
  forall (winner : ScoredPaper) (label : string),
    ((total_score m <? total_score g)%float = true
     /\ winner = g /\ label = "groq")
    \/ ((total_score g <? total_score m)%float = true
        /\ winner = m /\ label = "gemini") ->
    exists sel w',
      select_final_paper json_loads py_repr backend groq_papers gemini_papers w
      = (Ok sel, w')
      /\ selected_paper sel = winner
      /\ final_decision sel
         = Some (JObj [ ("selected", JStr label);
                        ("reasoning",
                         JStr "Selected based on higher score after debate error.");
                        ("confidence", JStr "medium") ]).
Proof.
  intros Hg Hm Hrg Hrm Hid Hf winner label Hw.
  rewrite (debate_run _ _ g m rg rm w Hg Hm Hrg Hrm Hid). cbv zeta.
  rewrite (verdict_failed _ _ _ Hf).
  destruct Hw as [(Hlt & -> & ->) | (Hlt & -> & ->)].
  - rewrite (score_fallback_groq g m (ltb_leb _ _ Hlt)).
    eexists. eexists. split; [reflexivity |]. split; reflexivity.
  - rewrite (score_fallback_gemini g m Hlt).
    eexists. eexists. split; [reflexivity |]. split; reflexivity.
Qed.

(** C7: when the adjudication call fails and the two total scores are
    equal, [_make_final_decision] returns the fallback decision that
    selects "groq". *)
Theorem tie_favours_groq (g m : ScoredPaper) (a1 a2 : string) (w : world) :
  adjudication_fails json_loads
    (backend (length (calls w)) (decision_prompt g m a1 a2)) ->
  (total_score g =? total_score m)%float = true ->
  _make_final_decision json_loads backend g m a1 a2 w
  = (Ok (JObj [ ("selected", JStr "groq");
                ("reasoning",
                 JStr "Selected based on higher score after debate error.");
                ("confidence", JStr "medium") ]),
     sent (decision_prompt g m a1 a2) w).
Proof.
  intros Hf Heq. rewrite make_final_decision_run. cbv zeta.
  rewrite (verdict_failed _ _ _ Hf).
  rewrite score_fallback_groq; [reflexivity |].
  apply eqb_leb. rewrite eqb_sym. exact Heq.
Qed.

(** C9: in a debate between distinct candidates, a round whose evaluator
    call fails ends with the fixed fallback sentence followed by the
    reasoning of that round's own candidate; exactly one request is sent
    per round, so nothing is retried; and the debate goes on: the
    following requests are sent, the fallback text is what the next prompt
    and the conversation context carry, and whenever the decision has the
    Decision shape the three-turn transcript is returned. *)
Theorem failed_round_falls_back (groq_papers gemini_papers : list ScoredPaper)
        (g m : ScoredPaper) (rg rm : string) (w : world) :
  item groq_papers 0 = Ok g ->
  item gemini_papers 0 = Ok m ->
  reasoning_text g rg ->
  reasoning_text m rm ->
  arxiv_id (paper g) <> arxiv_id (paper m) ->
  let n := length (calls w) in
  let p1 := first_request g m rg in
  let a1 := first_argument backend g m rg n in
  let p2 := second_request backend g m rg rm n in
  let a2 := second_argument backend g m rg rm n in
  let p3 := third_request backend g m rg rm n in
  let d := verdict json_loads (backend (S (S n)) p3) g m in
  (call_fails (backend n p1) ->
   a1 = ("I believe my paper is superior due to " ++ rg)%string)
  /\ (call_fails (backend (S n) p2) ->
      a2 = ("My paper is superior because " ++ rm)%string)
  /\ p2 = GeminiCaseRequest a1 (title (paper g)) (title (paper m))
                            (total_score m) (JStr rm)
  /\ p3 = decision_prompt g m a1 a2
  /\ exists out,
       select_final_paper json_loads py_repr backend groq_papers gemini_papers w
       = (out, debated p1 p2 p3 a1 a2 w)
       /\ (is_Decision d = true ->
           exists sel,
             out = Ok sel
             /\ selection_method sel = "debate"
             /\ debate_history sel = transcript a1 a2 d).
Proof.
  intros Hg Hm Hrg Hrm Hid n p1 a1 p2 a2 p3 d.
  split; [| split; [| split; [| split]]].
  - intros Hf. subst a1. unfold first_argument. fold p1.
    destruct Hf; reflexivity.
  - intros Hf. subst a2. unfold second_argument. fold p2.
    destruct Hf; reflexivity.
  - reflexivity.
  - reflexivity.
  - eexists. split.
    + apply (debate_run _ _ g m rg rm w Hg Hm Hrg Hrm Hid).
    + intros HD. cbv zeta.
      destruct (conclude_Decision g m a1 a2 d HD) as (chosen & _ & Hc).
      eexists. split; [exact Hc |]. split; reflexivity.
Qed.

(** C10: once a debate has its decision, the paper returned is Groq's
    candidate when the ['selected'] entry of the decision is exactly the
    string "groq", and Gemini's candidate for every other value of that
    entry, "gemini" or not. *)
Theorem only_groq_label_selects_groq
        (groq_papers gemini_papers : list ScoredPaper)
        (g m : ScoredPaper) (rg rm : string) (w : world) :
  item groq_papers 0 = Ok g ->
  item gemini_papers 0 = Ok m ->
  reasoning_text g rg ->
  reasoning_text m rm ->
  arxiv_id (paper g) <> arxiv_id (paper m) ->
  let d := verdict json_loads
             (third_reply backend g m rg rm (length (calls w))) g m in
  forall chosen reason shown : json,
    subscript d "selected" = Ok chosen ->
    subscript d "reasoning" = Ok reason ->
    slice_to 200 reason = Ok shown ->
    exists sel w',
      select_final_paper json_loads py_repr backend groq_papers gemini_papers w
      = (Ok sel, w')
      /\ final_decision sel = Some d
      /\ (chosen = JStr "groq" -> selected_paper sel = g)
      /\ (chosen <> JStr "groq" -> selected_paper sel = m).
Proof.
  intros Hg Hm Hrg Hrm Hid d chosen reason shown Hs Hr Hsl.
  rewrite (debate_run _ _ g m rg rm w Hg Hm Hrg Hrm Hid). cbv zeta.
  fold d. rewrite (conclude_ok _ _ _ _ _ _ _ _ Hs Hr Hsl).
  eexists. eexists. split; [reflexivity |]. cbn [final_decision selected_paper].
  split; [reflexivity |]. split.
  - intros ->. reflexivity.
  - intros Hne. destruct (eq_str chosen "groq") eqn:E; [| reflexivity].
    apply eq_str_spec in E. contradiction.
Qed.

(** ** The ranking of a scoring round *)

Lemma sort_desc_perm (l : list ScoredPaper) : Permutation l (sort_desc l).
Proof. apply list_sort_reverse_perm. Qed.

Lemma sort_desc_length (l : list ScoredPaper) :
  length (sort_desc l) = length l.
Proof. symmetry. apply Permutation_length, sort_desc_perm. Qed.

(** On totals that are not NaN, [<] is asymmetric and [>=], its negation,
    is transitive: what the sort needs to put a list in order. *)
Lemma total_lt_asym (a b : ScoredPaper) :
  not_nan (total_score a) -> not_nan (total_score b) ->
  (total_score a <? total_score b)%float = true ->
  (total_score b <? total_score a)%float = false.
Proof.
  intros Ha Hb H. rewrite (ltb_leb_total _ _ Hb Ha), (ltb_leb _ _ H).
  reflexivity.
Qed.

Lemma total_le_trans (a b c : ScoredPaper) :
  not_nan (total_score a) -> not_nan (total_score b) ->
  not_nan (total_score c) ->
  (total_score b <? total_score a)%float = false ->
  (total_score c <? total_score b)%float = false ->
  (total_score c <? total_score a)%float = false.
Proof.
  intros Ha Hb Hc.
  rewrite (ltb_leb_total _ _ Hb Ha), (ltb_leb_total _ _ Hc Hb),
    (ltb_leb_total _ _ Hc Ha), !negb_false_iff.
  intros Hab Hbc. exact (leb_trans _ _ _ Hab Hbc).
Qed.

Lemma total_same_class (k : float) (a b : ScoredPaper) :
  not_nan (total_score a) -> not_nan (total_score b) ->
  (total_score a =? k)%float = true ->
  (total_score b =? k)%float = true ->
  (total_score a <? total_score b)%float = false.
Proof.
  intros _ _ Ha Hb. apply ltb_irrefl_eqb.
  apply (eqb_trans _ k); [exact Ha |]. rewrite eqb_sym. exact Hb.
Qed.

Lemma sorted_weaken {A} (P : A -> Prop) (R R' : A -> A -> Prop) (l : list A) :
  Forall P l ->
  (forall a b, P a -> P b -> R a b -> R' a b) ->
  StronglySorted R l -> StronglySorted R' l.
Proof.
  intros HP Himp Hs. induction Hs as [| x l Hs IH Hx]; constructor.
  - apply IH. inversion HP; assumption.
  - inversion HP as [| ? ? Px Pl]; subst.
    rewrite Forall_forall in *. intros y Hy. apply Himp; auto.
Qed.

Lemma sort_desc_sorted (l : list ScoredPaper) :
  Forall (fun sp => not_nan (total_score sp)) l ->
  StronglySorted score_ge (sort_desc l).
Proof.
  intros Hok.
  apply (sorted_weaken (fun sp => not_nan (total_score sp))
           (desc (fun x y => (total_score x <? total_score y)%float))).
  - eapply Permutation_Forall; [apply sort_desc_perm | exact Hok].
  - unfold desc, score_ge. intros a b Ha Hb.
    rewrite (ltb_leb_total _ _ Ha Hb), negb_false_iff. trivial.
  - apply (list_sort_reverse_sorted _ (fun sp => not_nan (total_score sp))
             total_lt_asym total_le_trans l Hok).
Qed.

(** Sorting leaves the papers of every score in their order. *)
Lemma with_score_sort (k : float) (l : list ScoredPaper) :
  Forall (fun sp => not_nan (total_score sp)) l ->
  with_score k (sort_desc l) = with_score k l.
Proof.
  intros Hok. unfold with_score, sort_desc.
  apply (list_sort_reverse_stable _ (fun sp => not_nan (total_score sp))
           total_lt_asym total_le_trans
           (fun sp => (total_score sp =? k)%float) (total_same_class k) l Hok).
Qed.

Lemma filter_all {A} (f : A -> bool) (l : list A) :
  Forall (fun x => f x = true) l -> filter f l = l.
Proof.
  induction 1 as [| x l Hx _ IH]; cbn [filter]; [reflexivity |].
  rewrite Hx, IH. reflexivity.
Qed.

(** A list whose totals all equal one number is left as it is. *)
Lemma sort_desc_constant (k : float) (l : list ScoredPaper) :
  Forall (fun sp => (total_score sp =? k)%float = true) l ->
  sort_desc l = l.
Proof.
  intros Hall.
  assert (Hok : Forall (fun sp => not_nan (total_score sp)) l).
  { eapply Forall_impl; [| exact Hall]. cbn beta. intros sp H.
    exact (proj1 (leb_not_nan _ _ (eqb_leb _ _ H))). }
  rewrite <- (filter_all (fun sp => (total_score sp =? k)%float) (sort_desc l)).
  - fold (with_score k (sort_desc l)). rewrite (with_score_sort k l Hok).
    apply filter_all. exact Hall.
  - eapply Permutation_Forall; [apply sort_desc_perm | exact Hall].
Qed.

(** ** The scoring loops *)

Lemma score_one_groq_run (p : Paper) (w : world) :
  let req := scoring_request true "Agent A" p in
  score_one_groq json_loads backend p w
  = (Ok (entry json_loads fenced_body p (backend (length (calls w)) req)),
     sent req w).
Proof.
  intros req. unfold score_one_groq, try_except, entry, evaluation.
  fold req. unfold bind at 1. rewrite call_run.
  destruct (reply_content (backend (length (calls w)) req)) as [content | e];
    cbn [rbind]; [| reflexivity].
  unfold bind, lift, ret.
  destruct (fenced_body content) as [text | e]; cbn [rbind]; [| reflexivity].
  destruct (json_loads text) as [parsed | e]; cbn [rbind]; [| reflexivity].
  destruct (weighted_score SCORING_WEIGHTS parsed); reflexivity.
Qed.

Lemma score_one_gemini_run (p : Paper) (w : world) :
  let req := scoring_request false "Agent B" p in
  score_one_gemini json_loads backend p w
  = (Ok (entry json_loads stripped p (backend (length (calls w)) req)),
     sent req w).
Proof.
  intros req. unfold score_one_gemini, try_except, entry, evaluation.
  fold req. unfold bind at 1. rewrite call_run.
  destruct (reply_content (backend (length (calls w)) req)) as [content | e];
    cbn [rbind]; [| reflexivity].
  unfold bind, lift, ret.
  destruct (stripped content) as [text | e]; cbn [rbind]; [| reflexivity].
  destruct (json_loads text) as [parsed | e]; cbn [rbind]; [| reflexivity].
  destruct (weighted_score SCORING_WEIGHTS parsed); reflexivity.
Qed.

Lemma sent_all_cons (req : request) (reqs : list request) (w : world) :
  sent_all reqs (sent req w) = sent_all (req :: reqs) w.
Proof.
  unfold sent_all, sent. cbn [calls conversation_context].
  rewrite <- app_assoc. reflexivity.
Qed.

Lemma score_loop_groq_run (papers : list Paper) :
  forall (scored_papers : list ScoredPaper) (w : world),
    score_loop_groq json_loads backend papers scored_papers w
    = (Ok (scored_papers
             ++ entries json_loads backend fenced_body true "Agent A"
                  (length (calls w)) papers),
       sent_all (map (scoring_request true "Agent A") papers) w).
Proof.
  induction papers as [| p rest IH]; intros acc w.
  - cbn. rewrite app_nil_r. unfold ret, sent_all. rewrite app_nil_r.
    destruct w; reflexivity.
  - cbn [score_loop_groq entries map].
    rewrite (bind_ok _ _ _ _ _ (score_one_groq_run p w)).
    rewrite IH, calls_sent, sent_all_cons, <- app_assoc. reflexivity.
Qed.

Lemma score_loop_gemini_run (papers : list Paper) :
  forall (scored_papers : list ScoredPaper) (w : world),
    score_loop_gemini json_loads backend papers scored_papers w
    = (Ok (scored_papers
             ++ entries json_loads backend stripped false "Agent B"
                  (length (calls w)) papers),
       sent_all (map (scoring_request false "Agent B") papers) w).
Proof.
  induction papers as [| p rest IH]; intros acc w.
  - cbn. rewrite app_nil_r. unfold ret, sent_all. rewrite app_nil_r.
    destruct w; reflexivity.
  - cbn [score_loop_gemini entries map].
    rewrite (bind_ok _ _ _ _ _ (score_one_gemini_run p w)).
    rewrite IH, calls_sent, sent_all_cons, <- app_assoc. reflexivity.
Qed.

Lemma score_with_groq_run (papers : list Paper) (w : world) :
  score_with_groq json_loads backend papers w
  = (Ok (sort_desc (entries json_loads backend fenced_body true "Agent A"
                      (length (calls w)) papers)),
     sent_all (map (scoring_request true "Agent A") papers) w).
Proof.
  unfold score_with_groq.
  rewrite (bind_ok _ _ _ _ _ (score_loop_groq_run papers [] w)). reflexivity.
Qed.

Lemma score_with_gemini_run (papers : list Paper) (w : world) :
  score_with_gemini json_loads backend papers w
  = (Ok (sort_desc (entries json_loads backend stripped false "Agent B"
                      (length (calls w)) papers)),
     sent_all (map (scoring_request false "Agent B") papers) w).
Proof.
  unfold score_with_gemini.
  rewrite (bind_ok _ _ _ _ _ (score_loop_gemini_run papers [] w)). reflexivity.
Qed.

Lemma entries_length body_of groq agent_name (papers : list Paper) :
  forall k,
    length (entries json_loads backend body_of groq agent_name k papers)
    = length papers.
Proof.
  induction papers as [| p rest IH]; intros k; cbn [entries length];
    [reflexivity | now rewrite IH].
Qed.

(** Entry number [i] is made from paper number [i] and from the reply to
    that paper's own request, and from nothing else. *)
Lemma entries_nth (replies : nat -> request -> reply) body_of groq agent_name
      (papers : list Paper) :
  forall (k i : nat) (p : Paper),
    nth_error papers i = Some p ->
    nth_error (entries json_loads replies body_of groq agent_name k papers) i
    = Some (entry json_loads body_of p
              (replies (k + i) (scoring_request groq agent_name p))).
Proof.
  induction papers as [| q rest IH]; intros k i p H.
  - destruct i; discriminate.
  - destruct i as [| i]; cbn [nth_error entries] in *.
    + injection H as ->. rewrite Nat.add_0_r. reflexivity.
    + rewrite (IH (S k) i p H). replace (S k + i) with (k + S i) by lia.
      reflexivity.
Qed.

(** Changing the reply to one paper's request changes no other entry. *)
Lemma entries_elsewhere (other : nat -> request -> reply) body_of groq
      agent_name (papers : list Paper) (k i j : nat) (p : Paper) :
  (forall c req, c <> k + i -> other c req = backend c req) ->
  j <> i ->
  nth_error papers j = Some p ->
  nth_error (entries json_loads other body_of groq agent_name k papers) j
  = nth_error (entries json_loads backend body_of groq agent_name k papers) j.
Proof.
  intros Hsame Hj Hp.
  rewrite (entries_nth other _ _ _ _ _ _ _ Hp).
  rewrite (entries_nth backend _ _ _ _ _ _ _ Hp).
  rewrite Hsame by lia. reflexivity.
Qed.

(** ** The weighted total *)

Lemma float_of_int_raises (z : Z) (e : exn) :
  float_of_int z = Raise e ->
  e = OverflowError "int too large to convert to float".
Proof.
  unfold float_of_int.
  destruct (binary_normalize prec emax z 0 false); intros H;
    try discriminate; injection H as <-; reflexivity.
Qed.

Lemma times_number (x : json) (f weight : float) :
  criterion_number x = Some f -> times x weight = Ok (f * weight)%float.
Proof.
  destruct x; cbn [criterion_number times]; try discriminate.
  - intros H. injection H as <-. reflexivity.
  - destruct (float_of_int z); [| discriminate].
    intros H. injection H as <-. reflexivity.
  - intros H. injection H as <-. reflexivity.
Qed.

Lemma times_no_number (x : json) (weight : float) :
  criterion_number x = None ->
  exists e, times x weight = Raise e
            /\ ((exists msg, e = TypeError msg)
                \/ (exists msg, e = OverflowError msg)).
Proof.
  destruct x; cbn [criterion_number times]; try discriminate;
    try (intros _; eexists; split; [reflexivity | left; eexists; reflexivity]).
  destruct (float_of_int z) eqn:E; [discriminate |]. intros _.
  apply float_of_int_raises in E. subst e. cbn [rbind].
  eexists. split; [reflexivity | right; eexists; reflexivity].
Qed.

(** The sum raises at the first criterion that is missing or holds no
    number. *)
Lemma weighted_sum_unusable (fields : list (string * json))
      (weights : list (string * float)) :
  (exists c, In c (map fst weights)
             /\ match dict_get c fields with
                | Some x => criterion_number x = None
                | None => True
                end) ->
  forall acc : float,
    exists e,
      weighted_sum acc weights (JObj fields) = Raise e
      /\ match e with
         | KeyError c => In c (map fst weights)
         | TypeError _ | OverflowError _ => True
         | _ => False
         end.
Proof.
  induction weights as [| [c0 w0] rest IH]; intros (c & Hin & Hc) acc.
  - destruct Hin.
  - cbn [weighted_sum subscript].
    destruct (dict_get c0 fields) as [x |] eqn:E0; cbn [rbind].
    + destruct (criterion_number x) as [f |] eqn:Ex.
      * rewrite (times_number x f w0 Ex). cbn [rbind].
        assert (Hrest : In c (map fst rest)).
        { destruct Hin as [<- | Hin]; [| exact Hin].
          cbn [fst] in Hc. rewrite E0 in Hc. congruence. }
        destruct (IH (ex_intro _ c (conj Hrest Hc)) (acc + f * w0)%float)
          as (e & He & Hk).
        exists e. split; [exact He |].
        destruct e; try exact Hk. right. exact Hk.
      * destruct (times_no_number x w0 Ex) as (e & He & [[msg ->] | [msg ->]]);
          rewrite He; cbn [rbind]; eexists; (split; [reflexivity | exact I]).
    + eexists. split; [reflexivity |]. left. reflexivity.
Qed.

Lemma weighted_score_unusable (parsed : json) :
  unusable parsed ->
  exists e, weighted_score SCORING_WEIGHTS parsed = Raise e
            /\ raised_by_payload e.
Proof.
  intros H. destruct parsed;
    try (eexists; split; [reflexivity | exact I]).
  exact (weighted_sum_unusable fields SCORING_WEIGHTS H 0%float).
Qed.

Lemma weighted_score_holds (parsed : json) (a b c d : float) :
  holds_scores parsed a b c d ->
  weighted_score SCORING_WEIGHTS parsed = Ok (weighted_total a b c d).
Proof.
  intros (fields & xa & xb & xc & xd & -> & Ea & Eb & Ec & Ed
          & Ha & Hb & Hc & Hd).
  unfold weighted_score, SCORING_WEIGHTS. cbn [weighted_sum subscript].
  rewrite Ea, Eb, Ec, Ed. cbn [rbind].
  rewrite (times_number _ _ _ Ha). cbn [rbind].
  rewrite (times_number _ _ _ Hb). cbn [rbind].
  rewrite (times_number _ _ _ Hc). cbn [rbind].
  rewrite (times_number _ _ _ Hd). reflexivity.
Qed.

(** Every payload is of one of the two kinds. *)
Lemma payload_cases (parsed : json) :
  unusable parsed \/ exists a b c d, holds_scores parsed a b c d.
Proof.
  destruct parsed; try (left; exact I).
  unfold unusable, holds_scores, criteria, SCORING_WEIGHTS. cbn [map fst].
  destruct (dict_get "problem_relevance" fields) as [xa |] eqn:Ea;
    [| left; exists "problem_relevance"; rewrite Ea; split;
       [left; reflexivity | exact I]].
  destruct (dict_get "dataset_quality" fields) as [xb |] eqn:Eb;
    [| left; exists "dataset_quality"; rewrite Eb; split;
       [right; left; reflexivity | exact I]].
  destruct (dict_get "model_novelty" fields) as [xc |] eqn:Ec;
    [| left; exists "model_novelty"; rewrite Ec; split;
       [right; right; left; reflexivity | exact I]].
  destruct (dict_get "real_world_impact" fields) as [xd |] eqn:Ed;
    [| left; exists "real_world_impact"; rewrite Ed; split;
       [right; right; right; left; reflexivity | exact I]].
  destruct (criterion_number xa) as [a |] eqn:Ha;
    [| left; exists "problem_relevance"; rewrite Ea; split;
       [left; reflexivity | exact Ha]].
  destruct (criterion_number xb) as [b |] eqn:Hb;
    [| left; exists "dataset_quality"; rewrite Eb; split;
       [right; left; reflexivity | exact Hb]].
  destruct (criterion_number xc) as [c |] eqn:Hc;
    [| left; exists "model_novelty"; rewrite Ec; split;
       [right; right; left; reflexivity | exact Hc]].
  destruct (criterion_number xd) as [d |] eqn:Hd;
    [| left; exists "real_world_impact"; rewrite Ed; split;
       [right; right; right; left; reflexivity | exact Hd]].
  right. exists a, b, c, d, fields, xa, xb, xc, xd.
  repeat split; assumption.
Qed.

(** ** The entry of a paper *)

Lemma entry_default body_of (p : Paper) (r : reply) (e : exn) :
  scoring_fails json_loads body_of r e ->
  entry json_loads body_of p r = default_scored p e.
Proof.
  intros H. unfold entry, evaluation.
  destruct H as [e | r c e Hc Hb | r c text e Hc Hb Hl];
    cbn [reply_content rbind]; rewrite ?Hc; cbn [rbind]; rewrite ?Hb;
    cbn [rbind]; rewrite ?Hl; reflexivity.
Qed.

Lemma entry_payload body_of (p : Paper) (r : reply) (parsed : json) :
  payload json_loads body_of r parsed ->
  entry json_loads body_of p r
  = match weighted_score SCORING_WEIGHTS parsed with
    | Ok weighted =>
        {| paper := p; scores := parsed; total_score := weighted |}
    | Raise e => default_scored p e
    end.
Proof.
  intros (content & text & Hc & Hb & Hl). unfold entry, evaluation.
  rewrite Hc. cbn [rbind]. rewrite Hb. cbn [rbind]. rewrite Hl. cbn [rbind].
  destruct (weighted_score SCORING_WEIGHTS parsed); reflexivity.
Qed.

(** C5: both scoring runs return one scored paper per input paper; the
    entry of a paper is made from that paper and from the reply to its own
    request only, so that backends which differ in the reply to one paper's
    request give every other paper the same entry.  A paper whose call
    fails, or whose response has no body or a body that is not JSON, gets
    the default entry: every criterion 5, the reasoning
    "Error during scoring: " followed by the text of the exception, the
    overall impression "Unable to score" and the total score 5.0.  So does
    a paper whose payload is not a dict or lacks a criterion or holds no
    number for one, the exception then being a [KeyError] for a criterion,
    a [TypeError] or an [OverflowError].  Every other payload holds four
    numbers, and its paper gets the payload as scores and their weighted
    total as total score. *)
Theorem scoring_isolates_failures (papers : list Paper) (w : world) :
  let n := length (calls w) in
  let groq_entries :=
    entries json_loads backend fenced_body true "Agent A" n papers in
  let gemini_entries :=
    entries json_loads backend stripped false "Agent B" n papers in
  (exists w', score_with_groq json_loads backend papers w
              = (Ok (sort_desc groq_entries), w'))
  /\ (exists w', score_with_gemini json_loads backend papers w
                 = (Ok (sort_desc gemini_entries), w'))
  /\ length (sort_desc groq_entries) = length papers
  /\ length (sort_desc gemini_entries) = length papers
  /\ (forall (i : nat) (p : Paper),
        nth_error papers i = Some p ->
        let ours := entry json_loads fenced_body p
                      (backend (n + i) (scoring_request true "Agent A" p)) in
        let theirs := entry json_loads stripped p
                        (backend (n + i) (scoring_request false "Agent B" p)) in
        nth_error groq_entries i = Some ours
        /\ In ours (sort_desc groq_entries)
        /\ nth_error gemini_entries i = Some theirs
        /\ In theirs (sort_desc gemini_entries))
  /\ (forall (other : nat -> request -> reply) (i j : nat) (p : Paper),
        (forall c req, c <> n + i -> other c req = backend c req) ->
        j <> i ->
        nth_error papers j = Some p ->
        nth_error (entries json_loads other fenced_body true "Agent A" n papers) j
        = nth_error groq_entries j
        /\ nth_error (entries json_loads other stripped false "Agent B" n papers) j
           = nth_error gemini_entries j)
  /\ (forall (body_of : option string -> result string) (p : Paper)
             (r : reply) (e : exn),
        scoring_fails json_loads body_of r e ->
        entry json_loads body_of p r
        = {| paper := p;
             scores :=
               JObj [ ("problem_relevance", JInt 5);
                      ("dataset_quality", JInt 5);
                      ("model_novelty", JInt 5);
                      ("real_world_impact", JInt 5);
                      ("reasoning",
                       JStr ("Error during scoring: " ++ exn_str e));
                      ("overall_impression", JStr "Unable to score") ];
             total_score := 5%float |})
  /\ (forall (body_of : option string -> result string) (p : Paper)
             (r : reply) (parsed : json),
        payload json_loads body_of r parsed ->
        unusable parsed ->
        exists e : exn,
          raised_by_payload e
          /\ entry json_loads body_of p r
             = {| paper := p;
                  scores :=
                    JObj [ ("problem_relevance", JInt 5);
                           ("dataset_quality", JInt 5);
                           ("model_novelty", JInt 5);
                           ("real_world_impact", JInt 5);
                           ("reasoning",
                            JStr ("Error during scoring: " ++ exn_str e));
                           ("overall_impression", JStr "Unable to score") ];
                  total_score := 5%float |})
  /\ (forall (body_of : option string -> result string) (p : Paper)
             (r : reply) (parsed : json) (a b c d : float),
        payload json_loads body_of r parsed ->
        holds_scores parsed a b c d ->
        entry json_loads body_of p r
        = {| paper := p; scores := parsed;
             total_score := weighted_total a b c d |})
  /\ (forall parsed : json,
        unusable parsed \/ exists a b c d, holds_scores parsed a b c d).
Proof.
  intros n groq_entries gemini_entries.
  split; [| split; [| split; [| split; [| split; [| split;
    [| split; [| split; [| split]]]]]]]].
  - eexists. apply score_with_groq_run.
  - eexists. apply score_with_gemini_run.
  - rewrite sort_desc_length. apply entries_length.
  - rewrite sort_desc_length. apply entries_length.
  - intros i p Hp ours theirs.
    assert (Ho : nth_error groq_entries i = Some ours)
      by (apply (entries_nth backend); exact Hp).
    assert (Ht : nth_error gemini_entries i = Some theirs)
      by (apply (entries_nth backend); exact Hp).
    repeat split; try assumption.
    + eapply Permutation_in; [apply sort_desc_perm |].
      eapply nth_error_In; exact Ho.
    + eapply Permutation_in; [apply sort_desc_perm |].
      eapply nth_error_In; exact Ht.
  - intros other i j p Hsame Hj Hp.
    split; apply (entries_elsewhere other _ _ _ _ _ i j p); assumption.
  - intros body_of p r e Hf. rewrite (entry_default _ _ _ _ Hf). reflexivity.
  - intros body_of p r parsed Hp Hu.
    destruct (weighted_score_unusable parsed Hu) as (e & He & Hk).
    exists e. split; [exact Hk |].
    rewrite (entry_payload _ p _ _ Hp), He. reflexivity.
  - intros body_of p r parsed a b c d Hp Hh.
    rewrite (entry_payload _ p _ _ Hp), (weighted_score_holds _ _ _ _ _ Hh).
    reflexivity.
  - exact payload_cases.
Qed.

(** C6: the list a scoring run returns is a permutation of the per-paper
    results; when no per-paper total is NaN it is in descending order of
    total score, and the papers of any one total score come in the order
    of the input batch. *)
Theorem scoring_ranks_stably (papers : list Paper) (w : world) :
  let n := length (calls w) in
  let groq_entries :=
    entries json_loads backend fenced_body true "Agent A" n papers in
  let gemini_entries :=
    entries json_loads backend stripped false "Agent B" n papers in
  exists (groq_out gemini_out : list ScoredPaper) (wg wm : world),
    score_with_groq json_loads backend papers w = (Ok groq_out, wg)
    /\ score_with_gemini json_loads backend papers w = (Ok gemini_out, wm)
    /\ Permutation groq_entries groq_out
    /\ Permutation gemini_entries gemini_out
    /\ (Forall (fun sp => not_nan (total_score sp)) groq_entries ->
        StronglySorted score_ge groq_out
        /\ forall k : float,
             with_score k groq_out = with_score k groq_entries)
    /\ (Forall (fun sp => not_nan (total_score sp)) gemini_entries ->
        StronglySorted score_ge gemini_out
        /\ forall k : float,
             with_score k gemini_out = with_score k gemini_entries).
Proof.
  intros n groq_entries gemini_entries.
  do 4 eexists.
  split; [apply score_with_groq_run |].
  split; [apply score_with_gemini_run |].
  split; [apply sort_desc_perm |]. split; [apply sort_desc_perm |].
  split; intros Hok;
    (split; [apply sort_desc_sorted; exact Hok |]);
    intros k; apply with_score_sort; exact Hok.
Qed.

(** ** The weighted total of integer scores *)

Lemma weighted_sum_ext (weights : list (string * float)) (s1 s2 : json) :
  (forall c, In c (map fst weights) -> subscript s1 c = subscript s2 c) ->
  forall acc, weighted_sum acc weights s1 = weighted_sum acc weights s2.
Proof.
  induction weights as [| [c wt] rest IH]; intros H acc; [reflexivity |].
  cbn [weighted_sum]. rewrite (H c (or_introl eq_refl)).
  destruct (subscript s2 c) as [x | e]; cbn [rbind]; [| reflexivity].
  destruct (times x wt) as [t | e]; cbn [rbind]; [| reflexivity].
  apply IH. intros c' Hc'. apply H. right. exact Hc'.
Qed.

(** All 10^4 score sets of integers between 1 and 10, one by one. *)
Lemma integer_totals_checked :
  forallb (fun a => forallb (fun b => forallb (fun c => forallb (fun d =>
    match weighted_score SCORING_WEIGHTS (score_set a b c d "") with
    | Ok t =>
        PrimFloat.Leibniz.eqb t (mean_of a b c d)
        && (1 <=? t)%float && (t <=? 10)%float
    | Raise _ => false
    end) one_to_ten) one_to_ten) one_to_ten) one_to_ten = true.
Proof. vm_compute. reflexivity. Qed.

Lemma in_one_to_ten (a : Z) : (1 <= a <= 10)%Z -> In a one_to_ten.
Proof.
  intros H. unfold one_to_ten. cbn [In].
  assert (a = 1 \/ a = 2 \/ a = 3 \/ a = 4 \/ a = 5 \/ a = 6 \/ a = 7
          \/ a = 8 \/ a = 9 \/ a = 10)%Z by lia.
  intuition auto.
Qed.

(** The weighted total of four integers between 1 and 10 is their mean. *)
Lemma score_set_total (a b c d : Z) :
  (1 <= a <= 10)%Z -> (1 <= b <= 10)%Z ->
  (1 <= c <= 10)%Z -> (1 <= d <= 10)%Z ->
  weighted_score SCORING_WEIGHTS (score_set a b c d "") = Ok (mean_of a b c d)
  /\ (1 <=? mean_of a b c d)%float = true
  /\ (mean_of a b c d <=? 10)%float = true.
Proof.
  intros Ha Hb Hc Hd.
  pose proof integer_totals_checked as Hall.
  rewrite forallb_forall in Hall. specialize (Hall a (in_one_to_ten a Ha)).
  rewrite forallb_forall in Hall. specialize (Hall b (in_one_to_ten b Hb)).
  rewrite forallb_forall in Hall. specialize (Hall c (in_one_to_ten c Hc)).
  rewrite forallb_forall in Hall. specialize (Hall d (in_one_to_ten d Hd)).
  cbv beta in Hall.
  destruct (weighted_score SCORING_WEIGHTS (score_set a b c d "")) as [t | e];
    [| discriminate].
  apply andb_prop in Hall as [Hall Hhi]. apply andb_prop in Hall as [Heq Hlo].
  apply FloatAxioms.Leibniz.eqb_spec in Heq. subst t. repeat split; assumption.
Qed.

(** The weighted total looks at the four criteria only. *)
Lemma integer_scores_total (scores : json) (a b c d : Z) :
  subscript scores "problem_relevance" = Ok (JInt a) ->
  subscript scores "dataset_quality" = Ok (JInt b) ->
  subscript scores "model_novelty" = Ok (JInt c) ->
  subscript scores "real_world_impact" = Ok (JInt d) ->
  weighted_score SCORING_WEIGHTS scores
  = weighted_score SCORING_WEIGHTS (score_set a b c d "").
Proof.
  intros Ea Eb Ec Ed.
  apply weighted_sum_ext. intros k Hk. cbn in Hk.
  destruct Hk as [<- | [<- | [<- | [<- | []]]]];
    [rewrite Ea | rewrite Eb | rewrite Ec | rewrite Ed]; reflexivity.
Qed.

(** C8: under the configured weights (0.25 each), a score set that holds
    an integer between 1 and 10 for every criterion has a weighted total:
    it is the mean of the four scores, without rounding, and lies between
    1 and 10. *)
Theorem weighted_total_in_range (scores : json) (a b c d : Z) :
  subscript scores "problem_relevance" = Ok (JInt a) ->
  subscript scores "dataset_quality" = Ok (JInt b) ->
  subscript scores "model_novelty" = Ok (JInt c) ->
  subscript scores "real_world_impact" = Ok (JInt d) ->
  (1 <= a <= 10)%Z -> (1 <= b <= 10)%Z ->
  (1 <= c <= 10)%Z -> (1 <= d <= 10)%Z ->
  exists t : float,
    weighted_score SCORING_WEIGHTS scores = Ok t
    /\ t = mean_of a b c d
    /\ (1 <=? t)%float = true
    /\ (t <=? 10)%float = true.
Proof.
  intros Ea Eb Ec Ed Ha Hb Hc Hd.
  rewrite (integer_scores_total scores a b c d Ea Eb Ec Ed).
  destruct (score_set_total a b c d Ha Hb Hc Hd) as (Ht & Hlo & Hhi).
  exists (mean_of a b c d). repeat split; assumption.
Qed.

End Properties.

(** ** Concrete runs *)

Lemma unanimous_shortcut_witness :
  select_final_paper Json.loads no_repr arbiter_down
    [scored_x] [scored_x_again] fresh
  = (Ok {| selected_paper := scored_x;
           selection_method := "unanimous";
           debate_history := [];
           final_decision := None |},
     fresh).
Proof.
  apply (unanimous_shortcut Json.loads no_repr arbiter_down
           [scored_x] [scored_x_again] scored_x scored_x_again
           "strong data" "clear gain" fresh); reflexivity.
Defined.

(** A scores higher than B and the adjudication call raises: A's paper, X,
    is returned with the fallback decision. *)
Lemma failed_adjudication_selects_higher_score_witness :
  exists sel w',
    select_final_paper Json.loads no_repr arbiter_down
      [scored_x] [scored_y] fresh
    = (Ok sel, w')
    /\ selected_paper sel = scored_x
    /\ final_decision sel
       = Some (JObj [ ("selected", JStr "groq");
                      ("reasoning",
                       JStr "Selected based on higher score after debate error.");
                      ("confidence", JStr "medium") ]).
Proof.
  apply (failed_adjudication_selects_higher_score Json.loads no_repr arbiter_down
           [scored_x] [scored_y] scored_x scored_y
           "strong data" "novel model" fresh);
    try reflexivity.
  - discriminate.
  - apply adjudication_raised.
  - left. repeat split.
Defined.

Lemma tie_favours_groq_witness :
  _make_final_decision Json.loads all_down scored_x_tied scored_y
    argument_x argument_y fresh
  = (Ok (JObj [ ("selected", JStr "groq");
                ("reasoning",
                 JStr "Selected based on higher score after debate error.");
                ("confidence", JStr "medium") ]),
     sent (decision_prompt scored_x_tied scored_y argument_x argument_y) fresh).
Proof.
  apply (tie_favours_groq Json.loads all_down scored_x_tied scored_y).
  - apply adjudication_raised.
  - reflexivity.
Defined.

Lemma weighted_total_in_range_witness :
  exists t : float,
    weighted_score SCORING_WEIGHTS (scores scored_x) = Ok t
    /\ t = mean_of 9 8 8 9
    /\ (1 <=? t)%float = true
    /\ (t <=? 10)%float = true.
Proof.
  apply (weighted_total_in_range (scores scored_x) 9 8 8 9);
    first [reflexivity | lia].
Defined.

(** A payload that is valid JSON but names none of the criteria: the paper
    gets the default entry, with the [KeyError] of the first criterion. *)
Lemma scoring_isolates_failures_witness :
  exists e : exn,
    raised_by_payload e
    /\ entry Json.loads fenced_body paper_x (Text wrong_shape_text)
       = {| paper := paper_x;
            scores :=
              JObj [ ("problem_relevance", JInt 5);
                     ("dataset_quality", JInt 5);
                     ("model_novelty", JInt 5);
                     ("real_world_impact", JInt 5);
                     ("reasoning",
                      JStr ("Error during scoring: " ++ exn_str e));
                     ("overall_impression", JStr "Unable to score") ];
            total_score := 5%float |}.
Proof.
  destruct (scoring_isolates_failures Json.loads all_down [] fresh)
    as (_ & _ & _ & _ & _ & _ & _ & Hunusable & _).
  apply (Hunusable fenced_body paper_x (Text wrong_shape_text)
           (JObj [("winner", JStr "groq")])).
  - exists (Some wrong_shape_text), wrong_shape_text.
    repeat split; vm_compute; reflexivity.
  - exists "problem_relevance". split; [left; reflexivity | exact I].
Defined.

(** Three papers rated 7, 9 and 7 throughout: the second comes first, and
    the other two follow in the order of the batch. *)
Lemma scoring_ranks_stably_witness :
  exists out w',
    score_with_groq Json.loads seven_nine_seven
      [paper_x; paper_y; paper_named "C" "2501.00013v1"] fresh
    = (Ok out, w')
    /\ map (fun sp => title (paper sp)) out = ["Y"; "X"; "C"]
    /\ StronglySorted score_ge out
    /\ map (fun sp => title (paper sp)) (with_score 7 out) = ["X"; "C"].
Proof.
  destruct (scoring_ranks_stably Json.loads seven_nine_seven
              [paper_x; paper_y; paper_named "C" "2501.00013v1"] fresh)
    as (out & _ & wg & _ & Hrun & _ & _ & _ & Hsorted & _).
  assert (Hok : Forall (fun sp => not_nan (total_score sp))
                  (entries Json.loads seven_nine_seven fenced_body true
                     "Agent A" (length (calls fresh))
                     [paper_x; paper_y; paper_named "C" "2501.00013v1"])).
  { vm_compute. repeat constructor. }
  destruct (Hsorted Hok) as (Hs & Hstable).
  exists out, wg. split; [exact Hrun |].
  split; [vm_compute in Hrun; injection Hrun as <- _; reflexivity |].
  split; [exact Hs |].
  rewrite Hstable. reflexivity.
Defined.

(** C3 fails without the reasoning text: both scoring loops take a payload
    with the four criteria and no reasoning as it is, total 8.0; when such
    a paper is at the top of both lists, [select_final_paper] raises
    [KeyError] at its first print and returns no selection. *)
Theorem unanimous_without_reasoning_raises :
  entry Json.loads fenced_body paper_x (Text eights_payload) = scored_bare
  /\ entry Json.loads stripped paper_x (Text eights_payload) = scored_bare
  /\ item [scored_bare] 0 = Ok scored_bare
  /\ select_final_paper Json.loads no_repr all_down
       [scored_bare] [scored_bare] fresh
     = (Raise (KeyError "reasoning"), fresh).
Proof. repeat split; vm_compute; reflexivity. Qed.

(** C6 fails when a total is NaN: of four papers, the first gets the
    default total 5.0, the second a total that is NaN, the third 9.0 and the
    fourth 7.0.  The run returns them in the order of the batch: 5.0 comes
    before 9.0, so the list is not in descending order. *)
Theorem nan_total_leaves_batch_unsorted :
  let per_paper :=
    entries Json.loads one_total_is_nan fenced_body true "Agent A" 0
      batch_of_four in
  map total_score per_paper = [5; nan; 9; 7]%float
  /\ map (fun sp => title (paper sp)) per_paper = ["A"; "B"; "C"; "D"]
  /\ fst (score_with_groq Json.loads one_total_is_nan batch_of_four fresh)
     = Ok per_paper
  /\ ~ StronglySorted score_ge per_paper.
Proof.
  cbv zeta.
  split; [vm_compute; reflexivity |].
  split; [vm_compute; reflexivity |].
  split; [vm_compute; reflexivity |].
  intros H.
  assert (Hall : forall a b rest,
             StronglySorted score_ge (a :: b :: rest) ->
             forall c, nth_error rest 0 = Some c -> score_ge a c).
  { intros a b rest Hs c Hc. apply StronglySorted_inv in Hs as [_ Hf].
    rewrite Forall_forall in Hf. apply Hf. right.
    destruct rest; [discriminate |]. injection Hc as ->. left. reflexivity. }
  vm_compute in H.
  specialize (Hall _ _ _ H _ eq_refl). vm_compute in Hall. discriminate.
Qed.

(** C8 fails for weights that are not the configured ones.  The weights 0.03, 0.06, 0.88 and 0.03, as floats, sum to 1, in
    floating point and without rounding, and so do, in floating point, the
    weights 0.1, 0.14, 0.23 and 0.53; under both a score set of four tens
    has the total 10.000000000000002, which is above 10. *)
Theorem uneven_weights_exceed_ten :
  (sum_of_weights uneven_weights =? 1)%float = true
  /\ fold_right (fun cw acc => (units (snd cw) + acc)%Z) 0%Z uneven_weights
     = units 1%float
  /\ (sum_of_weights decimal_weights =? 1)%float = true
  /\ weighted_score uneven_weights (score_set 10 10 10 10 "")
     = Ok 0x1.4000000000001p+3%float
  /\ weighted_score decimal_weights (score_set 10 10 10 10 "")
     = Ok 0x1.4000000000001p+3%float
  /\ (0x1.4000000000001p+3 <=? 10)%float = false
  /\ (10 <? 0x1.4000000000001p+3)%float = true.
Proof. repeat split; vm_compute; reflexivity. Qed.


Lemma failed_round_falls_back_witness :
  first_argument agents_down scored_x scored_y "strong data" 0
  = "I believe my paper is superior due to strong data"
  /\ second_argument agents_down scored_x scored_y "strong data" "novel model" 0
     = "My paper is superior because novel model".
Proof.
  pose proof (failed_round_falls_back Json.loads no_repr agents_down
                [scored_x] [scored_y] scored_x scored_y
                "strong data" "novel model" fresh
                eq_refl eq_refl eq_refl eq_refl) as H.
  cbv zeta in H. destruct H as (H1 & H2 & _).
  - discriminate.
  - split; [apply H1 | apply H2].
    + apply call_raised.
    + apply call_without_text.
Defined.

Lemma only_groq_label_selects_groq_witness :
  exists sel w',
    select_final_paper Json.loads no_repr arbiter_misspells
      [scored_x] [scored_y] fresh
    = (Ok sel, w')
    /\ selected_paper sel = scored_y.
Proof.
  destruct (only_groq_label_selects_groq Json.loads no_repr arbiter_misspells
              [scored_x] [scored_y] scored_x scored_y
              "strong data" "novel model" fresh
              eq_refl eq_refl eq_refl eq_refl)
    with (chosen := JStr "grok") (reason := JStr "X is easier to build.")
         (shown := JStr "X is easier to build.")
    as (sel & w' & Hrun & _ & _ & Hm); try reflexivity.
  - discriminate.
  - exists sel, w'. split; [exact Hrun |]. apply Hm. discriminate.
Defined.

(** ** Where the adjudication is not checked *)

(** C1: the arbiter answers with the JSON text [{"winner": "groq"}].  The
    adjudication step does not raise, but what it returns is the parsed
    value as it is: neither a value of the Decision shape nor one of the
    two fallback decisions. *)
Theorem wrong_shape_decision_is_returned :
  _make_final_decision Json.loads arbiter_wrong_shape scored_x scored_y
    argument_x argument_y fresh
  = (Ok (JObj [("winner", JStr "groq")]),
     sent (decision_prompt scored_x scored_y argument_x argument_y) fresh)
  /\ is_Decision (JObj [("winner", JStr "groq")]) = false
  /\ JObj [("winner", JStr "groq")] <> fallback_decision "groq"
  /\ JObj [("winner", JStr "groq")] <> fallback_decision "gemini".
Proof.
  split; [vm_compute; reflexivity |].
  split; [reflexivity |].
  split; discriminate.
Qed.

(** C4: the two top papers differ, both agents argue, and the arbiter
    answers inside a fenced block with a JSON object that calls its first
    key ['choice'] instead of ['selected'].  [select_final_paper] sends its
    three requests and then raises [KeyError] on ['selected']: no selection,
    no transcript and no decision are returned. *)
Theorem debate_raises_on_renamed_key :
  exists w',
    select_final_paper Json.loads no_repr arbiter_renames_key
      [scored_x] [scored_y] fresh
    = (Raise (KeyError "selected"), w')
    /\ length (calls w') = 3.
Proof.
  eexists. split; [vm_compute; reflexivity | reflexivity].
Qed.

(** * Beyond the debate: the callers and further properties of the engine *)

Section Further.

Variable json_loads : string -> result json.
Variable py_repr : json -> string.
Variable backend : nat -> request -> reply.

Lemma append_nil_r (s : string) : (s ++ EmptyString)%string = s.
Proof. induction s as [| c s IH]; [reflexivity | cbn; now rewrite IH]. Qed.

Lemma append_assoc (s t u : string) :
  ((s ++ t) ++ u)%string = (s ++ (t ++ u))%string.
Proof. induction s as [| c s IH]; [reflexivity | cbn; now rewrite IH]. Qed.

(** ** Splitting the batch *)

(** The two halves of [split_papers] put end to end are the batch, Groq's
    half has [len // 2] papers, and Gemini's half has as many or one more. *)
Theorem split_papers_balanced (papers : list Paper) :
  let '(groq_papers, gemini_papers) := split_papers papers in
  groq_papers ++ gemini_papers = papers
  /\ length groq_papers = length papers / 2
  /\ length groq_papers + length gemini_papers = length papers
  /\ length groq_papers <= length gemini_papers <= S (length groq_papers).
Proof.
  unfold split_papers. cbv zeta.
  set (mid := length papers / 2).
  assert (Hmid : 2 * mid <= length papers /\ length papers <= 2 * mid + 1).
  { subst mid. pose proof (Nat.div_mod_eq (length papers) 2) as H.
    pose proof (Nat.mod_upper_bound (length papers) 2). lia. }
  rewrite firstn_skipn, length_firstn, length_skipn. repeat split; lia.
Qed.

Lemma split_papers_balanced_parts (papers : list Paper) :
  fst (split_papers papers) ++ snd (split_papers papers) = papers.
Proof. unfold split_papers. cbn [fst snd]. apply firstn_skipn. Qed.

(** ** [select_final_paper] on any input *)

Lemma bind_lift_raise {A B} (e : exn) (k : A -> M B) (w : world) :
  bind (lift (Raise e)) k w = (Raise e, w).
Proof. reflexivity. Qed.

Lemma print_top_cases (top : ScoredPaper) (w : world) :
  print_top top w
  = (match rbind (reasoning_of top) (slice_to 100) with
     | Ok _ => Ok tt
     | Raise e => Raise e
     end, w).
Proof.
  unfold print_top, bind, lift, ret.
  destruct (reasoning_of top) as [r | e]; cbn [rbind]; [| reflexivity].
  destruct (slice_to 100 r); reflexivity.
Qed.

(** The run of a debate whatever JSON value the ['reasoning'] entries hold,
    as long as the [print] calls can slice them. *)
Lemma debate_run_any (groq_papers gemini_papers : list ScoredPaper)
      (g m : ScoredPaper) (rg rm sg sm : json) (w : world) :
  item groq_papers 0 = Ok g ->
  item gemini_papers 0 = Ok m ->
  reasoning_of g = Ok rg -> slice_to 100 rg = Ok sg ->
  reasoning_of m = Ok rm -> slice_to 100 rm = Ok sm ->
  arxiv_id (paper g) <> arxiv_id (paper m) ->
  let n := length (calls w) in
  let p1 := GroqCaseRequest (title (paper g)) (total_score g) rg
                            (title (paper m)) (total_score m) in
  let a1 := round_argument (backend n p1)
              ("I believe my paper is superior due to " ++ py_str py_repr rg) in
  let p2 := GeminiCaseRequest a1 (title (paper g)) (title (paper m))
                              (total_score m) rm in
  let a2 := round_argument (backend (S n) p2)
              ("My paper is superior because " ++ py_str py_repr rm) in
  let p3 := decision_prompt g m a1 a2 in
  let d := verdict json_loads (backend (S (S n)) p3) g m in
  select_final_paper json_loads py_repr backend groq_papers gemini_papers w
  = (conclude g m a1 a2 d, debated p1 p2 p3 a1 a2 w).
Proof.
  intros Hg Hm Hrg Hsg Hrm Hsm Hid. cbv zeta.
  unfold select_final_paper.
  rewrite (lift_bind _ _ _ g Hg), (lift_bind _ _ _ m Hm).
  unfold bind at 1. rewrite print_top_cases, Hrg. cbn [rbind]. rewrite Hsg.
  unfold bind at 1. rewrite print_top_cases, Hrm. cbn [rbind]. rewrite Hsm.
  apply String.eqb_neq in Hid. rewrite Hid.
  unfold bind at 1. cbn [clear_context].
  set (w0 := {| calls := calls w; conversation_context := [] |}).
  rewrite (bind_ok _ _ _ _ _
             (groq_present_case_run py_repr backend g m rg w0 Hrg)).
  change (length (calls w0)) with (length (calls w)).
  unfold bind at 1. cbn [_add_to_context].
  match goal with |- bind _ _ ?w1 = _ => set (w1' := w1) end.
  rewrite (bind_ok _ _ _ _ _
             (gemini_present_case_run py_repr backend m g _ rm w1' Hrm)).
  assert (Hn1 : length (calls w1') = S (length (calls w))).
  { subst w1'. cbn [calls sent w0]. rewrite length_app. simpl. lia. }
  rewrite Hn1.
  unfold bind at 1. cbn [_add_to_context].
  match goal with |- bind _ _ ?w2 = _ => set (w2' := w2) end.
  rewrite (bind_ok _ _ _ _ _
             (make_final_decision_run json_loads backend g m _ _ w2')).
  assert (Hn2 : length (calls w2') = S (S (length (calls w)))).
  { subst w2' w1'. cbn [calls sent w0]. rewrite !length_app. simpl. lia. }
  rewrite Hn2.
  match goal with
  | |- context [sent ?q w2'] =>
      match goal with
      | |- _ = (_, ?W) => replace (sent q w2') with W
      end
  end.
  2:{ subst w2' w1' w0. unfold sent, debated. cbn [calls conversation_context].
      rewrite <- !app_assoc. reflexivity. }
  unfold conclude, transcript, bind, lift, ret.
  match goal with
  | |- context [subscript ?D "selected"] =>
      destruct (subscript D "selected") as [chosen | e]; cbn [rbind];
      [| reflexivity];
      destruct (subscript D "reasoning") as [reason | e]; cbn [rbind];
      [| reflexivity]
  end.
  destruct (slice_to 200 reason); reflexivity.
Qed.

Lemma conclude_inv (g m : ScoredPaper) (a1 a2 : string) (d : json)
      (sel : Selection) :
  conclude g m a1 a2 d = Ok sel ->
  (selected_paper sel = g \/ selected_paper sel = m)
  /\ selection_method sel = "debate"
  /\ debate_history sel = transcript a1 a2 d
  /\ final_decision sel = Some d.
Proof.
  unfold conclude.
  destruct (subscript d "selected") as [chosen | e]; cbn [rbind]; [| discriminate].
  destruct (subscript d "reasoning") as [reason | e]; cbn [rbind]; [| discriminate].
  destruct (slice_to 200 reason); cbn [rbind]; [| discriminate].
  intros H. injection H as <-. cbn.
  destruct (eq_str chosen "groq"); auto.
Qed.

(** Every way [select_final_paper] can return. *)
Lemma select_ok_inv (groq_papers gemini_papers : list ScoredPaper)
      (w w' : world) (sel : Selection) :
  select_final_paper json_loads py_repr backend groq_papers gemini_papers w
  = (Ok sel, w') ->
  exists g m,
    item groq_papers 0 = Ok g /\ item gemini_papers 0 = Ok m
    /\ ((arxiv_id (paper g) = arxiv_id (paper m)
         /\ sel = {| selected_paper := g; selection_method := "unanimous";
                     debate_history := []; final_decision := None |}
         /\ w' = w)
        \/ (arxiv_id (paper g) <> arxiv_id (paper m)
            /\ exists a1 a2 d p1 p2 p3,
                 conclude g m a1 a2 d = Ok sel
                 /\ w' = debated p1 p2 p3 a1 a2 w)).
Proof.
  intros H.
  destruct (item groq_papers 0) as [g | e] eqn:Hg.
  2:{ unfold select_final_paper in H. rewrite Hg, bind_lift_raise in H.
      discriminate. }
  destruct (item gemini_papers 0) as [m | e] eqn:Hm.
  2:{ unfold select_final_paper in H.
      rewrite Hg, (lift_bind _ _ _ g eq_refl), Hm, bind_lift_raise in H.
      discriminate. }
  exists g, m. split; [reflexivity |]. split; [reflexivity |].
  destruct (reasoning_of g) as [rg | e] eqn:Hrg.
  2:{ unfold select_final_paper in H.
      rewrite Hg, (lift_bind _ _ _ g eq_refl), Hm, (lift_bind _ _ _ m eq_refl) in H.
      unfold bind at 1 in H. rewrite print_top_cases, Hrg in H. discriminate. }
  destruct (slice_to 100 rg) as [sg | e] eqn:Hsg.
  2:{ unfold select_final_paper in H.
      rewrite Hg, (lift_bind _ _ _ g eq_refl), Hm, (lift_bind _ _ _ m eq_refl) in H.
      unfold bind at 1 in H. rewrite print_top_cases, Hrg in H. cbn [rbind] in H.
      rewrite Hsg in H. discriminate. }
  destruct (reasoning_of m) as [rm | e] eqn:Hrm.
  2:{ unfold select_final_paper in H.
      rewrite Hg, (lift_bind _ _ _ g eq_refl), Hm, (lift_bind _ _ _ m eq_refl) in H.
      unfold bind at 1 in H. rewrite print_top_cases, Hrg in H. cbn [rbind] in H.
      rewrite Hsg in H.
      unfold bind at 1 in H. rewrite print_top_cases, Hrm in H. discriminate. }
  destruct (slice_to 100 rm) as [sm | e] eqn:Hsm.
  2:{ unfold select_final_paper in H.
      rewrite Hg, (lift_bind _ _ _ g eq_refl), Hm, (lift_bind _ _ _ m eq_refl) in H.
      unfold bind at 1 in H. rewrite print_top_cases, Hrg in H. cbn [rbind] in H.
      rewrite Hsg in H.
      unfold bind at 1 in H. rewrite print_top_cases, Hrm in H. cbn [rbind] in H.
      rewrite Hsm in H. discriminate. }
  destruct (String.eqb_spec (arxiv_id (paper g)) (arxiv_id (paper m))) as [Heq | Hne].
  - left. split; [exact Heq |].
    unfold select_final_paper in H.
    rewrite Hg, (lift_bind _ _ _ g eq_refl), Hm, (lift_bind _ _ _ m eq_refl) in H.
    unfold bind at 1 in H. rewrite print_top_cases, Hrg in H. cbn [rbind] in H.
    rewrite Hsg in H.
    unfold bind at 1 in H. rewrite print_top_cases, Hrm in H. cbn [rbind] in H.
    rewrite Hsm in H.
    apply String.eqb_eq in Heq. rewrite Heq in H.
    unfold ret in H. injection H as <- <-. split; reflexivity.
  - right. split; [exact Hne |].
    rewrite (debate_run_any _ _ g m rg rm sg sm w Hg Hm Hrg Hsg Hrm Hsm Hne) in H.
    cbv zeta in H. injection H as Hc Hw.
    do 6 eexists. split; [exact Hc | symmetry; exact Hw].
Qed.

(** Whenever [select_final_paper] returns, the paper it returns is one of
    the two top papers, unchanged.  It returns with method "unanimous", no
    history, no decision and without a request exactly when the two top
    identifiers are equal, and otherwise with method "debate", three turns,
    a decision and three requests sent. *)
Theorem selection_is_a_top_paper (groq_papers gemini_papers : list ScoredPaper)
        (w w' : world) (sel : Selection) :
  select_final_paper json_loads py_repr backend groq_papers gemini_papers w
  = (Ok sel, w') ->
  exists g m,
    item groq_papers 0 = Ok g /\ item gemini_papers 0 = Ok m
    /\ (selected_paper sel = g \/ selected_paper sel = m)
    /\ ((arxiv_id (paper g) = arxiv_id (paper m)
         /\ selected_paper sel = g
         /\ selection_method sel = "unanimous"
         /\ debate_history sel = []
         /\ final_decision sel = None
         /\ calls w' = calls w)
        \/ (arxiv_id (paper g) <> arxiv_id (paper m)
            /\ selection_method sel = "debate"
            /\ length (debate_history sel) = 3
            /\ (exists d, final_decision sel = Some d)
            /\ length (calls w') = length (calls w) + 3)).
Proof.
  intros H. destruct (select_ok_inv _ _ _ _ _ H) as (g & m & Hg & Hm & Hcases).
  exists g, m. split; [exact Hg |]. split; [exact Hm |].
  destruct Hcases as [(Heq & -> & ->) | (Hne & a1 & a2 & d & p1 & p2 & p3 & Hc & ->)].
  - split; [left; reflexivity |]. left. repeat split; assumption.
  - destruct (conclude_inv _ _ _ _ _ _ Hc) as (Hsel & Hmeth & Hhist & Hdec).
    split; [exact Hsel |]. right. split; [exact Hne |].
    split; [exact Hmeth |]. split; [rewrite Hhist; reflexivity |].
    split; [eauto |]. cbn [debated calls]. rewrite length_app. simpl. lia.
Qed.

(** A top paper whose scores have no ['reasoning'] entry makes
    [select_final_paper] raise [KeyError] on it at once: before the
    identifiers are compared, so also when both agents agree, and before
    any request is sent. *)
Theorem missing_reasoning_raises_first
        (groq_papers gemini_papers : list ScoredPaper) (g m : ScoredPaper)
        (fields : list (string * json)) (w : world) :
  item groq_papers 0 = Ok g ->
  item gemini_papers 0 = Ok m ->
  scores g = JObj fields ->
  dict_get "reasoning" fields = None ->
  select_final_paper json_loads py_repr backend groq_papers gemini_papers w
  = (Raise (KeyError "reasoning"), w).
Proof.
  intros Hg Hm Hs Hnone. unfold select_final_paper.
  rewrite (lift_bind _ _ _ g Hg), (lift_bind _ _ _ m Hm).
  unfold bind at 1. rewrite print_top_cases.
  unfold reasoning_of. rewrite Hs. cbn [subscript]. rewrite Hnone. reflexivity.
Qed.

(** The world [select_final_paper] leaves, whether it returns or raises: the
    one it started in, or the one of a whole debate. *)
Lemma select_world (groq_papers gemini_papers : list ScoredPaper) (w : world) :
  let w' := snd (select_final_paper json_loads py_repr backend
                   groq_papers gemini_papers w) in
  w' = w \/ exists p1 p2 p3 a1 a2, w' = debated p1 p2 p3 a1 a2 w.
Proof.
  cbv zeta.
  destruct (item groq_papers 0) as [g | e] eqn:Hg.
  2:{ left. unfold select_final_paper. rewrite Hg. reflexivity. }
  destruct (item gemini_papers 0) as [m | e] eqn:Hm.
  2:{ left. unfold select_final_paper.
      rewrite Hg, (lift_bind _ _ _ g eq_refl), Hm. reflexivity. }
  destruct (rbind (reasoning_of g) (slice_to 100)) as [sg | e] eqn:Hpg.
  2:{ left. unfold select_final_paper.
      rewrite Hg, (lift_bind _ _ _ g eq_refl), Hm, (lift_bind _ _ _ m eq_refl).
      unfold bind at 1. rewrite print_top_cases, Hpg. reflexivity. }
  destruct (rbind (reasoning_of m) (slice_to 100)) as [sm | e] eqn:Hpm.
  2:{ left. unfold select_final_paper.
      rewrite Hg, (lift_bind _ _ _ g eq_refl), Hm, (lift_bind _ _ _ m eq_refl).
      unfold bind at 1. rewrite print_top_cases, Hpg.
      unfold bind at 1. rewrite print_top_cases, Hpm. reflexivity. }
  destruct (String.eqb_spec (arxiv_id (paper g)) (arxiv_id (paper m))) as [Heq | Hne].
  - left. unfold select_final_paper.
    rewrite Hg, (lift_bind _ _ _ g eq_refl), Hm, (lift_bind _ _ _ m eq_refl).
    unfold bind at 1. rewrite print_top_cases, Hpg.
    unfold bind at 1. rewrite print_top_cases, Hpm.
    apply String.eqb_eq in Heq. rewrite Heq. reflexivity.
  - right.
    destruct (reasoning_of g) as [rg | e] eqn:Hrg; [| discriminate].
    destruct (reasoning_of m) as [rm | e] eqn:Hrm; [| discriminate].
    cbn [rbind] in Hpg, Hpm.
    rewrite (debate_run_any _ _ g m rg rm sg sm w Hg Hm Hrg Hpg Hrm Hpm Hne).
    cbv zeta. cbn [snd]. do 5 eexists. reflexivity.
Qed.

(** ** From the batch to the selection *)

Lemma entry_paper body_of (p : Paper) (r : reply) :
  paper (entry json_loads body_of p r) = p.
Proof.
  unfold entry. destruct (evaluation json_loads body_of r) as [[parsed t] | e];
    reflexivity.
Qed.

Lemma entries_papers body_of groq agent_name (papers : list Paper) :
  forall k,
    map paper (entries json_loads backend body_of groq agent_name k papers)
    = papers.
Proof.
  induction papers as [| p rest IH]; intros k; cbn [entries map];
    [reflexivity |]. rewrite entry_paper, IH. reflexivity.
Qed.

Lemma sent_all_calls (reqs : list request) (w : world) :
  length (calls (sent_all reqs w)) = length (calls w) + length reqs.
Proof. cbn. apply length_app. Qed.

(** The run of the selection stage on a batch that is not empty. *)
Lemma run_to_selection_run (p : Paper) (ps : list Paper) (w : world) :
  let papers := p :: ps in
  let groq_papers := fst (split_papers papers) in
  let gemini_papers := snd (split_papers papers) in
  let n := length (calls w) in
  let groq_scored :=
    sort_desc (entries json_loads backend fenced_body true "Agent A"
                 n groq_papers) in
  let gemini_scored :=
    sort_desc (entries json_loads backend stripped false "Agent B"
                 (n + length groq_papers) gemini_papers) in
  let w2 := sent_all (map (scoring_request false "Agent B") gemini_papers)
              (sent_all (map (scoring_request true "Agent A") groq_papers) w) in
  run_to_selection json_loads py_repr backend papers w
  = match item groq_scored 0 with
    | Raise e => (Raise e, w2)
    | Ok _ =>
        match item gemini_scored 0 with
        | Raise e => (Raise e, w2)
        | Ok _ =>
            match select_final_paper json_loads py_repr backend
                    groq_scored gemini_scored w2 with
            | (Ok sel, w3) => (Ok (Some sel), w3)
            | (Raise e, w3) => (Raise e, w3)
            end
        end
    end.
Proof.
  cbv zeta. unfold run_to_selection.
  destruct (split_papers (p :: ps)) as [gp mp] eqn:Hsplit. cbn [fst snd].
  rewrite (bind_ok _ _ _ _ _ (score_with_groq_run json_loads backend gp w)).
  rewrite (bind_ok _ _ _ _ _ (score_with_gemini_run json_loads backend mp _)).
  rewrite sent_all_calls, length_map.
  unfold bind at 1, lift at 1.
  destruct (item (sort_desc (entries json_loads backend fenced_body true _ _ gp)) 0);
    [| reflexivity].
  unfold bind at 1, lift at 1.
  destruct (item (sort_desc (entries json_loads backend stripped false _ _ mp)) 0);
    [| reflexivity].
  unfold bind at 1, ret.
  destruct (select_final_paper _ _ _ _ _ _) as [[sel | e] w3]; reflexivity.
Qed.

(** Without a paper the selection stage returns nothing and sends no
    request.  With a single paper Groq's half of the batch is empty: Gemini
    scores the paper, one request, and the stage raises [IndexError] when it
    reads Groq's top entry. *)
Theorem lone_paper_cannot_be_selected (p : Paper) (w : world) :
  run_to_selection json_loads py_repr backend [] w = (Ok None, w)
  /\ run_to_selection json_loads py_repr backend [p] w
     = (Raise (IndexError "list index out of range"),
        sent (scoring_request false "Agent B" p) w).
Proof.
  split; [reflexivity |].
  rewrite run_to_selection_run. cbv zeta. cbn.
  unfold sent_all, sent. cbn. rewrite app_nil_r. reflexivity.
Qed.

Lemma item_head_in {A} (l : list A) (x : A) : item l 0 = Ok x -> In x l.
Proof.
  destruct l as [| y l]; cbn; [discriminate |].
  intros H. injection H as ->. left. reflexivity.
Qed.

Lemma top_comes_from_batch body_of groq agent_name (papers : list Paper)
      (k : nat) (top : ScoredPaper) :
  item (sort_desc (entries json_loads backend body_of groq agent_name k papers)) 0
  = Ok top ->
  In (paper top) papers.
Proof.
  intros H. apply item_head_in in H.
  apply (Permutation_in _ (Permutation_sym (sort_desc_perm _))) in H.
  apply (in_map paper) in H. rewrite entries_papers in H. exact H.
Qed.

Lemma distinct_across {A B} (f : A -> B) (l1 l2 : list A) (a b : A) :
  NoDup (map f (l1 ++ l2)) -> In a l1 -> In b l2 -> f a <> f b.
Proof.
  induction l1 as [| x l1 IH]; intros Hnd Ha Hb; [destruct Ha |].
  cbn [app map] in Hnd. inversion Hnd as [| ? ? Hx Hnd']; subst.
  destruct Ha as [-> | Ha].
  - intros Heq. apply Hx. rewrite Heq. apply in_map, in_or_app. right. exact Hb.
  - apply IH; assumption.
Qed.

(** When no two papers of the batch share an identifier, the selection
    stage never takes the unanimous shortcut: whatever it returns was
    debated, and it is a paper of the batch. *)
Theorem distinct_papers_are_debated (papers : list Paper) (w w' : world)
        (sel : Selection) :
  NoDup (map arxiv_id papers) ->
  run_to_selection json_loads py_repr backend papers w = (Ok (Some sel), w') ->
  selection_method sel = "debate"
  /\ In (paper (selected_paper sel)) papers
  /\ exists d, final_decision sel = Some d.
Proof.
  intros Hnd Hrun. destruct papers as [| p ps]; [discriminate |].
  rewrite run_to_selection_run in Hrun. cbv zeta in Hrun.
  pose proof (split_papers_balanced_parts (p :: ps)) as Hparts.
  destruct (split_papers (p :: ps)) as [gp mp]. cbn [fst snd] in *.
  destruct (item (sort_desc (entries _ _ fenced_body _ _ _ gp)) 0)
    as [gtop | e] eqn:Hgtop; [| discriminate].
  destruct (item (sort_desc (entries _ _ stripped _ _ _ mp)) 0)
    as [mtop | e] eqn:Hmtop; [| discriminate].
  destruct (select_final_paper _ _ _ _ _ _) as [[sel' | e] w3] eqn:Hsel;
    [| discriminate].
  injection Hrun as -> ->.
  apply select_ok_inv in Hsel as (g & m & Hg & Hm & Hcases).
  rewrite Hgtop in Hg. rewrite Hmtop in Hm. injection Hg as ->. injection Hm as ->.
  apply top_comes_from_batch in Hgtop, Hmtop.
  assert (Hne : arxiv_id (paper g) <> arxiv_id (paper m)).
  { apply (distinct_across arxiv_id gp mp);
      [rewrite Hparts; exact Hnd | exact Hgtop | exact Hmtop]. }
  destruct Hcases as [(Heq & _) | (_ & a1 & a2 & d & p1 & p2 & p3 & Hc & _)];
    [contradiction |].
  destruct (conclude_inv _ _ _ _ _ _ Hc) as (Hwho & Hmeth & _ & Hdec).
  split; [exact Hmeth |]. split; [| eauto].
  rewrite <- Hparts. apply in_or_app.
  destruct Hwho as [-> | ->]; [left | right]; assumption.
Qed.

(** Whether the selection stage returns or raises, the requests it has sent
    are one scoring request per paper, in the order of the batch, Groq's
    half first and as Agent A, Gemini's half next and as Agent B, followed
    by nothing or by the three requests of a debate. *)
Theorem each_paper_is_scored_once (papers : list Paper) (w : world) :
  let groq_papers := fst (split_papers papers) in
  let gemini_papers := snd (split_papers papers) in
  let w' := snd (run_to_selection json_loads py_repr backend papers w) in
  groq_papers ++ gemini_papers = papers
  /\ exists later,
       calls w'
       = calls w
           ++ map (scoring_request true "Agent A") groq_papers
           ++ map (scoring_request false "Agent B") gemini_papers
           ++ later
       /\ (later = [] \/ length later = 3).
Proof.
  cbv zeta. split; [apply split_papers_balanced_parts |].
  destruct papers as [| p ps].
  - exists []. cbn. rewrite app_nil_r. auto.
  - rewrite run_to_selection_run. cbv zeta.
    set (gp := fst (split_papers (p :: ps))).
    set (mp := snd (split_papers (p :: ps))).
    set (w2 := sent_all _ (sent_all _ w)).
    assert (Hw2 : calls w2
                  = calls w ++ map (scoring_request true "Agent A") gp
                      ++ map (scoring_request false "Agent B") mp).
    { subst w2. cbn [sent_all calls]. rewrite <- app_assoc. reflexivity. }
    destruct (item (sort_desc (entries _ _ fenced_body _ _ _ gp)) 0).
    2:{ exists []. cbn [snd]. rewrite Hw2, app_nil_r. auto. }
    destruct (item (sort_desc (entries _ _ stripped _ _ _ mp)) 0).
    2:{ exists []. cbn [snd]. rewrite Hw2, app_nil_r. auto. }
    match goal with
    | |- context [select_final_paper ?a ?b ?c ?gl ?ml w2] =>
        pose proof (select_world gl ml w2) as Hworld;
        destruct (select_final_paper a b c gl ml w2) as [[sel | e] w3]
    end; cbv zeta in Hworld; cbn [snd] in *.
    + destruct Hworld as [-> | (p1 & p2 & p3 & a1 & a2 & ->)].
      * exists []. rewrite Hw2, app_nil_r. auto.
      * exists [p1; p2; p3]. cbn [debated calls]. rewrite Hw2, <- !app_assoc. auto.
    + destruct Hworld as [-> | (p1 & p2 & p3 & a1 & a2 & ->)].
      * exists []. rewrite Hw2, app_nil_r. auto.
      * exists [p1; p2; p3]. cbn [debated calls]. rewrite Hw2, <- !app_assoc. auto.
Qed.

(** ** When every backend is down *)

Lemma entry_call_fails body_of (p : Paper) (r : reply) :
  (exists e, body_of None = Raise e) ->
  call_fails r ->
  exists e, entry json_loads body_of p r = default_scored p e.
Proof.
  intros [e0 Hnone] Hf. unfold entry, evaluation.
  destruct Hf as [e |]; cbn [reply_content rbind].
  - eauto.
  - rewrite Hnone. cbn [rbind]. eauto.
Qed.

Lemma entries_all_fail body_of groq agent_name (papers : list Paper) :
  (exists e, body_of None = Raise e) ->
  (forall k req, call_fails (backend k req)) ->
  forall k,
    Forall2 (fun p sp => exists e, sp = default_scored p e) papers
      (entries json_loads backend body_of groq agent_name k papers).
Proof.
  intros Hnone Hdown. induction papers as [| p rest IH]; intros k;
    cbn [entries]; constructor.
  - apply entry_call_fails; [exact Hnone | apply Hdown].
  - apply IH.
Qed.

Lemma defaults_total (papers : list Paper) (l : list ScoredPaper) :
  Forall2 (fun p sp => exists e, sp = default_scored p e) papers l ->
  Forall (fun sp => (total_score sp =? 5)%float = true) l.
Proof.
  induction 1 as [| p sp ps l [e ->] _ IH]; constructor; [reflexivity | exact IH].
Qed.

Lemma call_fails_adjudication (r : reply) :
  call_fails r -> adjudication_fails json_loads r.
Proof. intros [e |]; constructor. Qed.

(** Every call fails, on a batch of at least two papers in which the first
    paper and the paper in the middle (the first of Gemini's half) have
    different identifiers.  Both scoring runs return, for every paper of
    their half and in the order of the batch, the default entry; the two
    tops are the first paper of the batch and the paper in the middle; both
    rounds and the adjudication fall back, and the tie at 5.0 goes to
    Groq.  So the first paper of the batch is selected, by "debate", after
    one request per paper and three more. *)
Theorem backends_down_selects_first_paper (papers : list Paper)
        (p0 pm : Paper) (w : world) :
  (forall k req, call_fails (backend k req)) ->
  nth_error papers 0 = Some p0 ->
  nth_error papers (length papers / 2) = Some pm ->
  arxiv_id p0 <> arxiv_id pm ->
  let groq_papers := fst (split_papers papers) in
  let gemini_papers := snd (split_papers papers) in
  exists groq_scored gemini_scored w1 w2 sel w' e,
    score_with_groq json_loads backend groq_papers w = (Ok groq_scored, w1)
    /\ score_with_gemini json_loads backend gemini_papers w1
       = (Ok gemini_scored, w2)
    /\ Forall2 (fun p sp => exists e, sp = default_scored p e)
         groq_papers groq_scored
    /\ Forall2 (fun p sp => exists e, sp = default_scored p e)
         gemini_papers gemini_scored
    /\ 2 <= length papers
    /\ run_to_selection json_loads py_repr backend papers w = (Ok (Some sel), w')
    /\ selected_paper sel = default_scored p0 e
    /\ selection_method sel = "debate"
    /\ final_decision sel
       = Some (JObj [ ("selected", JStr "groq");
                      ("reasoning",
                       JStr "Selected based on higher score after debate error.");
                      ("confidence", JStr "medium") ])
    /\ length (calls w') = length (calls w) + length papers + 3.
Proof.
  intros Hdown H0 Hmid Hne.
  destruct papers as [| p ps]; [discriminate |].
  cbn [nth_error] in H0. injection H0 as ->.
  pose proof (split_papers_balanced_parts (p0 :: ps)) as Hparts.
  cbv zeta. rewrite run_to_selection_run. cbv zeta.
  rewrite score_with_groq_run.
  unfold split_papers in *. cbn [fst snd] in *.
  remember (length (p0 :: ps) / 2) as mid eqn:Emid.
  destruct mid as [| mid'].
  { cbn [nth_error] in Hmid. injection Hmid as ->. contradiction. }
  assert (Hlen : 2 <= length (p0 :: ps)).
  { destruct ps as [| p1 ps']; [discriminate | cbn [length]; lia]. }
  assert (Hmp : exists mp', skipn (S mid') (p0 :: ps) = pm :: mp').
  { pose proof (nth_error_skipn (S mid') (p0 :: ps) 0) as Hn.
    rewrite Nat.add_0_r, Hmid in Hn.
    destruct (skipn (S mid') (p0 :: ps)) as [| x mp']; [discriminate |].
    cbn in Hn. injection Hn as ->. eauto. }
  destruct Hmp as [mp' Hmp]. rewrite Hmp in *.
  cbn [firstn] in *. set (gp' := firstn mid' ps) in *.
  set (n := length (calls w)).
  set (ge := entries json_loads backend fenced_body true "Agent A" n (p0 :: gp')).
  set (me := entries json_loads backend stripped false "Agent B"
               (n + length (p0 :: gp')) (pm :: mp')).
  assert (Hge : Forall2 (fun p sp => exists e, sp = default_scored p e)
                  (p0 :: gp') ge).
  { apply entries_all_fail; [eexists; reflexivity | exact Hdown]. }
  assert (Hme : Forall2 (fun p sp => exists e, sp = default_scored p e)
                  (pm :: mp') me).
  { apply entries_all_fail; [eexists; reflexivity | exact Hdown]. }
  rewrite (sort_desc_constant 5%float ge (defaults_total _ _ Hge)).
  rewrite (sort_desc_constant 5%float me (defaults_total _ _ Hme)).
  set (w1 := sent_all (map (scoring_request true "Agent A") (p0 :: gp')) w).
  assert (Hrun2 : score_with_gemini json_loads backend (pm :: mp') w1
                  = (Ok me,
                     sent_all (map (scoring_request false "Agent B") (pm :: mp'))
                       w1)).
  { rewrite score_with_gemini_run. subst w1.
    rewrite sent_all_calls, length_map. fold n. fold me.
    rewrite (sort_desc_constant 5%float me (defaults_total _ _ Hme)).
    reflexivity. }
  assert (Eg : exists eg ge', ge = default_scored p0 eg :: ge').
  { unfold ge in *. cbn [entries] in *.
    inversion Hge as [| ? ? ? ? [eg Eg] _]; subst.
    exists eg. eexists. f_equal. exact Eg. }
  assert (Em : exists em me', me = default_scored pm em :: me').
  { unfold me in *. cbn [entries] in *.
    inversion Hme as [| ? ? ? ? [em Em] _]; subst.
    exists em. eexists. f_equal. exact Em. }
  exists ge, me, w1. eexists.
  destruct Eg as (eg & ge' & Eg). destruct Em as (em & me' & Em).
  rewrite Eg, Em in *.
  cbn [item nth_error].
  set (g := default_scored p0 eg) in *. set (m := default_scored pm em) in *.
  set (w2 := sent_all _ w1) in *.
  rewrite (debate_run json_loads py_repr backend (g :: ge') (m :: me') g m
             ("Error during scoring: " ++ exn_str eg)
             ("Error during scoring: " ++ exn_str em) w2
             eq_refl eq_refl eq_refl eq_refl Hne).
  cbv zeta. unfold third_reply.
  rewrite (verdict_failed _ _ _ _ (call_fails_adjudication _ (Hdown _ _))).
  rewrite (score_fallback_groq g m eq_refl).
  exists {| selected_paper := g; selection_method := "debate";
            debate_history :=
              transcript
                (first_argument backend g m
                   ("Error during scoring: " ++ exn_str eg) (length (calls w2)))
                (second_argument backend g m
                   ("Error during scoring: " ++ exn_str eg)
                   ("Error during scoring: " ++ exn_str em) (length (calls w2)))
                (fallback_decision "groq");
            final_decision := Some (fallback_decision "groq") |}.
  eexists. exists eg.
  split; [reflexivity |]. split; [exact Hrun2 |].
  split; [exact Hge |]. split; [exact Hme |]. split; [exact Hlen |].
  split; [reflexivity |].
  split; [reflexivity |]. split; [reflexivity |]. split; [reflexivity |].
  cbn [debated calls]. subst w2 w1.
  rewrite length_app, !sent_all_calls, !length_map.
  apply (f_equal (@length Paper)) in Hparts. rewrite length_app in Hparts.
  cbn [length] in *. fold n. lia.
Qed.

(** ** What a scoring run hands on *)

Lemma sort_desc_head (l : list ScoredPaper) (top : ScoredPaper) :
  Forall (fun sp => not_nan (total_score sp)) l ->
  item (sort_desc l) 0 = Ok top ->
  (forall sp, In sp l -> (total_score sp <=? total_score top)%float = true)
  /\ exists rest, with_score (total_score top) l = top :: rest.
Proof.
  intros Hok H.
  pose proof (sort_desc_sorted l Hok) as Hs.
  pose proof (sort_desc_perm l) as Hp.
  pose proof (with_score_sort (total_score top) l Hok) as Hw.
  destruct (sort_desc l) as [| x tl]; [discriminate |].
  cbn in H. injection H as ->.
  assert (Htop : not_nan (total_score top)).
  { rewrite Forall_forall in Hok. apply Hok.
    apply (Permutation_in _ (Permutation_sym Hp)). left. reflexivity. }
  split.
  - intros sp Hin. apply (Permutation_in _ Hp) in Hin.
    destruct Hin as [<- | Hin]; [apply leb_refl; exact Htop |].
    inversion Hs as [| ? ? _ Hall]; subst.
    rewrite Forall_forall in Hall. exact (Hall sp Hin).
  - rewrite <- Hw. unfold with_score. cbn [filter].
    unfold not_nan in Htop. rewrite Htop. eauto.
Qed.

(** When no per-paper total is NaN, the top choice of an agent, the first
    entry of the list its scoring run returns, has the highest total of the
    batch, and among the papers with that total it is the one that comes
    first in the batch. *)
Theorem top_choice_is_first_best (papers : list Paper) (w : world) :
  let n := length (calls w) in
  let groq_entries :=
    entries json_loads backend fenced_body true "Agent A" n papers in
  let gemini_entries :=
    entries json_loads backend stripped false "Agent B" n papers in
  (forall out w' top,
     Forall (fun sp => not_nan (total_score sp)) groq_entries ->
     score_with_groq json_loads backend papers w = (Ok out, w') ->
     item out 0 = Ok top ->
     (forall sp, In sp out ->
        (total_score sp <=? total_score top)%float = true)
     /\ exists rest, with_score (total_score top) groq_entries = top :: rest)
  /\ (forall out w' top,
        Forall (fun sp => not_nan (total_score sp)) gemini_entries ->
        score_with_gemini json_loads backend papers w = (Ok out, w') ->
        item out 0 = Ok top ->
        (forall sp, In sp out ->
           (total_score sp <=? total_score top)%float = true)
        /\ exists rest,
             with_score (total_score top) gemini_entries = top :: rest).
Proof.
  cbv zeta. split; intros out w' top Hok Hrun Htop.
  - rewrite score_with_groq_run in Hrun. injection Hrun as <- _.
    destruct (sort_desc_head _ _ Hok Htop) as [Hmax Hfirst].
    split; [| exact Hfirst].
    intros sp Hin. apply Hmax.
    exact (Permutation_in _ (Permutation_sym (sort_desc_perm _)) Hin).
  - rewrite score_with_gemini_run in Hrun. injection Hrun as <- _.
    destruct (sort_desc_head _ _ Hok Htop) as [Hmax Hfirst].
    split; [| exact Hfirst].
    intros sp Hin. apply Hmax.
    exact (Permutation_in _ (Permutation_sym (sort_desc_perm _)) Hin).
Qed.

Lemma entries_in body_of groq agent_name (papers : list Paper)
      (sp : ScoredPaper) :
  forall k,
    In sp (entries json_loads backend body_of groq agent_name k papers) ->
    exists p r, sp = entry json_loads body_of p r.
Proof.
  induction papers as [| p rest IH]; intros k Hin; [destruct Hin |].
  cbn [entries] in Hin. destruct Hin as [<- | Hin]; [eauto | eapply IH; eauto].
Qed.

(** The total stored with an entry is the weighted total of the scores
    stored with it: by the [try] branch when the scoring went through, and
    because the default scores, 5 each, have the weighted total 5.0. *)
Lemma entry_total body_of (p : Paper) (r : reply) :
  weighted_score SCORING_WEIGHTS (scores (entry json_loads body_of p r))
  = Ok (total_score (entry json_loads body_of p r)).
Proof.
  unfold entry, evaluation.
  destruct (reply_content r) as [content | e]; cbn [rbind]; [| reflexivity].
  destruct (body_of content) as [text | e]; cbn [rbind]; [| reflexivity].
  destruct (json_loads text) as [parsed | e]; cbn [rbind]; [| reflexivity].
  destruct (weighted_score SCORING_WEIGHTS parsed) as [t | e] eqn:Ht;
    cbn [rbind]; [exact Ht | reflexivity].
Qed.

(** Every scored paper a scoring run returns keeps its total in step with
    its scores: the total is the float the weighted sum of the scores
    stored beside it gives (5.0 for the default scores), and when the four
    criteria stored are integers between 1 and 10 it is their mean and lies
    between 1 and 10. *)
Theorem total_matches_scores (papers : list Paper) (w : world) :
  let in_step (sp : ScoredPaper) :=
    weighted_score SCORING_WEIGHTS (scores sp) = Ok (total_score sp)
    /\ (forall a b c d : Z,
          subscript (scores sp) "problem_relevance" = Ok (JInt a) ->
          subscript (scores sp) "dataset_quality" = Ok (JInt b) ->
          subscript (scores sp) "model_novelty" = Ok (JInt c) ->
          subscript (scores sp) "real_world_impact" = Ok (JInt d) ->
          (1 <= a <= 10)%Z -> (1 <= b <= 10)%Z ->
          (1 <= c <= 10)%Z -> (1 <= d <= 10)%Z ->
          total_score sp = mean_of a b c d
          /\ (1 <=? total_score sp)%float = true
          /\ (total_score sp <=? 10)%float = true) in
  (exists out w',
     score_with_groq json_loads backend papers w = (Ok out, w')
     /\ length out = length papers
     /\ Forall in_step out)
  /\ (exists out w',
        score_with_gemini json_loads backend papers w = (Ok out, w')
        /\ length out = length papers
        /\ Forall in_step out).
Proof.
  cbv zeta.
  assert (Hstep : forall body_of groq agent_name k sp,
             In sp (sort_desc (entries json_loads backend body_of groq
                                 agent_name k papers)) ->
             weighted_score SCORING_WEIGHTS (scores sp) = Ok (total_score sp)
             /\ (forall a b c d : Z,
                   subscript (scores sp) "problem_relevance" = Ok (JInt a) ->
                   subscript (scores sp) "dataset_quality" = Ok (JInt b) ->
                   subscript (scores sp) "model_novelty" = Ok (JInt c) ->
                   subscript (scores sp) "real_world_impact" = Ok (JInt d) ->
                   (1 <= a <= 10)%Z -> (1 <= b <= 10)%Z ->
                   (1 <= c <= 10)%Z -> (1 <= d <= 10)%Z ->
                   total_score sp = mean_of a b c d
                   /\ (1 <=? total_score sp)%float = true
                   /\ (total_score sp <=? 10)%float = true)).
  { intros body_of groq agent_name k sp Hin.
    apply (Permutation_in _ (Permutation_sym (sort_desc_perm _))) in Hin.
    apply entries_in in Hin as (p & r & ->).
    pose proof (entry_total body_of p r) as Ht.
    split; [exact Ht |].
    intros a b c d Ea Eb Ec Ed Ha Hb Hc Hd.
    rewrite (integer_scores_total _ a b c d Ea Eb Ec Ed) in Ht.
    destruct (score_set_total a b c d Ha Hb Hc Hd) as (Hm & Hlo & Hhi).
    rewrite Hm in Ht. injection Ht as Ht. rewrite <- Ht.
    repeat split; assumption. }
  split.
  - do 2 eexists. split; [apply score_with_groq_run |].
    split; [rewrite sort_desc_length; apply entries_length |].
    apply Forall_forall. intros sp Hin. exact (Hstep _ _ _ _ _ Hin).
  - do 2 eexists. split; [apply score_with_gemini_run |].
    split; [rewrite sort_desc_length; apply entries_length |].
    apply Forall_forall. intros sp Hin. exact (Hstep _ _ _ _ _ Hin).
Qed.

(** ** Cutting a fenced block out of a response *)

Lemma prefix_other_head (a c : ascii) (s1 s2 : string) :
  Ascii.eqb c a = false -> prefix (String a s1) (String c s2) = false.
Proof.
  intros H. cbn [prefix]. destruct (ascii_dec a c) as [-> |]; [| reflexivity].
  rewrite Ascii.eqb_refl in H. discriminate.
Qed.

Lemma prefix_app (s t : string) : prefix s (s ++ t) = true.
Proof.
  induction s as [| a s IH]; [destruct t; reflexivity |].
  cbn. destruct (ascii_dec a a); [exact IH | contradiction].
Qed.

Lemma free_of_app (c : ascii) (s t : string) :
  free_of c (s ++ t) = free_of c s && free_of c t.
Proof.
  induction s as [| a s IH]; [reflexivity |].
  cbn. rewrite IH. apply andb_assoc.
Qed.

Section Separator.

(** A separator that starts with the character [a]. *)
Variables (a : ascii) (sep' : string).
Local Notation sep := (String a sep').

(** Text without [a] goes into the current piece as it is. *)
Lemma split_go_free (pre : string) :
  free_of a pre = true ->
  forall cur s,
    PyStr.split_go sep 0 cur (pre ++ s)
    = PyStr.split_go sep 0 (rev (list_ascii_of_string pre) ++ cur) s.
Proof.
  induction pre as [| c pre IH]; intros Hfree cur s; [reflexivity |].
  cbn [free_of] in Hfree. apply andb_prop in Hfree as [Hc Hfree].
  apply negb_true_iff in Hc.
  change ((String c pre ++ s)%string) with (String c (pre ++ s)).
  cbn [PyStr.split_go]. rewrite (prefix_other_head _ _ _ _ Hc).
  rewrite (IH Hfree). cbn [list_ascii_of_string rev]. rewrite <- app_assoc.
  reflexivity.
Qed.

Lemma contains_free (pre : string) :
  free_of a pre = true ->
  forall s, PyStr.contains sep (pre ++ s) = PyStr.contains sep s.
Proof.
  induction pre as [| c pre IH]; intros Hfree s; [reflexivity |].
  cbn [free_of] in Hfree. apply andb_prop in Hfree as [Hc Hfree].
  apply negb_true_iff in Hc.
  change ((String c pre ++ s)%string) with (String c (pre ++ s)).
  cbn [PyStr.contains]. rewrite (prefix_other_head _ _ _ _ Hc).
  apply (IH Hfree).
Qed.

(** The characters of a matched separator are dropped. *)
Lemma split_go_skip (t : string) :
  forall cur s,
    PyStr.split_go sep (String.length t) cur (t ++ s)
    = PyStr.split_go sep 0 cur s.
Proof.
  induction t as [| c t IH]; intros cur s; [destruct s; reflexivity |].
  cbn [String.length]. change ((String c t ++ s)%string) with (String c (t ++ s)).
  cbn [PyStr.split_go]. apply IH.
Qed.

(** The text before the first separator is the first piece. *)
Lemma split_first (pre rest : string) :
  free_of a pre = true ->
  PyStr.split sep (pre ++ sep ++ rest) = pre :: PyStr.split sep rest.
Proof.
  intros Hfree. unfold PyStr.split. rewrite (split_go_free pre Hfree).
  rewrite app_nil_r.
  change ((sep ++ rest)%string) with (String a (sep' ++ rest)).
  cbn [PyStr.split_go].
  change (String a (sep' ++ rest)) with ((sep ++ rest)%string).
  rewrite prefix_app.
  rewrite rev_involutive, string_of_list_ascii_of_string.
  replace (String.length sep - 1) with (String.length sep')
    by (cbn [String.length]; lia).
  rewrite split_go_skip. reflexivity.
Qed.

(** Text without [a] is a single piece. *)
Lemma split_free (s : string) :
  free_of a s = true -> PyStr.split sep s = [s].
Proof.
  intros Hfree. unfold PyStr.split.
  replace s with ((s ++ EmptyString)%string) at 1 by apply append_nil_r.
  rewrite (split_go_free s Hfree). cbn [PyStr.split_go].
  rewrite app_nil_r, rev_involutive, string_of_list_ascii_of_string.
  reflexivity.
Qed.

End Separator.

Lemma prefix_contains (sep s : string) :
  prefix sep s = true -> PyStr.contains sep s = true.
Proof. intros H. destruct s; cbn [PyStr.contains]; rewrite H; reflexivity. Qed.

Lemma prefix_trans (p q s : string) :
  prefix p q = true -> prefix q s = true -> prefix p s = true.
Proof.
  revert q s. induction p as [| x p IH]; intros q s Hpq Hqs;
    [destruct s; reflexivity |].
  destruct q as [| y q]; [discriminate |].
  destruct s as [| z s]; [discriminate |].
  cbn [prefix] in *.
  destruct (ascii_dec x y) as [-> |]; [| discriminate].
  destruct (ascii_dec y z) as [-> |]; [| discriminate].
  eapply IH; eassumption.
Qed.

Lemma contains_shorter (p q s : string) :
  prefix p q = true -> PyStr.contains q s = true -> PyStr.contains p s = true.
Proof.
  intros Hpq. induction s as [| c s IH]; cbn [PyStr.contains]; intros H.
  - destruct (prefix q EmptyString) eqn:Hq; [| discriminate].
    rewrite (prefix_trans _ _ _ Hpq Hq). reflexivity.
  - destruct (prefix q (String c s)) eqn:Hq.
    + rewrite (prefix_trans _ _ _ Hpq Hq). reflexivity.
    + rewrite (IH H). destruct (prefix p (String c s)); reflexivity.
Qed.

(** A response without three backticks in a row is handed to [json.loads]
    as it is: it is not even stripped. *)
Theorem unfenced_response_is_kept (content : string) :
  PyStr.contains "```" content = false ->
  extract_json content = Ok content.
Proof.
  intros H. unfold extract_json. rewrite H.
  destruct (PyStr.contains "```json" content) eqn:Hj; [| reflexivity].
  rewrite (contains_shorter "```" "```json" content eq_refl Hj) in H.
  discriminate.
Qed.

Lemma string_of_list_ascii_app (l1 l2 : list ascii) :
  string_of_list_ascii (l1 ++ l2)
  = (string_of_list_ascii l1 ++ string_of_list_ascii l2)%string.
Proof.
  induction l1 as [| c l1 IH]; [reflexivity |]. cbn. now rewrite IH.
Qed.

Lemma prefix_inv (p s : string) :
  prefix p s = true -> exists rest, s = (p ++ rest)%string.
Proof.
  revert s. induction p as [| x p IH]; intros s H; [exists s; reflexivity |].
  destruct s as [| y s]; [discriminate |]. cbn [prefix] in H.
  destruct (ascii_dec x y) as [-> |]; [| discriminate].
  destruct (IH s H) as [rest ->]. exists rest. reflexivity.
Qed.

(** The piece that follows a ["```json"] marker, when the block and what
    follows it hold no backtick: it starts with the block, and goes on, if
    at all, with the closing fence. *)
Lemma piece_after_marker (body post : string) :
  free_of "`" body = true ->
  free_of "`" post = true ->
  exists more pieces,
    PyStr.split "```json" (body ++ "```" ++ post) = (body ++ more)%string :: pieces
    /\ (more = EmptyString \/ exists tail, more = ("```" ++ tail)%string).
Proof.
  intros Hb Hp.
  destruct (prefix "json" post) eqn:Hjson.
  - apply prefix_inv in Hjson as [rest ->].
    exists EmptyString. eexists. split; [| left; reflexivity].
    rewrite append_nil_r.
    change (("```" ++ "json" ++ rest)%string) with (("```json" ++ rest)%string).
    apply (split_first "`" "``json" body rest Hb).
  - exists (("```" ++ post)%string), []. split; [| right; eauto].
    unfold PyStr.split. rewrite (split_go_free "`" "``json" body Hb).
    change (("```" ++ post)%string)
      with (String "`" (String "`" (String "`" post))).
    cbn [PyStr.split_go].
    change (prefix "```json" (String "`" (String "`" (String "`" post))))
      with (prefix "json" post).
    rewrite Hjson.
    assert (H2 : prefix "```json" (String "`" (String "`" post)) = false).
    { destruct post as [| c post']; [reflexivity |].
      cbn [free_of] in Hp. apply andb_prop in Hp as [Hc _].
      apply negb_true_iff in Hc.
      change (prefix "```json" (String "`" (String "`" (String c post'))))
        with (prefix "`json" (String c post')).
      apply prefix_other_head. exact Hc. }
    rewrite H2.
    assert (H1 : prefix "```json" (String "`" post) = false).
    { destruct post as [| c post']; [reflexivity |].
      cbn [free_of] in Hp. apply andb_prop in Hp as [Hc _].
      apply negb_true_iff in Hc.
      change (prefix "```json" (String "`" (String c post')))
        with (prefix "``json" (String c post')).
      apply prefix_other_head. exact Hc. }
    rewrite H1.
    replace post with ((post ++ EmptyString)%string) at 1 by apply append_nil_r.
    rewrite (split_go_free "`" "``json" post Hp). cbn [PyStr.split_go].
    f_equal. rewrite app_nil_r, rev_app_distr. cbn [rev].
    rewrite !rev_involutive, <- !app_assoc. cbn [app].
    rewrite string_of_list_ascii_app, string_of_list_ascii_of_string.
    cbn [string_of_list_ascii]. rewrite string_of_list_ascii_of_string.
    reflexivity.
Qed.

(** A fenced block is cut out and stripped.  With a ["```json"] marker: when
    no backtick occurs before the marker, in the block or after the closing
    fence.  With a plain fence: when the response holds no ["```json"]
    marker and no backtick occurs before the fence or in the block. *)
Theorem fenced_block_is_extracted (pre body post : string) :
  free_of "`" pre = true ->
  free_of "`" body = true ->
  (free_of "`" post = true ->
   extract_json (pre ++ "```json" ++ body ++ "```" ++ post)
   = Ok (PyStr.strip body))
  /\ (PyStr.contains "```json" (pre ++ "```" ++ body ++ "```" ++ post) = false ->
      extract_json (pre ++ "```" ++ body ++ "```" ++ post)
      = Ok (PyStr.strip body)).
Proof.
  intros Hpre Hbody. split.
  - intros Hpost. unfold extract_json.
    rewrite (contains_free "`" "``json" pre Hpre).
    rewrite (prefix_contains _ _ (prefix_app "```json" _)).
    rewrite (split_first "`" "``json" pre _ Hpre).
    destruct (piece_after_marker body post Hbody Hpost)
      as (more & pieces & -> & Hmore).
    cbn [item nth_error rbind].
    destruct Hmore as [-> | [tail ->]].
    + rewrite append_nil_r, (split_free "`" "``" body Hbody). reflexivity.
    + rewrite (split_first "`" "``" body tail Hbody). reflexivity.
  - intros Hnone. unfold extract_json. rewrite Hnone.
    rewrite (contains_free "`" "``" pre Hpre).
    rewrite (prefix_contains _ _ (prefix_app "```" _)).
    rewrite (split_first "`" "``" pre _ Hpre).
    rewrite (split_first "`" "``" body post Hbody).
    cbn [item nth_error rbind].
    rewrite (split_free "`" "``" body Hbody). reflexivity.
Qed.

(** ** The summary of the conversation *)

(** After a debate the summary of the conversation shows the two arguments
    of that debate and nothing else, in the order of the rounds, whatever
    the context held before and whether [select_final_paper] returned or
    raised at its end. *)
Theorem summary_shows_last_debate (groq_papers gemini_papers : list ScoredPaper)
        (g m : ScoredPaper) (rg rm : string) (w : world) :
  item groq_papers 0 = Ok g ->
  item gemini_papers 0 = Ok m ->
  reasoning_text g rg ->
  reasoning_text m rm ->
  arxiv_id (paper g) <> arxiv_id (paper m) ->
  let n := length (calls w) in
  let a1 := first_argument backend g m rg n in
  let a2 := second_argument backend g m rg rm n in
  let w' := snd (select_final_paper json_loads py_repr backend
                   groq_papers gemini_papers w) in
  _get_context_summary w'
  = (Ok ("\n\n<conversation_history>\n"
           ++ "Round 1 - Agent A (Groq):\n" ++ a1 ++ "\n\n"
           ++ "Round 2 - Agent B (Gemini):\n" ++ a2 ++ "\n\n"
           ++ "</conversation_history>")%string,
     w').
Proof.
  intros Hg Hm Hrg Hrm Hid. cbv zeta.
  rewrite (debate_run json_loads py_repr backend _ _ g m rg rm w
             Hg Hm Hrg Hrm Hid).
  cbv zeta. cbn [snd]. unfold _get_context_summary.
  cbn [debated conversation_context context_blocks ctx_round ctx_role ctx_content].
  change (str_of_nat 1) with "1". change (str_of_nat 2) with "2".
  f_equal. f_equal. rewrite !append_assoc. reflexivity.
Qed.

(** ** Fetching the batch *)

Lemma replace_char_free (old new : ascii) (s : string) :
  Ascii.eqb new old = false ->
  free_of old (replace_char old new s) = true.
Proof.
  intros Hne. induction s as [| c s IH]; [reflexivity |].
  cbn [replace_char free_of]. rewrite IH, andb_true_r.
  destruct (Ascii.eqb c old) eqn:E; [rewrite Hne | rewrite E]; reflexivity.
Qed.

Lemma free_of_rev_string (c : ascii) (cur : list ascii) :
  forallb (fun x => negb (Ascii.eqb x c)) cur = true ->
  free_of c (string_of_list_ascii (rev cur)) = true.
Proof.
  intros H.
  assert (Hrev : forallb (fun x => negb (Ascii.eqb x c)) (rev cur) = true).
  { rewrite forallb_forall in *. intros x Hx. apply H, in_rev, Hx. }
  clear H. induction (rev cur) as [| x l IH]; [reflexivity |].
  cbn in *. apply andb_prop in Hrev as [Hx Hl]. rewrite Hx. apply IH, Hl.
Qed.

(** The pieces of a split at a one-character separator do not hold it. *)
Lemma split_char_pieces (c : ascii) (s : string) :
  forall cur,
    forallb (fun x => negb (Ascii.eqb x c)) cur = true ->
    Forall (fun piece => free_of c piece = true)
      (PyStr.split_go (String c EmptyString) 0 cur s).
Proof.
  induction s as [| x s IH]; intros cur Hcur; cbn [PyStr.split_go].
  - constructor; [apply free_of_rev_string, Hcur | constructor].
  - destruct (prefix (String c EmptyString) (String x s)) eqn:Hp.
    + constructor; [apply free_of_rev_string, Hcur |].
      cbn [String.length Nat.sub]. apply IH. reflexivity.
    + apply IH. cbn [forallb]. rewrite Hcur, andb_true_r.
      cbn [prefix] in Hp. destruct (ascii_dec c x) as [-> | Hne].
      * destruct s; discriminate.
      * apply negb_true_iff, Ascii.eqb_neq. congruence.
Qed.

Lemma last_Forall {A} (P : A -> Prop) (l : list A) (d : A) :
  Forall P l -> l <> [] -> P (last l d).
Proof.
  induction 1 as [| x l Hx Hl IH]; intros Hne; [contradiction |].
  destruct l as [| y l']; [exact Hx |].
  change (last (x :: y :: l') d) with (last (y :: l') d).
  apply IH. discriminate.
Qed.

Section Fetched.

Variable search : string -> nat -> results.
Variable strftime_ymd : Z -> string.

Lemma to_paper_well_fetched (c : string) (r : SearchResult) :
  In c ARXIV_CATEGORIES ->
  well_fetched (to_paper strftime_ymd c r).
Proof.
  intros Hin. unfold well_fetched, to_paper. cbn [abstract arxiv_id category].
  split; [apply replace_char_free; reflexivity |]. split; [| exact Hin].
  apply last_Forall.
  - apply split_char_pieces. reflexivity.
  - unfold PyStr.split.
    destruct (split_go_cons "/" (r_entry_id r) 0 []) as (piece & rest & ->).
    discriminate.
Qed.

Lemma fetch_category_keeps (P : Paper -> Prop) (cutoff_date : Z)
      (total_papers : nat) (c : string) (rs : results) :
  (forall r, P (to_paper strftime_ymd c r)) ->
  forall all_papers out,
    Forall P all_papers ->
    fetch_category strftime_ymd cutoff_date total_papers c rs all_papers
    = Ok out ->
    Forall P out.
Proof.
  intros Hnew. induction rs as [| r rest IH | e]; intros acc out Hacc H;
    cbn [fetch_category] in H.
  - injection H as <-. exact Hacc.
  - assert (Hacc' : Forall P (acc ++ [to_paper strftime_ymd c r])).
    { apply Forall_app. split; [exact Hacc | constructor; [apply Hnew | constructor]]. }
    destruct (r_published r <? cutoff_date)%Z; [injection H as <-; exact Hacc |].
    destruct (total_papers <=? length (acc ++ [to_paper strftime_ymd c r]))%nat.
    + injection H as <-. exact Hacc'.
    + exact (IH _ _ Hacc' H).
  - discriminate.
Qed.

Lemma fetch_categories_keeps (P : Paper -> Prop) (cutoff_date : Z)
      (max_per_category total_papers : nat) (categories : list string) :
  (forall c r, In c categories -> P (to_paper strftime_ymd c r)) ->
  forall all_papers out,
    Forall P all_papers ->
    fetch_categories search strftime_ymd cutoff_date max_per_category total_papers
      categories all_papers = Ok out ->
    Forall P out.
Proof.
  induction categories as [| c cs IH]; intros Hnew acc out Hacc H;
    cbn [fetch_categories] in H.
  - injection H as <-. exact Hacc.
  - destruct (fetch_category strftime_ymd cutoff_date total_papers c
                (search c max_per_category) acc) as [acc' | e] eqn:Hc;
      cbn [rbind] in H; [| discriminate].
    assert (Hacc' : Forall P acc').
    { eapply fetch_category_keeps; [| exact Hacc | exact Hc].
      intros r. apply Hnew. left. reflexivity. }
    destruct (total_papers <=? length acc')%nat; [injection H as <-; exact Hacc' |].
    eapply IH; [| exact Hacc' | exact H].
    intros c' r Hin. apply Hnew. right. exact Hin.
Qed.

(** Whatever the arXiv client yields, a batch that [fetch_papers] returns
    has at most [TOTAL_PAPERS_TO_FETCH] papers, and each of them has an
    abstract on one line, an identifier without a slash and a category of
    the configuration. *)
Theorem fetched_batch_is_well_formed (now : Z) (papers : list Paper) :
  fetch_papers search strftime_ymd now = Ok papers ->
  length papers <= TOTAL_PAPERS_TO_FETCH
  /\ Forall well_fetched papers.
Proof.
  unfold fetch_papers. cbv zeta.
  destruct (fetch_categories search strftime_ymd _ _ _ _ [])
    as [all_papers | e] eqn:Hall; cbn [rbind]; [| discriminate].
  intros H.
  assert (E : papers = firstn TOTAL_PAPERS_TO_FETCH all_papers) by congruence.
  clear H. subst papers. split.
  - apply firstn_le_length.
  - apply Forall_forall. intros p Hp.
    assert (Hin : In p all_papers).
    { rewrite <- (firstn_skipn TOTAL_PAPERS_TO_FETCH all_papers).
      apply in_or_app. left. exact Hp. }
    clear Hp. revert p Hin.
    apply Forall_forall.
    eapply fetch_categories_keeps; [| constructor | exact Hall].
    intros c r Hin. apply to_paper_well_fetched. exact Hin.
Qed.

Lemma fetch_category_spec (cutoff_date : Z) (total_papers : nat) (c : string)
      (l : list SearchResult) :
  forall all_papers,
  exists out more,
    fetch_category strftime_ymd cutoff_date total_papers c (yield_all l)
      all_papers = Ok out
    /\ all_papers ++ map (to_paper strftime_ymd c) (recent_head cutoff_date l)
       = out ++ more
    /\ (more = [] \/ total_papers <= length out).
Proof.
  induction l as [| r l IH]; intros acc; cbn [yield_all fetch_category recent_head].
  - exists acc, []. auto.
  - destruct (r_published r <? cutoff_date)%Z.
    + exists acc, []. auto.
    + cbn [map].
      destruct (total_papers <=? length (acc ++ [to_paper strftime_ymd c r]))%nat
        eqn:Hfull.
      * eexists. eexists. split; [reflexivity |]. split.
        -- rewrite <- app_assoc. reflexivity.
        -- right. apply Nat.leb_le. exact Hfull.
      * destruct (IH (acc ++ [to_paper strftime_ymd c r])) as (out & more & Hrun & Heq & Hmore).
        exists out, more. split; [exact Hrun |]. split; [| exact Hmore].
        rewrite <- Heq, <- app_assoc. reflexivity.
Qed.

Lemma fetch_categories_spec (found : string -> nat -> list SearchResult)
      (cutoff_date : Z) (max_per_category total_papers : nat)
      (categories : list string) :
  forall all_papers,
  exists out more,
    fetch_categories (fun c n => yield_all (found c n)) strftime_ymd cutoff_date
      max_per_category total_papers categories all_papers = Ok out
    /\ all_papers
         ++ concat (map (fun c => map (to_paper strftime_ymd c)
                                   (recent_head cutoff_date
                                      (found c max_per_category)))
                      categories)
       = out ++ more
    /\ (more = [] \/ total_papers <= length out).
Proof.
  induction categories as [| c cs IH]; intros acc; cbn [fetch_categories map concat].
  - exists acc, []. auto.
  - destruct (fetch_category_spec cutoff_date total_papers c
                (found c max_per_category) acc)
      as (out1 & more1 & Hrun1 & Heq1 & Hmore1).
    rewrite Hrun1. cbn [rbind].
    destruct (total_papers <=? length out1)%nat eqn:Hfull.
    + eexists. eexists. split; [reflexivity |]. split.
      * rewrite app_assoc, Heq1, <- app_assoc. reflexivity.
      * right. apply Nat.leb_le. exact Hfull.
    + assert (more1 = []) as ->.
      { destruct Hmore1 as [-> | Hle]; [reflexivity |].
        apply Nat.leb_le in Hle. congruence. }
      rewrite app_nil_r in Heq1.
      destruct (IH out1) as (out & more & Hrun & Heq & Hmore).
      exists out, more. split; [exact Hrun |]. split; [| exact Hmore].
      rewrite app_assoc, Heq1. exact Heq.
Qed.

Lemma firstn_prefix {A} (n : nat) (out more : list A) :
  more = [] \/ n <= length out -> firstn n (out ++ more) = firstn n out.
Proof.
  intros [-> | Hle]; [now rewrite app_nil_r |].
  rewrite firstn_app. replace (n - length out) with 0 by lia.
  cbn [firstn]. apply app_nil_r.
Qed.

(** When the generators of the client do not raise, [fetch_papers] returns
    the first [TOTAL_PAPERS_TO_FETCH] papers of this list: category by
    category, in the order of the configuration, the results that come
    before the first one older than a week.  A result that follows an older
    one is never taken, however recent, and nothing removes a result that
    two categories yield. *)
Theorem fetch_papers_takes_recent_heads
        (found : string -> nat -> list SearchResult) (now : Z) :
  fetch_papers (fun c n => yield_all (found c n)) strftime_ymd now
  = Ok (firstn TOTAL_PAPERS_TO_FETCH
          (concat (map (fun c => map (to_paper strftime_ymd c)
                                  (recent_head (now - 7 * 86400)
                                     (found c MAX_PAPERS_PER_CATEGORY)))
                       ARXIV_CATEGORIES))).
Proof.
  unfold fetch_papers. cbv zeta.
  destruct (fetch_categories_spec found (now - days_limit * day)
              MAX_PAPERS_PER_CATEGORY TOTAL_PAPERS_TO_FETCH ARXIV_CATEGORIES [])
    as (out & more & Hrun & Heq & Hmore).
  rewrite Hrun. cbn [rbind]. f_equal.
  rewrite <- (firstn_prefix _ out more Hmore), <- Heq. reflexivity.
Qed.

End Fetched.

(** ** The key findings *)

Lemma range_from_nth (stop step : nat) :
  1 <= step ->
  forall fuel start j,
    stop - start <= fuel ->
    nth_error (range_from fuel start stop step) j
    = if (start + j * step <? stop)%nat then Some (start + j * step) else None.
Proof.
  intros Hstep. induction fuel as [| fuel IH]; intros start j Hfuel;
    cbn [range_from].
  - replace (start + j * step <? stop)%nat with false
      by (symmetry; apply Nat.ltb_ge; lia).
    destruct j; reflexivity.
  - destruct (Nat.ltb_spec start stop) as [Hlt | Hge].
    + destruct j as [| j]; cbn [nth_error].
      * rewrite Nat.add_0_r.
        replace (start <? stop)%nat with true by (symmetry; apply Nat.ltb_lt; lia).
        reflexivity.
      * rewrite IH by lia.
        replace (start + step + j * step) with (start + S j * step) by lia.
        reflexivity.
    + replace (start + j * step <? stop)%nat with false
        by (symmetry; apply Nat.ltb_ge; lia).
      destruct j; reflexivity.
Qed.

Lemma texts_at_nth (chunks : list Chunk) (indices : list nat) :
  Forall (fun i => i < length chunks) indices ->
  exists sections,
    texts_at chunks indices = Ok sections
    /\ forall j,
         nth_error sections j
         = match nth_error indices j with
           | Some i => option_map chunk_text (nth_error chunks i)
           | None => None
           end.
Proof.
  induction 1 as [| i rest Hi _ IH]; cbn [texts_at].
  - exists []. split; [reflexivity |]. intros j. destruct j; reflexivity.
  - destruct IH as (more & -> & Hmore).
    unfold item. destruct (nth_error chunks i) as [c |] eqn:Hc.
    2:{ apply nth_error_None in Hc. lia. }
    cbn [rbind]. eexists. split; [reflexivity |].
    intros j. destruct j as [| j]; cbn [nth_error]; [rewrite Hc; reflexivity |].
    apply Hmore.
Qed.

Lemma range_from_below (stop step : nat) :
  forall fuel start, Forall (fun i => i < stop) (range_from fuel start stop step).
Proof.
  induction fuel as [| fuel IH]; intros start; cbn [range_from];
    [constructor |].
  destruct (Nat.ltb_spec start stop); constructor; [assumption | apply IH].
Qed.

Lemma sampled_sections (chunks : list Chunk) :
  exists sections,
    important_sections chunks = Ok sections
    /\ forall j,
         nth_error sections j
         = if (j * Nat.max 1 (length chunks / 10) <? length chunks)%nat
           then option_map chunk_text
                  (nth_error chunks (j * Nat.max 1 (length chunks / 10)))
           else None.
Proof.
  unfold important_sections.
  set (step := Nat.max 1 (length chunks / 10)).
  assert (Hstep : 1 <= step) by (subst step; lia).
  destruct (Nat.ltb_spec 0 (length chunks)) as [Hpos | Hzero].
  - destruct (texts_at_nth chunks (range 0 (length chunks) step))
      as (sections & Hrun & Hnth).
    { apply range_from_below. }
    exists sections. split; [exact Hrun |].
    intros j. rewrite Hnth. unfold range.
    rewrite (range_from_nth _ _ Hstep) by lia. cbn [Nat.add].
    destruct (j * step <? length chunks)%nat; reflexivity.
  - exists []. split; [reflexivity |].
    intros j. replace (j * step <? length chunks)%nat with false
      by (symmetry; apply Nat.ltb_ge; lia).
    destruct j; reflexivity.
Qed.

(** The sections of the key-findings prompt: section number [j] is the text
    of chunk number [j * step], with [step = max(1, len(chunks) // 10)], for
    [j] below 10 and as long as that chunk exists.  So at most ten sections
    are used, and no chunk from number [10 * step] on is ever one of them:
    with 11 to 19 chunks the step is 1 and only the first ten are read. *)
Theorem sampled_sections_follow_the_step (chunks : list Chunk) :
  let step := Nat.max 1 (length chunks / 10) in
  exists sections,
    important_sections chunks = Ok sections
    /\ length (firstn 10 sections) <= 10
    /\ forall j,
         nth_error (firstn 10 sections) j
         = if ((j <? 10) && (j * step <? length chunks))%nat
           then option_map chunk_text (nth_error chunks (j * step))
           else None.
Proof.
  cbv zeta. unfold important_sections.
  set (step := Nat.max 1 (length chunks / 10)).
  assert (Hstep : 1 <= step) by (subst step; lia).
  destruct (Nat.ltb_spec 0 (length chunks)) as [Hpos | Hzero].
  - destruct (texts_at_nth chunks (range 0 (length chunks) step))
      as (sections & Hrun & Hnth).
    { apply range_from_below. }
    exists sections. split; [exact Hrun |].
    split; [apply firstn_le_length |].
    intros j. rewrite nth_error_firstn.
    destruct (j <? 10)%nat; cbn [andb]; [| reflexivity].
    rewrite Hnth. unfold range.
    rewrite (range_from_nth _ _ Hstep) by lia. cbn [Nat.add].
    destruct (j * step <? length chunks)%nat; reflexivity.
  - exists []. split; [reflexivity |]. split; [cbn; lia |].
    intros j. replace (j * step <? length chunks)%nat with false
      by (symmetry; apply Nat.ltb_ge; lia).
    rewrite andb_false_r. destruct j; reflexivity.
Qed.

Lemma take_length (n : nat) (s : string) :
  String.length (PyStr.take n s) = Nat.min n (String.length s).
Proof.
  unfold PyStr.take. revert n. induction s as [| c s IH]; intros n.
  - destruct n; reflexivity.
  - destruct n as [| n]; [reflexivity |]. cbn [substring String.length Nat.min].
    now rewrite IH.
Qed.

Lemma string_length_app (s t : string) :
  String.length (s ++ t) = String.length s + String.length t.
Proof. induction s as [| c s IH]; [reflexivity | cbn; now rewrite IH]. Qed.

(** [generate_key_findings] always hands key findings over: the stripped
    answer of the model, or, when the call fails or the answer has no text,
    "Based on abstract: " followed by the abstract.  What it sends holds at
    most 8000 characters of sections. *)
Theorem key_findings_always_come (ask : report_request -> reply) (p : Paper)
        (chunks : list Chunk) :
  exists sections,
    String.length sections <= 8000
    /\ let prompt := KeyFindingsRequest (title p) (join ", " (firstn 5 (authors p)))
                                        (abstract p) sections in
       generate_key_findings ask p chunks
       = Ok (round_argument (ask prompt) ("Based on abstract: " ++ abstract p)).
Proof.
  unfold generate_key_findings.
  destruct (sampled_sections chunks) as (sections & -> & _). cbn [rbind].
  exists (PyStr.take 8000 (join double_newline (firstn 10 sections))).
  split; [| cbv zeta].
  - rewrite take_length. apply Nat.le_min_l.
  - destruct (ask _) as [s | | e]; reflexivity.
Qed.

(** ** The structured report *)

Lemma dict_get_set_same (k : string) (v : json) (m : list (string * json)) :
  dict_get k (Json.dict_set k v m) = Some v.
Proof.
  induction m as [| [k' v'] m IH]; cbn [Json.dict_set dict_get].
  - rewrite String.eqb_refl. reflexivity.
  - destruct (String.eqb k k') eqn:E; cbn [dict_get].
    + rewrite String.eqb_refl. reflexivity.
    + rewrite E. exact IH.
Qed.

Lemma dict_get_set_other (k k' : string) (v : json) (m : list (string * json)) :
  String.eqb k k' = false ->
  dict_get k (Json.dict_set k' v m) = dict_get k m.
Proof.
  intros Hne. induction m as [| [k0 v0] m IH]; cbn [Json.dict_set dict_get].
  - rewrite Hne. reflexivity.
  - destruct (String.eqb k' k0) eqn:E; cbn [dict_get].
    + apply String.eqb_eq in E. subst k0. rewrite Hne. reflexivity.
    + destruct (String.eqb k k0); [reflexivity | exact IH].
Qed.

Lemma set_item_inv (report report' : json) (k : string) (v : json) :
  set_item report k v = Ok report' ->
  exists fields, report = JObj fields /\ report' = JObj (Json.dict_set k v fields).
Proof.
  destruct report; cbn [set_item]; try discriminate.
  intros H. injection H as <-. eauto.
Qed.

Lemma fallback_report_metadata (p : Paper) (e : exn) :
  exists fields,
    fallback_report p e = JObj fields
    /\ dict_get "paper_title" fields = Some (JStr (title p))
    /\ dict_get "paper_authors" fields = Some (JArr (map JStr (authors p)))
    /\ dict_get "arxiv_id" fields = Some (JStr (arxiv_id p))
    /\ dict_get "pdf_url" fields = Some (JStr (pdf_url p))
    /\ dict_get "published" fields = Some (JStr (published p))
    /\ dict_get "category" fields = Some (JStr (primary_category p))
    /\ dict_get "selection_method" fields = None
    /\ dict_get "final_decision_reasoning" fields = None.
Proof. eexists. split; [reflexivity |]. repeat split. Qed.

Ltac set_step H :=
  match type of H with
  | rbind (set_item ?r ?k ?v) _ = Ok _ =>
      let r' := fresh "report" in
      let E := fresh "E" in
      let f := fresh "fields" in
      let Ef := fresh "Ef" in
      destruct (set_item r k v) as [r' | ?] eqn:E; cbn [rbind] in H;
      [| discriminate];
      apply set_item_inv in E as (f & Ef & ->);
      first [subst r | injection Ef as <-]
  end.

(** [generate_structured_report] always returns a dict, and in it the title,
    the authors, the identifier, the PDF address, the date and the category
    are those of the selected paper, whatever the model answered.  The dict
    is either the fallback report, which carries no word of the selection,
    or the object the model sent with these entries set, together with the
    selection method and, after a debate, the reasoning of the decision. *)
Theorem report_metadata_comes_from_paper (ask : report_request -> reply)
        (sel : Selection) (key_findings : string) :
  let p := paper (selected_paper sel) in
  exists fields,
    generate_structured_report json_loads ask sel key_findings = JObj fields
    /\ dict_get "paper_title" fields = Some (JStr (title p))
    /\ dict_get "paper_authors" fields = Some (JArr (map JStr (authors p)))
    /\ dict_get "arxiv_id" fields = Some (JStr (arxiv_id p))
    /\ dict_get "pdf_url" fields = Some (JStr (pdf_url p))
    /\ dict_get "published" fields = Some (JStr (published p))
    /\ dict_get "category" fields = Some (JStr (primary_category p))
    /\ ((exists e, JObj fields = fallback_report p e
                   /\ dict_get "selection_method" fields = None
                   /\ dict_get "final_decision_reasoning" fields = None)
        \/ (dict_get "selection_method" fields
            = Some (JStr (selection_method sel))
            /\ forall d, final_decision sel = Some d ->
                 exists why, subscript d "reasoning" = Ok why
                             /\ dict_get "final_decision_reasoning" fields
                                = Some why)).
Proof.
  cbv zeta. unfold generate_structured_report. cbv zeta.
  set (p := paper (selected_paper sel)).
  match goal with
  | |- exists fields, match ?chain with _ => _ end = _ /\ _ =>
      destruct chain as [report | e] eqn:Hchain
  end.
  2:{ destruct (fallback_report_metadata p e)
        as (fields & Hf & H1 & H2 & H3 & H4 & H5 & H6 & H7 & H8).
      exists fields. rewrite Hf. split; [reflexivity |].
      do 6 (split; [assumption |]).
      left. exists e. auto. }
  destruct (reply_content (ask _)) as [content | ?]; cbn [rbind] in Hchain;
    [| discriminate].
  destruct (fenced_body content) as [text | ?]; cbn [rbind] in Hchain;
    [| discriminate].
  destruct (json_loads text) as [report0 | ?]; cbn [rbind] in Hchain;
    [| discriminate].
  do 7 set_step Hchain.
  destruct (final_decision sel) as [d |] eqn:Hd.
  - destruct (subscript d "reasoning") as [why | ?] eqn:Hwhy; cbn [rbind] in Hchain;
      [| discriminate].
    apply set_item_inv in Hchain as (f & Hf & ->). injection Hf as <-.
    eexists. split; [reflexivity |].
    repeat (rewrite ?dict_get_set_same;
            rewrite ?dict_get_set_other by reflexivity).
    repeat (split; [reflexivity |]).
    right. split; [reflexivity |].
    intros d' Hd'. injection Hd' as <-. exists why. split; [exact Hwhy | reflexivity].
  - injection Hchain as <-.
    eexists. split; [reflexivity |].
    repeat (rewrite ?dict_get_set_same;
            rewrite ?dict_get_set_other by reflexivity).
    repeat (split; [reflexivity |]).
    right. split; [reflexivity |]. intros d' Hd'. discriminate.
Qed.

(** ** Fitting a text into a Discord field *)

(** For a limit of at least 3, [truncate] never returns more characters than
    the limit: a text within the limit comes back as it is, a longer one
    comes back as its first [limit - 3] characters followed by three dots,
    which makes exactly [limit] characters.  Truncating twice is truncating
    once. *)
Theorem truncate_fits (text : string) (max_length : Z) :
  (3 <= max_length)%Z ->
  (len (truncate text max_length) <= max_length)%Z
  /\ ((len text <= max_length)%Z -> truncate text max_length = text)
  /\ ((max_length < len text)%Z ->
      truncate text max_length
      = (PyStr.take (Z.to_nat (max_length - 3)) text ++ "...")%string
      /\ len (truncate text max_length) = max_length)
  /\ truncate (truncate text max_length) max_length = truncate text max_length.
Proof.
  intros Hmax.
  assert (Hshort : (len text <= max_length)%Z -> truncate text max_length = text).
  { intros H. unfold truncate. apply Z.leb_le in H. rewrite H. reflexivity. }
  assert (Hlong : (max_length < len text)%Z ->
                  truncate text max_length
                  = (PyStr.take (Z.to_nat (max_length - 3)) text ++ "...")%string
                    /\ len (truncate text max_length) = max_length).
  { intros H. unfold truncate, slice_until.
    replace (len text <=? max_length)%Z with false
      by (symmetry; apply Z.leb_gt; exact H).
    replace (max_length - 3 <? 0)%Z with false
      by (symmetry; apply Z.ltb_ge; lia).
    split; [reflexivity |].
    unfold len in *. rewrite string_length_app, take_length. cbn [String.length].
    lia. }
  assert (Hfit : (len (truncate text max_length) <= max_length)%Z).
  { destruct (Z.le_gt_cases (len text) max_length) as [H | H].
    - rewrite (Hshort H). exact H.
    - destruct (Hlong H) as [_ ->]. lia. }
  split; [exact Hfit |]. split; [exact Hshort |]. split; [exact Hlong |].
  unfold truncate at 1. apply Z.leb_le in Hfit. rewrite Hfit. reflexivity.
Qed.


(** ** The chunks of the text of a paper *)

Lemma no_space_of_list (l : list ascii) :
  no_space (string_of_list_ascii l)
  = forallb (fun c => negb (PyStr.is_space c)) l.
Proof. induction l as [| c l IH]; [reflexivity | cbn; now rewrite IH]. Qed.

Lemma forallb_rev {A : Type} (f : A -> bool) (l : list A) :
  forallb f (rev l) = forallb f l.
Proof.
  induction l as [| x l IH]; [reflexivity |].
  cbn [rev forallb]. rewrite forallb_app, IH. cbn [forallb].
  rewrite andb_true_r. apply andb_comm.
Qed.

Lemma reversed_word (a : ascii) (cur : list ascii) :
  forallb (fun c => negb (PyStr.is_space c)) (a :: cur) = true ->
  is_word (string_of_list_ascii (rev (a :: cur))).
Proof.
  intros Hcur. split.
  - cbn [rev]. destruct (rev cur); discriminate.
  - rewrite no_space_of_list, forallb_rev. exact Hcur.
Qed.

Lemma split_words_are_words (s : string) :
  forall cur,
    forallb (fun c => negb (PyStr.is_space c)) cur = true ->
    Forall is_word (split_words cur s).
Proof.
  induction s as [| c s IH]; intros cur Hcur; cbn [split_words].
  - destruct cur as [| a cur]; constructor; [| constructor].
    apply reversed_word. exact Hcur.
  - destruct (PyStr.is_space c) eqn:Hc.
    + destruct cur as [| a cur]; [apply IH; reflexivity |].
      constructor; [| apply IH; reflexivity].
      apply reversed_word. exact Hcur.
    + apply IH. cbn [forallb]. rewrite Hc. exact Hcur.
Qed.

Lemma split_whitespace_words (s : string) : Forall is_word (split_whitespace s).
Proof. apply split_words_are_words. reflexivity. Qed.

Lemma split_words_word (w : string) :
  forall cur s,
    no_space w = true ->
    split_words cur (w ++ s)
    = split_words (rev (list_ascii_of_string w) ++ cur) s.
Proof.
  induction w as [| c w IH]; intros cur s Hw; [reflexivity |].
  cbn [no_space] in Hw. apply andb_true_iff in Hw as [Hc Hw].
  apply negb_true_iff in Hc.
  cbn [append split_words list_ascii_of_string rev].
  rewrite Hc, (IH _ _ Hw), <- app_assoc. reflexivity.
Qed.

Lemma split_words_after_word (w rest : string) :
  is_word w ->
  split_words [] (w ++ String " " rest) = w :: split_words [] rest
  /\ split_words [] w = [w].
Proof.
  intros [Hne Hw].
  assert (Hrev : exists a l, rev (list_ascii_of_string w) = a :: l).
  { destruct w as [| c w]; [congruence |]. cbn [list_ascii_of_string rev].
    destruct (rev (list_ascii_of_string w)); cbn [app]; eauto. }
  destruct Hrev as (a & l & E).
  assert (Hback : string_of_list_ascii (rev (a :: l)) = w).
  { rewrite <- E, rev_involutive. apply string_of_list_ascii_of_string. }
  split.
  - rewrite (split_words_word w [] _ Hw), app_nil_r, E.
    cbn [split_words]. change (PyStr.is_space " ") with true. cbv iota.
    rewrite Hback. reflexivity.
  - rewrite <- (append_nil_r w) at 1.
    rewrite (split_words_word w [] _ Hw), app_nil_r, E.
    cbn [split_words]. rewrite Hback. reflexivity.
Qed.

(** Joining words with a space and splitting the text gives the words. *)
Lemma split_join_words (ws : list string) :
  Forall is_word ws -> split_whitespace (join " " ws) = ws.
Proof.
  unfold split_whitespace.
  induction 1 as [| w ws Hw Hws IH]; [reflexivity |].
  destruct ws as [| w2 ws].
  - cbn [join]. apply (split_words_after_word w EmptyString Hw).
  - change (join " " (w :: w2 :: ws))
      with (w ++ String " " (join " " (w2 :: ws)))%string.
    rewrite (proj1 (split_words_after_word w _ Hw)), IH. reflexivity.
Qed.

Lemma weight_app (a b : list string) : weight (a ++ b) = weight a + weight b.
Proof. unfold weight. rewrite map_app, list_sum_app. reflexivity. Qed.

Lemma weight_join (ws : list string) :
  ws <> [] -> weight ws = String.length (join " " ws) + 1.
Proof.
  induction ws as [| w ws IH]; [congruence |]. intros _.
  destruct ws as [| w2 ws].
  - cbn. lia.
  - change (join " " (w :: w2 :: ws))
      with (w ++ String " " (join " " (w2 :: ws)))%string.
    change (weight (w :: w2 :: ws))
      with (String.length w + 1 + weight (w2 :: ws)).
    rewrite IH by discriminate. rewrite string_length_app.
    cbn [String.length]. lia.
Qed.

Lemma numbered_app (pn : nat) (a b : list (list string)) :
  forall start,
    numbered pn start (a ++ b)
    = numbered pn start a ++ numbered pn (start + length a) b.
Proof.
  induction a as [| g a IH]; intros start; cbn [numbered app length].
  - rewrite Nat.add_0_r. reflexivity.
  - rewrite IH. replace (start + S (length a)) with (S start + length a) by lia.
    reflexivity.
Qed.

Lemma numbered_length (pn : nat) (groups : list (list string)) :
  forall start, length (numbered pn start groups) = length groups.
Proof.
  induction groups as [| g groups IH]; intros start; cbn [numbered length];
    [reflexivity | now rewrite IH].
Qed.

Lemma numbered_ids (pn : nat) (groups : list (list string)) :
  forall start,
    map chunk_id (numbered pn start groups) = seq start (length groups).
Proof.
  induction groups as [| g groups IH]; intros start;
    cbn [numbered map length seq chunk_id]; [reflexivity | now rewrite IH].
Qed.

Lemma numbered_in (pn : nat) (groups : list (list string)) (c : Chunk) :
  forall start,
    In c (numbered pn start groups) ->
    chunk_page c = pn + 1
    /\ exists g, In g groups /\ chunk_text c = join " " g.
Proof.
  induction groups as [| g groups IH]; intros start; cbn [numbered In];
    [intros [] |].
  intros [<- | Hin].
  - split; [reflexivity |]. exists g. split; [left |]; reflexivity.
  - destruct (IH _ Hin) as (Hp & g' & Hg' & Ht).
    split; [exact Hp |]. exists g'. split; [right |]; assumption.
Qed.

Lemma numbered_nth (pn : nat) (groups : list (list string)) :
  forall start i c,
    nth_error (numbered pn start groups) i = Some c ->
    chunk_page c = pn + 1
    /\ exists g, nth_error groups i = Some g /\ chunk_text c = join " " g.
Proof.
  induction groups as [| g groups IH]; intros start i c; cbn [numbered].
  - destruct i; discriminate.
  - destruct i as [| i]; cbn [nth_error].
    + intros H. injection H as <-. split; [reflexivity |]. eauto.
    + apply IH.
Qed.

(** What the loop over the words of a page adds: the chunks of the groups
    it closed, which together with the words left over are the words it was
    given. *)
Lemma chunk_words_spec (cs pn : nat) (words : list string) :
  forall cur len chunks,
    len = weight cur ->
    cur = [] \/ weight cur < cs ->
    exists groups cur',
      chunk_words cs pn words cur len chunks
      = (chunks ++ numbered pn (length chunks) groups, cur')
      /\ concat groups ++ cur' = cur ++ words
      /\ Forall (full cs) groups
      /\ Forall (fits cs) groups
      /\ (cur' = [] \/ weight cur' < cs).
Proof.
  induction words as [| word rest IH]; intros cur len chunks -> Hcur;
    cbn [chunk_words].
  - exists [], cur. cbn [numbered concat app]. rewrite !app_nil_r. auto.
  - cbv zeta.
    assert (Hw : weight cur + (String.length word + 1) = weight (cur ++ [word])).
    { rewrite weight_app. cbn. lia. }
    rewrite Hw. destruct (Nat.leb_spec cs (weight (cur ++ [word]))) as [Hfull | Hless].
    + destruct (IH [] 0 (append_chunk chunks (cur ++ [word]) pn) eq_refl
                  (or_introl eq_refl))
        as (groups & cur' & Hrun & Hcat & Hfulls & Hfits & Hcur').
      exists ((cur ++ [word]) :: groups), cur'. rewrite Hrun.
      unfold append_chunk. rewrite length_app, <- app_assoc.
      cbn [length numbered app concat].
      replace (length chunks + 1) with (S (length chunks)) by lia.
      split; [reflexivity |]. split.
      { rewrite <- !app_assoc. cbn [app] in *. rewrite Hcat. reflexivity. }
      split; [constructor; assumption |]. split; [| exact Hcur'].
      constructor; [| exact Hfits]. split.
      * destruct cur; discriminate.
      * intros g' w E. apply app_inj_tail in E as [<- _]. exact Hcur.
    + destruct (IH (cur ++ [word]) _ chunks eq_refl (or_intror Hless))
        as (groups & cur' & Hrun & Hcat & Hfulls & Hfits & Hcur').
      exists groups, cur'. rewrite Hrun. split; [reflexivity |].
      rewrite Hcat, <- app_assoc. cbn [app]. auto.
Qed.

(** What one page adds: the chunks of its groups of words, of which only the
    last may have stayed below the chunk size. *)
Lemma chunk_page_text_spec (cs pn : nat) (text : string) (chunks : list Chunk) :
  exists closed rest,
    chunk_page_text cs pn text chunks
    = chunks ++ numbered pn (length chunks) (closed ++ rest)
    /\ concat (closed ++ rest) = split_whitespace text
    /\ length rest <= 1
    /\ Forall (full cs) closed
    /\ Forall (fits cs) (closed ++ rest).
Proof.
  unfold chunk_page_text.
  destruct (chunk_words_spec cs pn (split_whitespace text) [] 0 chunks eq_refl
              (or_introl eq_refl))
    as (groups & cur' & Hrun & Hcat & Hfulls & Hfits & Hcur').
  rewrite Hrun. cbn [app] in Hcat. destruct cur' as [| w cur'].
  - exists groups, []. rewrite !app_nil_r in *. cbn [length]. auto.
  - exists groups, [w :: cur']. unfold append_chunk.
    rewrite numbered_app, length_app, numbered_length, <- app_assoc.
    cbn [numbered length]. split; [reflexivity |].
    split; [rewrite concat_app; cbn [concat]; rewrite app_nil_r; exact Hcat |].
    split; [lia |]. split; [exact Hfulls |].
    apply Forall_app. split; [exact Hfits |]. constructor; [| constructor].
    split; [discriminate |]. intros g' x E.
    destruct Hcur' as [? | Hlt]; [discriminate |]. right.
    rewrite E, weight_app in Hlt. lia.
Qed.

(** An invariant that every page keeps holds at the end of the loop over
    the pages. *)
Lemma extract_pages_invariant (cs : nat) (doc : list (result string))
      (I : nat -> list Chunk -> Prop) :
  (forall pn text chunks,
     nth_error doc pn = Some (Ok text) ->
     I pn chunks -> I (S pn) (chunk_page_text cs pn text chunks)) ->
  forall pages seen chunks out,
    doc = seen ++ pages ->
    I (length seen) chunks ->
    extract_pages cs (length seen) pages chunks = Ok out ->
    I (length doc) out.
Proof.
  intros Hstep. induction pages as [| page pages IH];
    intros seen chunks out Hdoc HI; cbn [extract_pages].
  - intros H. injection H as <-. rewrite Hdoc, app_nil_r. exact HI.
  - destruct page as [text | e]; cbn [rbind]; [| discriminate].
    intros Hrun.
    apply (IH (seen ++ [Ok text]) (chunk_page_text cs (length seen) text chunks)).
    + rewrite Hdoc, <- app_assoc. reflexivity.
    + rewrite length_app. cbn [length].
      replace (length seen + 1) with (S (length seen)) by lia.
      apply Hstep; [| exact HI].
      rewrite Hdoc, nth_error_app2, Nat.sub_diag by lia. reflexivity.
    + rewrite length_app. cbn [length].
      replace (length seen + 1) with (S (length seen)) by lia. exact Hrun.
Qed.

Lemma extract_invariant (cs : nat) (pages : list (result string))
      (I : nat -> list Chunk -> Prop) :
  I 0 [] ->
  (forall pn text chunks,
     nth_error pages pn = Some (Ok text) ->
     I pn chunks -> I (S pn) (chunk_page_text cs pn text chunks)) ->
  forall out, extract_pages cs 0 pages [] = Ok out -> I (length pages) out.
Proof.
  intros H0 Hstep out Hrun.
  apply (extract_pages_invariant cs pages I Hstep pages [] [] out);
    [reflexivity | exact H0 | exact Hrun].
Qed.

Lemma group_words (text : string) (groups : list (list string)) (g : list string) :
  concat groups = split_whitespace text -> In g groups -> Forall is_word g.
Proof.
  intros Hcat Hin. apply Forall_forall. intros w Hw.
  pose proof (split_whitespace_words text) as Hall.
  rewrite <- Hcat in Hall. rewrite Forall_forall in Hall. apply Hall.
  apply in_concat. eauto.
Qed.

Lemma join_not_empty (g : list string) :
  g <> [] -> Forall is_word g -> join " " g <> EmptyString.
Proof.
  destruct g as [| w g]; [congruence |]. intros _ Hg.
  apply Forall_inv in Hg as [Hne _].
  destruct g as [| w2 g]; [exact Hne |].
  change (join " " (w :: w2 :: g))
    with (w ++ String " " (join " " (w2 :: g)))%string.
  destruct w; [congruence | discriminate].
Qed.

Lemma fits_bound (cs : nat) (g : list string) :
  fits cs g -> Forall is_word g ->
  String.length (join " " g)
  <= cs + String.length (last (split_whitespace (join " " g)) EmptyString).
Proof.
  intros [Hne Hfit] Hg. rewrite (split_join_words g Hg).
  pose proof (weight_join g Hne) as Hweight.
  destruct (exists_last Hne) as (g' & w & ->).
  rewrite last_last. rewrite weight_app in Hweight. cbn in Hweight.
  destruct (Hfit g' w eq_refl) as [-> | Hlt]; [cbn in Hweight |- * |]; lia.
Qed.

Lemma sorted_app (l1 l2 : list nat) :
  StronglySorted le l1 -> StronglySorted le l2 ->
  (forall a b, In a l1 -> In b l2 -> a <= b) ->
  StronglySorted le (l1 ++ l2).
Proof.
  induction l1 as [| a l1 IH]; intros H1 H2 Hle; [exact H2 |].
  apply StronglySorted_inv in H1 as [H1 Ha]. cbn [app]. constructor.
  - apply IH; [exact H1 | exact H2 |]. intros x y Hx. apply Hle. right. exact Hx.
  - apply Forall_app. split; [exact Ha |].
    apply Forall_forall. intros y Hy. apply Hle; [left; reflexivity | exact Hy].
Qed.

Lemma numbered_pages_sorted (pn : nat) (groups : list (list string)) :
  forall start, StronglySorted le (map chunk_page (numbered pn start groups)).
Proof.
  induction groups as [| g groups IH]; intros start; cbn [numbered map];
    constructor; [apply IH |].
  apply Forall_forall. intros x Hx. apply in_map_iff in Hx as (c & <- & Hc).
  apply numbered_in in Hc as [-> _]. cbn. lia.
Qed.

(** The chunks [extract_text_from_pdf] returns are numbered by their place
    in the list, from 0, so [chunks[i]['chunk_id'] == i]; no chunk has an
    empty text; the page of a chunk lies between 1 and the number of pages,
    and the pages never decrease along the list. *)
Theorem chunk_ids_are_positions (chunk_size : nat) (pages : list (result string)) :
  let chunks := extract_text_from_pdf chunk_size (Ok pages) in
  map chunk_id chunks = seq 0 (length chunks)
  /\ Forall (fun c => chunk_text c <> EmptyString
                      /\ 1 <= chunk_page c <= length pages) chunks
  /\ StronglySorted le (map chunk_page chunks).
Proof.
  cbv zeta. unfold extract_text_from_pdf. cbn [rbind].
  destruct (extract_pages chunk_size 0 pages []) as [out | e] eqn:Hrun;
    [| repeat constructor].
  apply (extract_invariant chunk_size pages
           (fun pn chunks =>
              map chunk_id chunks = seq 0 (length chunks)
              /\ Forall (fun c => chunk_text c <> EmptyString
                                  /\ 1 <= chunk_page c <= pn) chunks
              /\ StronglySorted le (map chunk_page chunks)));
    [repeat constructor | | exact Hrun].
  clear out Hrun. intros pn text chunks _ (Hids & Hall & Hsorted).
  destruct (chunk_page_text_spec chunk_size pn text chunks)
    as (closed & rest & -> & Hcat & _ & _ & Hfits).
  split; [| split].
  - rewrite map_app, length_app, numbered_ids, numbered_length, Hids.
    symmetry. apply seq_app.
  - apply Forall_app. split.
    + eapply Forall_impl; [| exact Hall]. cbv beta. intros c (? & ? & ?).
      split; [assumption | lia].
    + apply Forall_forall. intros c Hc.
      apply numbered_in in Hc as (Hp & g & Hg & Ht). split; [| lia].
      rewrite Ht. rewrite Forall_forall in Hfits.
      apply join_not_empty; [apply (Hfits g Hg) |].
      apply (group_words text _ g Hcat Hg).
  - rewrite map_app. apply sorted_app;
      [exact Hsorted | apply numbered_pages_sorted |].
    intros a b Ha Hb. apply in_map_iff in Ha as (c & <- & Hc).
    apply in_map_iff in Hb as (c' & <- & Hc').
    apply numbered_in in Hc' as [-> _].
    rewrite Forall_forall in Hall. destruct (Hall c Hc) as (_ & _ & ?). lia.
Qed.

Lemma extract_pages_returns (cs : nat) (texts : list string) :
  forall pn chunks,
    exists out, extract_pages cs pn (map Ok texts) chunks = Ok out.
Proof.
  induction texts as [| text texts IH]; intros pn chunks;
    cbn [map extract_pages rbind]; [eauto | apply IH].
Qed.

Lemma page_words_app (k : nat) (a b : list Chunk) :
  page_words k (a ++ b) = page_words k a ++ page_words k b.
Proof. unfold page_words. rewrite filter_app, map_app, concat_app. reflexivity. Qed.

Lemma page_words_numbered (k pn : nat) (groups : list (list string)) :
  Forall (Forall is_word) groups ->
  forall start,
    page_words k (numbered pn start groups)
    = if (k =? pn)%nat then concat groups else [].
Proof.
  unfold page_words. induction 1 as [| g groups Hg Hgroups IH]; intros start;
    cbn [numbered filter chunk_page].
  - destruct (k =? pn)%nat; reflexivity.
  - rewrite (Nat.eqb_sym k pn).
    replace (pn + 1 =? k + 1)%nat with (pn =? k)%nat
      by (destruct (Nat.eqb_spec pn k), (Nat.eqb_spec (pn + 1) (k + 1));
          (reflexivity || lia)).
    specialize (IH (S start)). rewrite (Nat.eqb_sym k pn) in IH.
    destruct (pn =? k)%nat; cbn [map concat chunk_text]; rewrite IH;
      [rewrite (split_join_words g Hg) |]; reflexivity.
Qed.

(** Nothing is lost and nothing moves: when every page can be read, the
    words of the chunks of a page, taken in the order of the chunks, are the
    words of that page. *)
Theorem chunks_keep_the_words (chunk_size : nat) (texts : list string) (k : nat) :
  page_words k (extract_text_from_pdf chunk_size (Ok (map Ok texts)))
  = split_whitespace (nth k texts EmptyString).
Proof.
  unfold extract_text_from_pdf. cbn [rbind].
  destruct (extract_pages_returns chunk_size texts 0 []) as (out & Hrun).
  rewrite Hrun.
  pose proof (extract_invariant chunk_size (map Ok texts)
                (fun pn chunks =>
                   forall k, page_words k chunks
                             = if (k <? pn)%nat
                               then split_whitespace (nth k texts EmptyString)
                               else [])) as Hinv.
  cbv beta in Hinv. rewrite length_map in Hinv. rewrite Hinv; [| | | exact Hrun].
  - destruct (Nat.ltb_spec k (length texts)) as [? | Hk]; [reflexivity |].
    rewrite (nth_overflow _ _ Hk). reflexivity.
  - intros k'. reflexivity.
  - clear out Hrun Hinv. intros pn text chunks Hpn Hold k'.
    rewrite nth_error_map in Hpn.
    destruct (nth_error texts pn) as [t |] eqn:Ht; [| discriminate].
    injection Hpn as ->.
    destruct (chunk_page_text_spec chunk_size pn text chunks)
      as (closed & rest & -> & Hcat & _ & _ & _).
    rewrite page_words_app, Hold, page_words_numbered.
    + destruct (Nat.eqb_spec k' pn) as [-> | Hne].
      * replace (pn <? pn)%nat with false by (symmetry; apply Nat.ltb_irrefl).
        replace (pn <? S pn)%nat with true by (symmetry; apply Nat.ltb_lt; lia).
        rewrite Hcat, (nth_error_nth _ _ _ Ht). reflexivity.
      * rewrite app_nil_r.
        destruct (Nat.ltb_spec k' pn), (Nat.ltb_spec k' (S pn));
          (reflexivity || lia).
    + apply Forall_forall. intros g Hg. apply (group_words text _ g Hcat Hg).
Qed.

(** A chunk is longer than the chunk size by its last word at most: its
    text without that word is shorter than the chunk size. *)
Theorem chunk_exceeds_by_last_word (chunk_size : nat)
        (doc : result (list (result string))) :
  Forall (fun c =>
            String.length (chunk_text c)
            <= chunk_size
               + String.length (last (split_whitespace (chunk_text c))
                                     EmptyString))
         (extract_text_from_pdf chunk_size doc).
Proof.
  unfold extract_text_from_pdf. destruct doc as [pages | e]; cbn [rbind];
    [| constructor].
  destruct (extract_pages chunk_size 0 pages []) as [out | e] eqn:Hrun;
    [| constructor].
  apply (extract_invariant chunk_size pages
           (fun _ chunks =>
              Forall (fun c =>
                        String.length (chunk_text c)
                        <= chunk_size
                           + String.length
                               (last (split_whitespace (chunk_text c))
                                     EmptyString)) chunks));
    [constructor | | exact Hrun].
  clear out Hrun. intros pn text chunks _ Hold.
  destruct (chunk_page_text_spec chunk_size pn text chunks)
    as (closed & rest & -> & Hcat & _ & _ & Hfits).
  apply Forall_app. split; [exact Hold |].
  apply Forall_forall. intros c Hc.
  apply numbered_in in Hc as (_ & g & Hg & ->).
  rewrite Forall_forall in Hfits.
  apply fits_bound; [apply (Hfits g Hg) | apply (group_words text _ g Hcat Hg)].
Qed.

(** Only the last chunk of a page can stay below the chunk size: a chunk
    that is followed by a chunk of the same page has at least
    [chunk_size - 1] characters. *)
Theorem only_last_chunk_of_page_is_short (chunk_size : nat)
        (doc : result (list (result string))) (i j : nat) (c c' : Chunk) :
  i < j ->
  nth_error (extract_text_from_pdf chunk_size doc) i = Some c ->
  nth_error (extract_text_from_pdf chunk_size doc) j = Some c' ->
  chunk_page c = chunk_page c' ->
  chunk_size <= String.length (chunk_text c) + 1.
Proof.
  unfold extract_text_from_pdf. destruct doc as [pages | e]; cbn [rbind];
    [| destruct i; discriminate].
  destruct (extract_pages chunk_size 0 pages []) as [out | e] eqn:Hrun;
    [| destruct i; discriminate].
  revert i j c c'.
  assert (H : Forall (fun c => chunk_page c <= length pages) out
              /\ forall i j c c',
                   i < j -> nth_error out i = Some c ->
                   nth_error out j = Some c' ->
                   chunk_page c = chunk_page c' ->
                   chunk_size <= String.length (chunk_text c) + 1);
    [| apply H].
  apply (extract_invariant chunk_size pages
           (fun pn chunks =>
              Forall (fun c => chunk_page c <= pn) chunks
              /\ forall i j c c',
                   i < j -> nth_error chunks i = Some c ->
                   nth_error chunks j = Some c' ->
                   chunk_page c = chunk_page c' ->
                   chunk_size <= String.length (chunk_text c) + 1));
    [split; [constructor | intros [] ? ? ? ?; discriminate] | | exact Hrun].
  clear out Hrun. intros pn text chunks _ [Hpages Hold].
  destruct (chunk_page_text_spec chunk_size pn text chunks)
    as (closed & rest & -> & Hcat & Hrest & Hfull & Hfits).
  split.
  - apply Forall_app. split.
    + eapply Forall_impl; [| exact Hpages]. cbv beta. intros; lia.
    + apply Forall_forall. intros c Hc. apply numbered_in in Hc as [-> _]. lia.
  - intros i j c c' Hij Hi Hj Hsame.
    rewrite Forall_forall in Hpages.
    destruct (Nat.lt_ge_cases i (length chunks)) as [Hil | Hil].
    + rewrite nth_error_app1 in Hi by exact Hil.
      destruct (Nat.lt_ge_cases j (length chunks)) as [Hjl | Hjl].
      * rewrite nth_error_app1 in Hj by exact Hjl.
        apply (Hold i j c c' Hij Hi Hj Hsame).
      * rewrite nth_error_app2 in Hj by exact Hjl.
        apply numbered_nth in Hj as [Hp' _].
        apply nth_error_In in Hi. apply Hpages in Hi. lia.
    + rewrite nth_error_app2 in Hi by exact Hil.
      rewrite nth_error_app2 in Hj by lia.
      apply numbered_nth in Hi as (_ & g & Hg & ->).
      apply numbered_nth in Hj as (_ & g' & Hg' & _).
      assert (Hlen : j - length chunks < length (closed ++ rest)).
      { apply nth_error_Some. congruence. }
      rewrite length_app in Hlen.
      rewrite nth_error_app1 in Hg by lia.
      apply nth_error_In in Hg. rewrite Forall_forall in Hfull.
      specialize (Hfull g Hg). unfold full in Hfull.
      destruct g as [| w g]; [cbn in Hfull; lia |].
      rewrite weight_join in Hfull by discriminate. exact Hfull.
Qed.

(** When a page cannot be read, the chunks of the pages before it are
    dropped with it: the result is the empty list. *)
Theorem unreadable_page_drops_all_chunks (chunk_size : nat)
        (pages : list (result string)) (e : exn) :
  In (Raise e) pages ->
  extract_text_from_pdf chunk_size (Ok pages) = [].
Proof.
  unfold extract_text_from_pdf. cbn [rbind]. intros Hin.
  assert (H : forall pn chunks, exists e',
               extract_pages chunk_size pn pages chunks = Raise e').
  { induction pages as [| page pages IH]; [destruct Hin |].
    intros pn chunks. cbn [extract_pages].
    destruct page as [text | e0]; cbn [rbind]; [| eauto].
    apply IH. destruct Hin as [? | Hin]; [discriminate | exact Hin]. }
  destruct (H 0 []) as (e' & ->). reflexivity.
Qed.

(** When every page can be read, the result is the empty list exactly when
    no page holds a word. *)
Theorem no_chunk_means_no_word (chunk_size : nat) (texts : list string) :
  extract_text_from_pdf chunk_size (Ok (map Ok texts)) = []
  <-> Forall (fun text => split_whitespace text = []) texts.
Proof.
  split.
  - intros Hempty. apply Forall_forall. intros text Hin.
    apply (In_nth _ _ EmptyString) in Hin as (k & _ & <-).
    rewrite <- (chunks_keep_the_words chunk_size texts k), Hempty. reflexivity.
  - intros Hall. unfold extract_text_from_pdf. cbn [rbind]. generalize 0 as pn.
    induction Hall as [| text texts Htext Htexts IH]; intros pn; [reflexivity |].
    cbn [map extract_pages rbind]. unfold chunk_page_text at 1.
    rewrite Htext. cbn [chunk_words]. apply IH.
Qed.


(** ** From the PDF to the key findings *)

(** When processing the PDF gave no chunk, the section of the key-findings
    prompt is the abstract, cut at 8000 characters, and key findings still
    come: the stripped answer, or "Based on abstract: " and the abstract. *)
Theorem abstract_stands_in_for_the_text (ask : report_request -> reply)
        (chunk_size : nat) (pdf : option (result (list (result string))))
        (p : Paper) :
  process_paper_chunks chunk_size pdf = [] ->
  key_findings_of_run ask chunk_size pdf p
  = Ok (round_argument
          (ask (KeyFindingsRequest (title p) (join ", " (firstn 5 (authors p)))
                                   (abstract p) (PyStr.take 8000 (abstract p))))
          ("Based on abstract: " ++ abstract p)).
Proof.
  intros Hempty. unfold key_findings_of_run. cbv zeta. rewrite Hempty.
  cbn [length Nat.eqb]. unfold generate_key_findings, important_sections.
  cbn [length Nat.ltb Nat.leb].
  change (Nat.max 1 (1 / 10)) with 1.
  change (range 0 1 1) with [0].
  cbn [texts_at item nth_error rbind chunk_text firstn join].
  destruct (ask _) as [s | | e]; reflexivity.
Qed.

(** ** The key techniques of a Discord message *)

(** Whatever the report holds under 'KeyTechniques', the text made of it
    has at most 1024 characters, and of a list only the first five items
    are shown. *)
Theorem format_techniques_fits (bullet : ascii) (techniques : json)
        (items : list json) :
  String.length (_format_techniques py_repr bullet techniques) <= 1024
  /\ _format_techniques py_repr bullet (JArr items)
     = _format_techniques py_repr bullet (JArr (firstn 5 items)).
Proof.
  split.
  - unfold _format_techniques. destruct techniques;
      try (rewrite take_length; apply Nat.le_min_l).
    cbv zeta.
    match goal with
    | |- context [(1024 <? ?n)%nat] => destruct (Nat.ltb_spec 1024 n) as [H | H]
    end; [| exact H].
    rewrite string_length_app, take_length. cbn [String.length].
    match goal with
    | |- context [Nat.min 1020 ?n] => pose proof (Nat.le_min_l 1020 n)
    end.
    lia.
  - unfold _format_techniques. rewrite firstn_firstn. reflexivity.
Qed.

End Further.

(** ** Concrete runs of the further properties *)

Lemma selection_is_a_top_paper_witness :
  exists sel w',
    select_final_paper Json.loads no_repr arbiter_down
      [scored_x] [scored_y] fresh = (Ok sel, w')
    /\ selected_paper sel = scored_x
    /\ selection_method sel = "debate"
    /\ length (calls w') = 3.
Proof.
  eexists. eexists. split; [vm_compute; reflexivity |].
  destruct (selection_is_a_top_paper Json.loads no_repr arbiter_down
              [scored_x] [scored_y] fresh _ _ eq_refl)
    as (g & m & Hg & Hm & _ & [(Heq & _) | (_ & Hmeth & _ & _ & Hcalls)]).
  - injection Hg as <-. injection Hm as <-. discriminate.
  - split; [reflexivity |]. split; [exact Hmeth | exact Hcalls].
Defined.

Lemma missing_reasoning_raises_first_witness :
  select_final_paper Json.loads no_repr arbiter_down
    [scored_bare] [scored_x_again] fresh
  = (Raise (KeyError "reasoning"), fresh).
Proof.
  apply (missing_reasoning_raises_first Json.loads no_repr arbiter_down
           [scored_bare] [scored_x_again] scored_bare scored_x_again
           [ ("problem_relevance", JInt 8); ("dataset_quality", JInt 8);
             ("model_novelty", JInt 8); ("real_world_impact", JInt 8) ]);
    reflexivity.
Defined.

Lemma distinct_papers_are_debated_witness :
  exists sel w',
    run_to_selection Json.loads no_repr all_down [paper_x; paper_y] fresh
    = (Ok (Some sel), w')
    /\ selection_method sel = "debate".
Proof.
  eexists. eexists. split; [vm_compute; reflexivity |].
  eapply (distinct_papers_are_debated Json.loads no_repr all_down
            [paper_x; paper_y] fresh).
  - repeat constructor; cbn; intuition discriminate.
  - vm_compute. reflexivity.
Defined.

Lemma backends_down_selects_first_paper_witness :
  exists groq_scored gemini_scored w1 w2 sel w' e,
    score_with_groq Json.loads all_down [paper_x] fresh = (Ok groq_scored, w1)
    /\ score_with_gemini Json.loads all_down [paper_y] w1
       = (Ok gemini_scored, w2)
    /\ Forall2 (fun p sp => exists e, sp = default_scored p e)
         [paper_x] groq_scored
    /\ Forall2 (fun p sp => exists e, sp = default_scored p e)
         [paper_y] gemini_scored
    /\ 2 <= 2
    /\ run_to_selection Json.loads no_repr all_down [paper_x; paper_y] fresh
       = (Ok (Some sel), w')
    /\ selected_paper sel = default_scored paper_x e
    /\ selection_method sel = "debate"
    /\ final_decision sel
       = Some (JObj [ ("selected", JStr "groq");
                      ("reasoning",
                       JStr "Selected based on higher score after debate error.");
                      ("confidence", JStr "medium") ])
    /\ length (calls w') = 5.
Proof.
  apply (backends_down_selects_first_paper Json.loads no_repr all_down
           [paper_x; paper_y] paper_x paper_y fresh).
  - intros k req. unfold all_down, scripted. destruct k; apply call_raised.
  - reflexivity.
  - reflexivity.
  - discriminate.
Defined.

(** Three papers rated 7, 9 and 7 throughout: the top choice is the second
    paper, and no total is above its own. *)
Lemma top_choice_is_first_best_witness :
  exists out w' top,
    score_with_groq Json.loads seven_nine_seven
      [paper_x; paper_y; paper_named "C" "2501.00013v1"] fresh
    = (Ok out, w')
    /\ item out 0 = Ok top
    /\ title (paper top) = "Y"
    /\ (forall sp, In sp out ->
          (total_score sp <=? total_score top)%float = true).
Proof.
  destruct (top_choice_is_first_best Json.loads seven_nine_seven
              [paper_x; paper_y; paper_named "C" "2501.00013v1"] fresh)
    as [Hgroq _].
  pose proof (score_with_groq_run Json.loads seven_nine_seven
                [paper_x; paper_y; paper_named "C" "2501.00013v1"] fresh)
    as Hrun.
  assert (Hok : Forall (fun sp => not_nan (total_score sp))
                  (entries Json.loads seven_nine_seven fenced_body true
                     "Agent A" (length (calls fresh))
                     [paper_x; paper_y; paper_named "C" "2501.00013v1"])).
  { vm_compute. repeat constructor. }
  pose proof (fun top => Hgroq _ _ top Hok Hrun) as Htop.
  eexists. eexists. eexists.
  split; [exact Hrun |].
  split; [vm_compute; reflexivity |].
  split; [reflexivity |].
  refine (proj1 (Htop _ _)). vm_compute. reflexivity.
Defined.

Lemma unfenced_response_is_kept_witness :
  extract_json (Json.quoted " {'selected': 'groq'} ")
  = Ok (Json.quoted " {'selected': 'groq'} ").
Proof.
  apply (unfenced_response_is_kept (Json.quoted " {'selected': 'groq'} ")).
  reflexivity.
Defined.

Lemma fenced_block_is_extracted_witness :
  extract_json fenced_answer = Ok (Json.quoted "{'selected': 'gemini'}").
Proof.
  apply (fenced_block_is_extracted "Here is my decision: "
           (Json.quoted " {'selected': 'gemini'} ") " Thanks.");
    reflexivity.
Defined.


Lemma summary_shows_last_debate_witness :
  _get_context_summary
    (snd (select_final_paper Json.loads no_repr two_debates
            [scored_y] [scored_x] after_first_debate))
  = (Ok ("\n\n<conversation_history>\n"
           ++ "Round 1 - Agent A (Groq):\n" ++ argument_y ++ "\n\n"
           ++ "Round 2 - Agent B (Gemini):\n" ++ argument_x ++ "\n\n"
           ++ "</conversation_history>")%string,
     snd (select_final_paper Json.loads no_repr two_debates
            [scored_y] [scored_x] after_first_debate)).
Proof.
  pose proof (summary_shows_last_debate Json.loads no_repr two_debates
                [scored_y] [scored_x] scored_y scored_x
                "novel model" "strong data" after_first_debate
                eq_refl eq_refl eq_refl eq_refl) as H.
  cbv zeta in H. apply H. discriminate.
Defined.

Lemma fetched_batch_is_well_formed_witness :
  exists papers,
    fetch_papers sample_search sample_date 1086400%Z = Ok papers
    /\ length papers = 4
    /\ Forall well_fetched papers.
Proof.
  eexists. split; [vm_compute; reflexivity |]. split; [reflexivity |].
  apply (fetched_batch_is_well_formed sample_search sample_date 1086400%Z).
  vm_compute. reflexivity.
Defined.

Lemma truncate_fits_witness :
  (3 <= 5)%Z /\ truncate "portfolio" 5 = "po...".
Proof.
  assert (H : (3 <= 5)%Z) by discriminate.
  split; [exact H |].
  destruct (truncate_fits "portfolio" 5 H) as (_ & _ & Hlong & _).
  destruct Hlong as [E _]; [reflexivity | exact E].
Defined.


Lemma only_last_chunk_of_page_is_short_witness :
  map chunk_text (extract_text_from_pdf 10 (Ok two_pages))
  = ["alpha beta"; "gamma"; "delta"]
  /\ 10 <= String.length "alpha beta" + 1.
Proof.
  split; [reflexivity |].
  apply (only_last_chunk_of_page_is_short 10 (Ok two_pages) 0 1
           {| chunk_text := "alpha beta"; chunk_page := 1; chunk_id := 0 |}
           {| chunk_text := "gamma"; chunk_page := 1; chunk_id := 1 |});
    [lia | reflexivity | reflexivity | reflexivity].
Defined.

Lemma unreadable_page_drops_all_chunks_witness :
  extract_text_from_pdf 10 (Ok damaged) = [].
Proof.
  apply (unreadable_page_drops_all_chunks 10 damaged
           (BackendError "cannot open broken document")).
  right. left. reflexivity.
Defined.

Lemma abstract_stands_in_for_the_text_witness :
  key_findings_of_run (fun _ => NoText) 10 (Some (Ok damaged)) paper_x
  = Ok "Based on abstract: We study X.".
Proof.
  apply (abstract_stands_in_for_the_text (fun _ => NoText) 10
           (Some (Ok damaged)) paper_x).
  reflexivity.
Defined.
